(** * Electrolite: request routing, window placement and display selection

    A shallow embedding of the routing class of [API.js], of the dispatch
    of [Window.js] and of the placement code of [index.js]
    ([#getScreenName], [#getWindowPosition]), with the properties the
    design document states about them. *)

From Stdlib Require Import ZArith String Ascii List Bool Lia.
From Stdlib Require Import Floats.SpecFloat.
From stdpp Require Import gmap strings list.

Local Open Scope string_scope.
Local Open Scope list_scope.

(** ** JavaScript strings *)

Module JSString.

(** [s.split(sep)] for a separator of one character: the pieces between
    the occurrences of [sep], never an empty array. *)
Fixpoint split (sep : ascii) (s : string) : list string :=
  match s with
  | EmptyString => [EmptyString]
  | String c rest =>
      if Ascii.eqb c sep then EmptyString :: split sep rest
      else match split sep rest with
           | [] => [String c EmptyString]
           | piece :: pieces => String c piece :: pieces
           end
  end.

(** How often [sep] occurs in [s]. *)
Fixpoint occurrences (sep : ascii) (s : string) : nat :=
  match s with
  | EmptyString => 0
  | String c rest =>
      if Ascii.eqb c sep then S (occurrences sep rest)
      else occurrences sep rest
  end.

(** The text before and after the first [sep], when there is one. *)
Fixpoint cut (sep : ascii) (s : string) : string * option string :=
  match s with
  | EmptyString => (EmptyString, None)
  | String c rest =>
      if Ascii.eqb c sep then (EmptyString, Some rest)
      else let '(before, after) := cut sep rest in (String c before, after)
  end.

(** [a[i]] on an array of strings: [undefined] out of range. *)
Definition at_index (a : list string) (i : nat) : option string := a !! i.

(** [v || ''] where [v] is a string or [undefined]. *)
Definition or_empty (v : option string) : string :=
  match v with
  | Some s => s
  | None => EmptyString
  end.

(** The own and inherited members every plain object answers to:
    [o[name]] is truthy for these names on any object literal. *)
Definition objectPrototypeNames : list string :=
  [ "constructor"; "__defineGetter__"; "__defineSetter__"; "hasOwnProperty";
    "__lookupGetter__"; "__lookupSetter__"; "isPrototypeOf";
    "propertyIsEnumerable"; "toString"; "valueOf"; "__proto__";
    "toLocaleString" ].

Definition inherited (name : string) : bool :=
  existsb (String.eqb name) objectPrototypeNames.

(** [o[key] = value] on an object literal holding strings: the key
    [__proto__] reaches the prototype setter, which ignores a string. *)
Definition assign (o : gmap string string) (key value : string)
  : gmap string string :=
  if String.eqb key "__proto__" then o else <[key := value]> o.

End JSString.

(** ** JavaScript numbers

    A Number is an IEEE 754 binary64 value; the arithmetic below is the
    Standard Library's executable specification of it, rounding to
    nearest, ties to even. *)

Module JSNumber.

Definition prec : Z := 53.
Definition emax : Z := 1024.

Definition number : Type := spec_float.

Definition NaN : number := S754_nan.

(** The Number nearest to an integer. *)
Definition of_Z (z : Z) : number := binary_normalize prec emax z 0 false.

Definition add : number -> number -> number := SFadd prec emax.
Definition sub : number -> number -> number := SFsub prec emax.
Definition mul : number -> number -> number := SFmul prec emax.
Definition div : number -> number -> number := SFdiv prec emax.

(** [a > b] on Numbers: false as soon as one side is NaN. *)
Definition gt (a b : number) : bool := SFltb b a.

(** The Number nearest to [m * 10^e], [m] a natural number, with the
    sign [neg]: what reading a decimal literal yields. *)
Definition of_decimal (neg : bool) (m : Z) (e : Z) : number :=
  match m with
  | Zpos p =>
      if (0 <=? e)%Z
      then binary_normalize prec emax
             (cond_Zopp neg (Zpos p * 10 ^ e)%Z) 0 neg
      else
        let '(q, e', l) :=
          SFdiv_core_binary prec emax (Zpos p) 0 (10 ^ (- e))%Z 0 in
        binary_round_aux prec emax neg q e' l
  | _ => S754_zero neg
  end.

Definition is_digit (c : ascii) : bool :=
  let n := nat_of_ascii c in (48 <=? n)%nat && (n <=? 57)%nat.

Definition digit_value (c : ascii) : Z := Z.of_nat (nat_of_ascii c) - 48.

(** The longest prefix of decimal digits, and what follows it. *)
Fixpoint span_digits (s : string) : string * string :=
  match s with
  | EmptyString => (EmptyString, EmptyString)
  | String c rest =>
      if is_digit c
      then let '(ds, r) := span_digits rest in (String c ds, r)
      else (EmptyString, s)
  end.

Fixpoint digits_value (acc : Z) (ds : string) : Z :=
  match ds with
  | EmptyString => acc
  | String c rest => digits_value (10 * acc + digit_value c) rest
  end.

(** Tab, line feed, vertical tab, form feed, carriage return, space. *)
Definition is_space (c : ascii) : bool :=
  let n := nat_of_ascii c in
  ((9 <=? n)%nat && (n <=? 13)%nat) || (n =? 32)%nat.

Fixpoint trim_left (s : string) : string :=
  match s with
  | String c rest => if is_space c then trim_left rest else s
  | EmptyString => s
  end.

(** An optional sign: whether it is a minus, and what follows. *)
Definition read_sign (s : string) : bool * string :=
  match s with
  | String "-" rest => (true, rest)
  | String "+" rest => (false, rest)
  | _ => (false, s)
  end.

(** The exponent part [e], [e+], [e-] and digits, when there is a
    complete one; 0 otherwise. *)
Definition read_exponent (s : string) : Z :=
  match s with
  | String c rest =>
      if Ascii.eqb c "e" || Ascii.eqb c "E" then
        let '(neg, r) := read_sign rest in
        let '(ds, _) := span_digits r in
        match ds with
        | EmptyString => 0
        | _ => cond_Zopp neg (digits_value 0 ds)
        end
      else 0
  | EmptyString => 0
  end.

(** [parseFloat(s)]: leading white space is skipped, then the longest
    prefix that is a decimal literal is read; NaN when there is none. *)
Definition parseFloat (s : string) : number :=
  let '(neg, body) := read_sign (trim_left s) in
  if String.prefix "Infinity" body then S754_infinity neg
  else
    let '(ip, after_int) := span_digits body in
    let '(fp, after_frac) :=
      match after_int with
      | String "." r => span_digits r
      | _ => (EmptyString, after_int)
      end in
    match (ip ++ fp)%string with
    | EmptyString => NaN
    | ds =>
        of_decimal neg (digits_value 0 ds)
          (read_exponent after_frac - Z.of_nat (String.length fp))
    end.

Definition hex_value (c : ascii) : option Z :=
  let n := nat_of_ascii c in
  if is_digit c then Some (Z.of_nat n - 48)%Z
  else if (97 <=? n)%nat && (n <=? 102)%nat then Some (Z.of_nat n - 87)%Z
  else if (65 <=? n)%nat && (n <=? 70)%nat then Some (Z.of_nat n - 55)%Z
  else None.

(** The value of the longest prefix of hexadecimal digits; [None] when
    the first character is not one. *)
Fixpoint hex_prefix (acc : option Z) (s : string) : option Z :=
  match s with
  | EmptyString => acc
  | String c rest =>
      match hex_value c with
      | Some v =>
          hex_prefix (Some (16 * match acc with Some a => a | None => 0 end + v)%Z)
            rest
      | None => acc
      end
  end.

(** [parseInt(s)] on a string, no radix given: white space, a sign,
    then hexadecimal digits after [0x] or [0X], decimal digits
    otherwise; NaN when no digit is read. *)
Definition parseInt_string (s : string) : number :=
  let '(neg, body) := read_sign (trim_left s) in
  let integer (v : Z) : number :=
    match v with
    | Z0 => S754_zero neg
    | _ => binary_normalize prec emax (cond_Zopp neg v) 0 neg
    end in
  match body with
  | String "0" (String c rest) =>
      if Ascii.eqb c "x" || Ascii.eqb c "X" then
        match hex_prefix None rest with
        | Some v => integer v
        | None => NaN
        end
      else integer (digits_value 0 (fst (span_digits body)))
  | _ =>
      match fst (span_digits body) with
      | EmptyString => NaN
      | ds => integer (digits_value 0 ds)
      end
  end.

(** The finite Number [m * 2^e] against [10^p]: whether it is at
    least that power of ten. *)
Definition at_least_pow10 (m : positive) (e : Z) (p : Z) : bool :=
  let num := (Zpos m * 2 ^ Z.max 0 e * 10 ^ Z.max 0 (- p))%Z in
  let den := (2 ^ Z.max 0 (- e) * 10 ^ Z.max 0 p)%Z in
  (den <=? num)%Z.

(** The [p] with [10^p <= m * 2^e < 10^(p+1)], searched downwards
    from [p]. *)
Fixpoint floor_log10 (fuel : nat) (m : positive) (e : Z) (p : Z) : Z :=
  match fuel with
  | O => p
  | S fuel' =>
      if at_least_pow10 m e p then p
      else floor_log10 fuel' m e (p - 1)
  end.

(** The first digit of the text of a positive Number [m * 2^e]: of the
    decimal with the fewest digits that reads back as the same Number,
    the nearest one when several do. [k] counts the digits tried. *)
Fixpoint leading_digit_from (fuel : nat) (k : Z) (m : positive) (e : Z)
    (p : Z) : Z :=
  match fuel with
  | O => 0
  | S fuel' =>
      let scale := (p - k + 1)%Z in
      let num := (Zpos m * 2 ^ Z.max 0 e * 10 ^ Z.max 0 (- scale))%Z in
      let den := (2 ^ Z.max 0 (- e) * 10 ^ Z.max 0 scale)%Z in
      let lo := (num / den)%Z in
      let hi := (lo + 1)%Z in
      let reads (s : Z) : bool :=
        match SFcompare (of_decimal false s scale) (S754_finite false m e)
        with
        | Some Eq => true
        | _ => false
        end in
      let first (s : Z) : Z :=
        let d := (s / 10 ^ (k - 1))%Z in if (d =? 10)%Z then 1%Z else d in
      match reads lo, reads hi with
      | true, false => first lo
      | false, true => first hi
      | true, true =>
          (* the nearer of the two, the even one on a tie *)
          let twice := (2 * num - (lo + hi) * den)%Z in
          if (twice <? 0)%Z then first lo
          else if (0 <? twice)%Z then first hi
          else if Z.even lo then first lo else first hi
      | false, false => leading_digit_from fuel' (k + 1)%Z m e p
      end
  end.

Definition leading_digit (m : positive) (e : Z) : Z :=
  leading_digit_from 17 1 m e (floor_log10 700 m e 309).

(** Whether the text of a finite Number is plain decimal: its
    magnitude is at least 1e-6 and below 1e21. *)
Definition plain (m : positive) (e : Z) : bool :=
  SFleb (of_decimal false 1 (-6)) (S754_finite false m e)
  && SFltb (S754_finite false m e) (of_decimal false 1 21).

(** [parseInt(x)] on a Number: [x] is written out and the integer in
    front is read back. When the text is plain decimal that is [x] cut
    towards zero; when it has an exponent, only its first digit is
    read. NaN and the infinities give NaN, and a zero gives 0. *)
Definition parseInt_number (x : number) : number :=
  match x with
  | S754_zero _ => S754_zero false
  | S754_finite s m e =>
      if plain m e then
        if (0 <=? e)%Z then x
        else binary_normalize prec emax
               (cond_Zopp s (Z.shiftr (Zpos m) (- e))) 0 s
      else binary_normalize prec emax (cond_Zopp s (leading_digit m e)) 0 s
  | _ => NaN
  end.

(** [Number.isInteger(x)]. *)
Definition isInteger (x : number) : bool :=
  match x with
  | S754_zero _ => true
  | S754_finite _ m e => (0 <=? e)%Z || (Zpos m mod 2 ^ (- e) =? 0)%Z
  | _ => false
  end.

End JSNumber.

(** ** How a call ends *)

Inductive completion (A E : Type) : Type :=
| Returned (a : A)
| Thrown (e : E).

Arguments Returned {A E} a.
Arguments Thrown {A E} e.

(** ** Route patterns *)

Module RouteParser.

(** Modelled from the spec: [lib/route-parser.js], the class [API.js]
    compiles and matches its routes with, is not among the sources. The
    design document describes it: pattern and path are split on [/]; a
    segment starting with [:] binds the path's segment under that name;
    a literal segment must equal the path's; a pattern ending in [*] is
    wildcard-suffixed: its last segment matches the rest of the path,
    zero or more segments, and what precedes the star in that segment,
    if anything, must begin the path's segment there ([/user/*] matches
    [/user/42/extra], and [/ping] collides with [/p*]); otherwise the
    numbers of segments must agree. Only the empty pattern does not
    compile. *)
Inductive segment : Type :=
| Literal (text : string)
| Named (name : string)
| WildcardTail (text : string).

Definition RoutePattern : Type := list segment.

Definition segment_of (piece : string) : segment :=
  match piece with
  | String ":" name => Named name
  | _ => Literal piece
  end.

(** What precedes the star of a piece that ends in [*]. *)
Fixpoint before_star (piece : string) : option string :=
  match piece with
  | EmptyString => None
  | String c EmptyString =>
      if Ascii.eqb c "*" then Some EmptyString else None
  | String c rest =>
      match before_star rest with
      | Some text => Some (String c text)
      | None => None
      end
  end.

Fixpoint segments_of (pieces : list string) : RoutePattern :=
  match pieces with
  | [] => []
  | [piece] =>
      match before_star piece with
      | Some text => [WildcardTail text]
      | None => [segment_of piece]
      end
  | piece :: rest => segment_of piece :: segments_of rest
  end.

Definition compile (pattern : string) : completion RoutePattern string :=
  match pattern with
  | EmptyString => Thrown "InvalidPatternError"
  | _ => Returned (segments_of (JSString.split "/" pattern))
  end.

Fixpoint match_segments (pattern : RoutePattern) (path : list string)
    (params : gmap string string) : option (gmap string string) :=
  match pattern, path with
  | [], [] => Some params
  | WildcardTail text :: _, [] =>
      match text with
      | EmptyString => Some params
      | String _ _ => None
      end
  | WildcardTail text :: _, piece :: _ =>
      if String.prefix text piece then Some params else None
  | Literal text :: pattern', piece :: path' =>
      if String.eqb text piece then match_segments pattern' path' params
      else None
  | Named name :: pattern', piece :: path' =>
      match_segments pattern' path' (<[name := piece]> params)
  | _, _ => None
  end.

(** [match(pattern, concretePath)]: the bound parameters, or nothing. *)
Definition match_path (pattern : RoutePattern) (concretePath : string)
  : option (gmap string string) :=
  match_segments pattern (JSString.split "/" concretePath) ∅.

End RouteParser.

(** ** [API.js]: the route table of one scope *)

Module API.

Inductive method : Type := GET | POST.

(** The key of [#routes] a method stands for. *)
Definition key (m : method) : string :=
  match m with GET => "get" | POST => "post" end.

(** [method.toUpperCase()]. *)
Definition toUpperCase (m : method) : string :=
  match m with GET => "GET" | POST => "POST" end.

Section Routes.

(** The values handlers receive, return and throw; [undefined]; the
    TypeError of calling what is not a function; the windows. *)
Context {V W : Type} (undefined notAFunction : V).

(** [new routeParser(route)] and [path.match(route)] of
    [lib/route-parser.js], which is not among the sources: a match
    yields the parameters it bound, an object and so truthy, or
    [false]. *)
Context {pattern : Type}.
Context (routeParser : string -> completion pattern string).
Context (path_match : pattern -> string -> option (gmap string string)).

(** The request a handler is called with. [getWindow] is what
    [req.params.getWindow()] answers. *)
Record request : Type := {
  url : string;
  req_method : string;
  params : gmap string string;
  getWindow : W;
  query : gmap string string;
  pathname : string;
  body : option V
}.

(** What a middleware or a handler does in one call, as far as the
    dispatch can tell: it calls the respond callback it was handed,
    any number of times, and returns or throws. What it does with the
    [next] function it is handed is its own business. *)
Inductive script : Type :=
| Return (v : V)
| Raise (e : V)
| Respond (v : V) (rest : script).

(** The arguments of a call: the request, whether a respond callback is
    passed second, and the position in the chain of the function
    passed third, if any. *)
Record arguments : Type := {
  arg_req : request;
  arg_res : bool;
  arg_next : option nat
}.

Definition callable : Type := arguments -> script.

Record routeElement : Type := {
  path : pattern;
  callback : callable
}.

Record routes : Type := {
  routes_get : list routeElement;
  routes_post : list routeElement;
  middleware : list callable
}.

Record APIClass : Type := {
  hasRoutes : bool;
  routes_ : routes
}.

(** [new APIClass()]. *)
Definition new : APIClass :=
  {| hasRoutes := false;
     routes_ := {| routes_get := []; routes_post := []; middleware := [] |} |}.

(** [this.#routes[method]]. *)
Definition routes_of (this : APIClass) (m : method) : list routeElement :=
  match m with
  | GET => routes_get (routes_ this)
  | POST => routes_post (routes_ this)
  end.

Definition use (this : APIClass) (mw : callable) : APIClass :=
  {| hasRoutes := hasRoutes this;
     routes_ := {| routes_get := routes_get (routes_ this);
                   routes_post := routes_post (routes_ this);
                   middleware := middleware (routes_ this) ++ [mw] |} |}.

Definition already_exists (m : method) (route : string) : string :=
  ("Route [" ++ key m ++ "] " ++ route ++ " already exists")%string.

(** [exists] after the [forEach]: some element's pattern matches the
    text of the new route. [isWildcard] is computed and never read. *)
Definition throwErrorIfExists (this : APIClass) (route : string) (m : method)
  : completion unit string :=
  let exists_ :=
    fold_left
      (fun exists_ element =>
         match path_match (path element) route with
         | Some _ => true
         | None => exists_
         end)
      (routes_of this m) false in
  if exists_ then Thrown (already_exists m route) else Returned tt.

Definition push (this : APIClass) (m : method) (element : routeElement)
  : APIClass :=
  {| hasRoutes := hasRoutes this;
     routes_ :=
       match m with
       | GET => {| routes_get := routes_get (routes_ this) ++ [element];
                   routes_post := routes_post (routes_ this);
                   middleware := middleware (routes_ this) |}
       | POST => {| routes_get := routes_get (routes_ this);
                    routes_post := routes_post (routes_ this) ++ [element];
                    middleware := middleware (routes_ this) |}
       end |}.

Definition set_hasRoutes (this : APIClass) : APIClass :=
  {| hasRoutes := true; routes_ := routes_ this |}.

(** The body [get] and [post] share; the state is returned with how
    the call ended. *)
Definition register (m : method) (this : APIClass) (route : string)
    (cb : callable) : APIClass * completion unit string :=
  match throwErrorIfExists this route m with
  | Thrown e => (this, Thrown e)
  | Returned _ =>
      let this1 := set_hasRoutes this in
      match routeParser route with
      | Thrown e => (this1, Thrown e)
      | Returned compiled =>
          (push this1 m {| path := compiled; callback := cb |}, Returned tt)
      end
  end.

Definition get : APIClass -> string -> callable
                 -> APIClass * completion unit string := register GET.

Definition post : APIClass -> string -> callable
                  -> APIClass * completion unit string := register POST.

(** [#getRouteAndParams]. *)
Definition getRouteAndParams (routeWithQueryParams : string)
  : string * gmap string string :=
  let routeAndQueryParams := JSString.split "?" routeWithQueryParams in
  let route := JSString.or_empty (JSString.at_index routeAndQueryParams 0) in
  let query :=
    fold_left
      (fun query argWithValue =>
         let argAndValue := JSString.split "=" argWithValue in
         match argAndValue with
         | [arg; value] => JSString.assign query arg value
         | _ => query
         end)
      (JSString.split "&"
         (JSString.or_empty (JSString.at_index routeAndQueryParams 1)))
      (∅ : gmap string string) in
  (route, query).

(** The variables of one run of the chain, with the positions in
    [traceCall] the loop has called so far. *)
Record chain : Type := {
  cursor : nat;
  breakpoint : bool;
  breakValue : V;
  result : V;
  called : list nat
}.

(** One call of a callable: [res] sets the break variables when it was
    passed, and is [undefined], not a function, when it was not. *)
Fixpoint run (res : bool) (s : script) (c : chain)
  : completion V V * chain :=
  match s with
  | Return v => (Returned v, c)
  | Raise e => (Thrown e, c)
  | Respond v rest =>
      if res then
        run res rest
          {| cursor := cursor c; breakpoint := true; breakValue := v;
             result := result c; called := called c |}
      else (Thrown notAFunction, c)
  end.

(** The arguments of the call the loop makes at [position]: the
    request, [res], and [next = traceCall[++cursor]], which is
    [undefined] past the end. *)
Definition chain_arguments (req : request) (traceCall : list callable)
    (position : nat) : arguments :=
  {| arg_req := req; arg_res := true;
     arg_next := if (S position <? length traceCall)%nat
                 then Some (S position) else None |}.

(** [for await (const middleware of traceCall)], from the entries
    [rest] that are still to come. *)
Fixpoint for_await (req : request) (traceCall rest : list callable)
    (c : chain) : completion V V * chain :=
  match rest with
  | [] => (Returned (result c), c)
  | mw :: rest' =>
      if breakpoint c then (Returned (breakValue c), c)
      else
        let position := cursor c in
        let c1 := {| cursor := S position; breakpoint := breakpoint c;
                     breakValue := breakValue c; result := result c;
                     called := called c ++ [position] |} in
        match run true (mw (chain_arguments req traceCall position)) c1 with
        | (Returned r, c2) =>
            for_await req traceCall rest'
              {| cursor := cursor c2; breakpoint := breakpoint c2;
                 breakValue := breakValue c2; result := r;
                 called := called c2 |}
        | (Thrown e, c2) => (Thrown e, c2)
        end
  end.

(** The matched route [getRoute] closes its promise over. *)
Record matched : Type := {
  index : nat;
  element : routeElement;
  matchedRoute : gmap string string;
  route_ : string;
  query_ : gmap string string;
  routeWithQueryParams_ : string;
  method_ : method;
  callerWindow : W
}.

Definition initial : chain :=
  {| cursor := 0; breakpoint := false; breakValue := undefined;
     result := undefined; called := [] |}.

(** The arguments of the call of a handler when there is no
    middleware: the request alone. *)
Definition direct_arguments (req : request) : arguments :=
  {| arg_req := req; arg_res := false; arg_next := None |}.

(** The [try] block of the promise. *)
Definition try_block (this : APIClass) (req : request)
    (lastCallback : callable) : completion V V * chain :=
  match middleware (routes_ this) with
  | [] =>
      run false (lastCallback (direct_arguments req))
        {| cursor := 0; breakpoint := false; breakValue := undefined;
           result := undefined; called := [0%nat] |}
  | mws =>
      let traceCall := mws ++ [lastCallback] in
      for_await req traceCall traceCall initial
  end.

(** What a dispatch leaves: how the promise settled, what was written
    to the console, and the positions of the chain that were called
    (with no middleware the handler is position 0). *)
Record outcome : Type := {
  settled : completion V V;
  console : list V;
  calls : list nat
}.

(** [req] as the promise builds it. *)
Definition request_of (found : matched) (values : V) : request :=
  {| url := route_ found;
     req_method := toUpperCase (method_ found);
     params := matchedRoute found;
     getWindow := callerWindow found;
     query := query_ found;
     pathname := routeWithQueryParams_ found;
     body := match method_ found with
             | POST => Some values
             | GET => None
             end |}.

(** The promise [getRoute] returns, called with [values]. *)
Definition promise (this : APIClass) (found : matched) (values : V)
  : outcome :=
  let req := request_of found values in
  let lastCallback := callback (element found) in
  match try_block this req lastCallback with
  | (Returned v, c) =>
      {| settled := Returned v; console := []; calls := called c |}
  | (Thrown error, c) =>
      {| settled := Returned error; console := [error]; calls := called c |}
  end.

(** The [for] loop of [getRoute]: the first element from position [i]
    on whose pattern matches. *)
Fixpoint scan (elements : list routeElement) (i : nat) (route : string)
  : option (nat * routeElement * gmap string string) :=
  match elements with
  | [] => None
  | e :: rest =>
      match path_match (path e) route with
      | Some matchedRoute => Some (i, e, matchedRoute)
      | None => scan rest (S i) route
      end
  end.

Definition getRoute (this : APIClass) (routeWithQueryParams : string)
    (m : method) (callerWindow : W) : option matched :=
  let '(route, query) := getRouteAndParams routeWithQueryParams in
  match scan (routes_of this m) 0 route with
  | Some (i, e, matchedRoute) =>
      Some {| index := i; element := e; matchedRoute := matchedRoute;
              route_ := route; query_ := query;
              routeWithQueryParams_ := routeWithQueryParams;
              method_ := m; callerWindow := callerWindow |}
  | None => None
  end.

(** Whether the pattern of an element matches a text. *)
Definition matches (e : routeElement) (route : string) : bool :=
  match path_match (path e) route with
  | Some _ => true
  | None => false
  end.

(** What the promise settles with, as a value. *)
Definition value_of (c : completion V V) : V :=
  match c with
  | Returned v => v
  | Thrown e => e
  end.

(** What the [catch] clause writes to the console. *)
Definition logged (o : completion V V) : list V :=
  match o with
  | Returned _ => []
  | Thrown error => [error]
  end.

(** The values a script passes to the respond callback, in order. *)
Fixpoint responses (s : script) : list V :=
  match s with
  | Respond v rest => v :: responses rest
  | _ => []
  end.

(** How the call of a script ends, with and without a respond
    callback. *)
Fixpoint completes (res : bool) (s : script) : completion V V :=
  match s with
  | Return v => Returned v
  | Raise e => Thrown e
  | Respond _ rest => if res then completes res rest else Thrown notAFunction
  end.

(** [traceCall], and the arguments of the call a dispatch makes at a
    position of it. *)
Definition traceCall_of (this : APIClass) (lastCallback : callable)
  : list callable :=
  middleware (routes_ this) ++ [lastCallback].

Definition arguments_at (this : APIClass) (req : request)
    (lastCallback : callable) (position : nat) : arguments :=
  match middleware (routes_ this) with
  | [] => direct_arguments req
  | _ => chain_arguments req (traceCall_of this lastCallback) position
  end.

(** The chain after a call that passed [v] to the respond callback
    last. *)
Definition broken (c : chain) (v : V) : chain :=
  {| cursor := cursor c; breakpoint := true; breakValue := v;
     result := result c; called := called c |}.

(** The short circuit as the design document states it, for one
    dispatch: whenever a middleware the dispatch calls passes [v] to
    its respond callback, nothing later in the chain is called and the
    dispatch settles with [v]. *)
Definition short_circuits (this : APIClass) (found : matched) (values : V)
  : Prop :=
  let out := promise this found values in
  let req := request_of found values in
  let lastCallback := callback (element found) in
  forall (i : nat) (mw : callable) (v : V),
    middleware (routes_ this) !! i = Some mw ->
    In i (calls out) ->
    In v (responses (mw (arguments_at this req lastCallback i))) ->
    settled out = Returned v
    /\ forall j, In j (calls out) -> (j <= i)%nat.

End Routes.

End API.

(** ** [Window.js]: dispatch for one window *)

Module Window.

Section Apply.

Context {V W : Type} (undefined notAFunction : V).
Context {pattern : Type}.
Context (path_match : pattern -> string -> option (gmap string string)).

(** The window's own table, the table of the parent, and the window
    handed to the handlers. *)
Record Window : Type := {
  API : @API.APIClass V W pattern;
  parent_API : @API.APIClass V W pattern;
  window : W
}.

Definition apply (this : Window) (route : string) (m : API.method)
    (values : V) : @API.outcome V :=
  let run_ (table : API.APIClass) (routeElement : API.matched) :=
    (* [const res = await routeElement(values); return res] *)
    API.promise undefined notAFunction table routeElement values in
  match API.getRoute path_match (API this) route m (window this) with
  | Some routeElement => run_ (API this) routeElement
  | None =>
      match API.getRoute path_match (parent_API this) route m (window this)
      with
      | Some routeElement => run_ (parent_API this) routeElement
      | None =>
          {| API.settled := Returned undefined;
             API.console := []; API.calls := [] |}
      end
  end.

End Apply.

End Window.

(** ** [Screen.js] and the placement code of [index.js] *)

Module Screen.

(** The work area of a display, as the constructor copies it. *)
Record Screen : Type := {
  primary : bool;
  label : string;
  id : string;
  x : JSNumber.number;
  y : JSNumber.number;
  width : JSNumber.number;
  height : JSNumber.number
}.

End Screen.

(** A field of the window options: absent, a Number or a string. *)
Inductive specValue : Type :=
| SUndefined
| SNumber (n : JSNumber.number)
| SString (s : string).

(** A field once its string, if it was one, has been translated. *)
Inductive resolved : Type :=
| RUndefined
| RNumber (n : JSNumber.number).

Module Specs.

Record specs : Type := {
  width : specValue;
  height : specValue;
  x : specValue;
  y : specValue;
  padding : specValue
}.

End Specs.

Module Placed.

(** The fields [#getWindowPosition] has written when it returns. *)
Record specs : Type := {
  width : resolved;
  height : resolved;
  x : JSNumber.number;
  y : JSNumber.number
}.

End Placed.

(** The [screen] option of [createWindow]. *)
Inductive preference : Type :=
| NoPreference
| Name (name : string)
| Names (names : list string).

Module Desktop.

Import JSNumber.

Record DesktopClass : Type := {
  hasInit : bool;
  screens : gmap string Screen.Screen;
  screensOrder : list string;
  primary : option string;
  defaults_window_padding : number
}.

Definition failSafe (this : DesktopClass) (reverse : bool)
  : completion unit string :=
  if negb (hasInit this) && negb reverse
  then Thrown "Desktop must init first"
  else if reverse && hasInit this
       then Thrown "This function should be laucnhed before init"
       else Returned tt.

(** ToNumber. *)
Definition toNumber (v : resolved) : number :=
  match v with
  | RNumber n => n
  | RUndefined => NaN
  end.

(** [/[0-9]+(\.[0-9]{1,2})?%$/] tried at the start of [t]: the digits
    are followed by the percent sign, or by a point, one or two digits
    and the percent sign, and nothing else. *)
Definition percent_here (t : string) : bool :=
  let '(ds, r) := span_digits t in
  match ds with
  | EmptyString => false
  | _ =>
      String.eqb r "%"
      || match r with
         | String dot (String d1 rest) =>
             Ascii.eqb dot "." && is_digit d1
             && (String.eqb rest "%"
                 || match rest with
                    | String d2 rest' => is_digit d2 && String.eqb rest' "%"
                    | EmptyString => false
                    end)
         | _ => false
         end
  end.

(** [str.match(/[0-9]+(\.[0-9]{1,2})?%$/)]: at some position. *)
Fixpoint matches_percent (str : string) : bool :=
  percent_here str
  || match str with
     | String _ rest => matches_percent rest
     | EmptyString => false
     end.

Definition half : number := div (of_Z 1) (of_Z 2).

Definition not_accepted : string :=
  "Values such as center or min are not accepted on with/height".

(** [positions[str](originValue)] when [str] names a member every
    object inherits, with the [parseInt] of [applyProp] applied to what
    the member returns: the constructor wraps the Number; defining an
    accessor without a function and calling the prototype object throw
    a TypeError; the other members return no Number. *)
Definition inherited_member (str : string) (originValue : number)
  : completion number string :=
  if String.eqb str "constructor" then Returned originValue
  else if String.eqb str "__defineGetter__"
          || String.eqb str "__defineSetter__"
          || String.eqb str "__proto__"
       then Thrown "TypeError"
       else Returned NaN.

(** The object [positions]: its own members. *)
Definition positions (str : string) : option (number -> number) :=
  if String.eqb str "center" then Some (fun origin => mul origin half)
  else if String.eqb str "min" then Some (fun origin => of_Z 0)
  else if String.eqb str "max" then Some (fun origin => origin)
  else None.

Definition translateString (str : string) (originValue : number)
    (isSize : bool) : completion number string :=
  if matches_percent str then
    (* Percent value *)
    let percent := parseFloat str in
    Returned (mul originValue (div percent (of_Z 100)))
  else
    match positions str with
    | Some position =>
        if isSize then Thrown not_accepted
        else Returned (position originValue)
    | None =>
        if JSString.inherited str then
          if isSize then Thrown not_accepted
          else inherited_member str originValue
        else Returned originValue
    end.

(** [applyProp], for the field holding [value] and the entry
    [translate] of [props] for it. *)
Definition applyProp (translate : string -> completion number string)
    (value : specValue) : completion resolved string :=
  match value with
  | SString str =>
      match translate str with
      | Returned v => Returned (RNumber (parseInt_number v))
      | Thrown e => Thrown e
      end
  | SNumber n => Returned (RNumber n)
  | SUndefined => Returned RUndefined
  end.

(** [parseInt(specs.padding)]. *)
Definition parseInt (v : specValue) : number :=
  match v with
  | SString s => parseInt_string s
  | SNumber n => parseInt_number n
  | SUndefined => NaN
  end.

(** [screen] inside [#getWindowPosition] is the [screen] module of
    Electron required at the top of the file, not the display: it has
    no member [width] or [height]. *)
Definition screen_width : resolved := RUndefined.
Definition screen_height : resolved := RUndefined.

(** [this.screens[name]]: a display, or a member every object
    inherits, whose [x], [y], [width] and [height] are [undefined] and
    count as NaN in all that follows. *)
Definition screen_named (this : DesktopClass) (name : string)
  : option Screen.Screen :=
  match screens this !! name with
  | Some s => Some s
  | None =>
      if JSString.inherited name
      then Some {| Screen.primary := false; Screen.label := "";
                   Screen.id := name;
                   Screen.x := NaN; Screen.y := NaN;
                   Screen.width := NaN; Screen.height := NaN |}
      else None
  end.

(** [String(null)], the key [this.screens[null]] reads. *)
Definition key_of (name : option string) : string :=
  match name with
  | Some s => s
  | None => "null"
  end.

(** The entries of [props]; [width] and [height] are what
    [specs.width] and [specs.height] hold when [x] and [y] are
    called. *)
Definition props_x (mainScreen : Screen.Screen) (width : resolved)
    (spec : string) : completion number string :=
  translateString spec (sub (Screen.width mainScreen) (toNumber width)) false.

Definition props_y (mainScreen : Screen.Screen) (height : resolved)
    (spec : string) : completion number string :=
  translateString spec (sub (Screen.height mainScreen) (toNumber height))
    false.

Definition props_height (mainScreen : Screen.Screen) (spec : string)
  : completion number string :=
  translateString spec (Screen.height mainScreen) true.

Definition props_width (mainScreen : Screen.Screen) (spec : string)
  : completion number string :=
  translateString spec (Screen.width mainScreen) true.

(** The padding [#getWindowPosition] works with. *)
Definition padding_of (this : DesktopClass) (specs : Specs.specs) : number :=
  if isInteger (parseInt (Specs.padding specs))
  then parseInt (Specs.padding specs)
  else defaults_window_padding this.

(** One line of "Limit size by padding": the size and the position
    after it, [dimension] being what is read off [screen]. *)
Definition limit (dimension : resolved) (padding : number)
    (size : resolved) (position : number) : resolved * number :=
  let bound := sub (toNumber dimension) (mul padding (of_Z 2)) in
  if gt (toNumber size) bound then (RNumber bound, padding)
  else (size, position).

(** [mainScreen]: the screen of the name given, of the primary when
    none is. *)
Definition target (this : DesktopClass) (screenName : option string)
  : option Screen.Screen :=
  screen_named this
    (key_of match screenName with
            | Some s => Some s
            | None => primary this
            end).

Definition getWindowPosition (this : DesktopClass) (specs : Specs.specs)
    (screenName : option string) : completion Placed.specs string :=
  match failSafe this false with
  | Thrown e => Thrown e
  | Returned _ =>
  match target this screenName with
  | None => Thrown "TypeError"
  | Some mainScreen =>
  let padding := padding_of this specs in
  match applyProp (props_width mainScreen) (Specs.width specs) with
  | Thrown e => Thrown e
  | Returned width =>
  match applyProp (props_height mainScreen) (Specs.height specs) with
  | Thrown e => Thrown e
  | Returned height =>
  match applyProp (props_x mainScreen width) (Specs.x specs) with
  | Thrown e => Thrown e
  | Returned x =>
  match applyProp (props_y mainScreen height) (Specs.y specs) with
  | Thrown e => Thrown e
  | Returned y =>
  let x := add (toNumber x) (Screen.x mainScreen) in
  let y := add (toNumber y) (Screen.y mainScreen) in
  let '(width, x) := limit screen_width padding width x in
  let '(height, y) := limit screen_height padding height y in
  Returned {| Placed.width := width; Placed.height := height;
              Placed.x := x; Placed.y := y |}
  end end end end end end.

(** Whether a [screen] option is falsy. *)
Definition falsy (screen : preference) : bool :=
  match screen with
  | NoPreference => true
  | Name EmptyString => true
  | _ => false
  end.

(** The property key a [screen] option is read as. *)
Definition as_key (screen : preference) : string :=
  match screen with
  | NoPreference => "undefined"
  | Name s => s
  | Names l => String.concat "," l
  end.

Definition is_side (e : string) : bool :=
  String.eqb e "left" || String.eqb e "right".

(** [#getScreenName]. Where it returns the option itself the result is
    given as the key the option is read as. *)
Definition getScreenName (this : DesktopClass) (screen : preference)
  : completion (option string) string :=
  match failSafe this false with
  | Thrown e => Thrown e
  | Returned _ =>
  if falsy screen
     || match screen with Name s => String.eqb s "primary" | _ => false end
  then Returned (primary this)
  else if match screens this !! as_key screen with
          | Some _ => true
          | None => JSString.inherited (as_key screen)
          end
  then Returned (Some (as_key screen))
  else
    let screensPrefs :=
      match screen with
      | Names l => l
      | Name s => [s]
      | NoPreference => []
      end in
    let orderScreens :=
      match List.filter is_side screensPrefs with
      | first :: _ => if String.eqb first "right" then "right" else "left"
      | [] => "left"
      end in
    let ordered :=
      if String.eqb orderScreens "right" then rev (screensOrder this)
      else screensOrder this in
    let namesScreens := List.filter (fun e => negb (is_side e)) screensPrefs in
    let screenByName :=
      match namesScreens with
      | [] => None
      | _ =>
          head (List.filter
                  (fun e => existsb (String.eqb e) namesScreens)
                  (screensOrder this))
      end in
    Returned
      match screenByName with
      | Some (String c rest) => Some (String c rest)
      | _ => head ordered
      end
  end.

(** The first ["left"] or ["right"] among the entries. *)
Definition first_side (entries : list string) : option string :=
  head (List.filter is_side entries).

(** Whether the first side named is ["right"]. *)
Definition from_right (entries : list string) : bool :=
  match first_side entries with
  | Some first => String.eqb first "right"
  | None => false
  end.

(** The option names no display and no inherited member. *)
Definition unknown (this : DesktopClass) (screen : preference) : Prop :=
  screens this !! as_key screen = None
  /\ JSString.inherited (as_key screen) = false.

End Desktop.

(** ** The design document's wording, where it is compared with the code *)

Module Design.

(** The query of a dispatched path: the text is split on [&], and an
    entry is kept when it holds exactly one [=], the key before it and
    the value after it; every such entry is kept, whatever its key. *)
Definition query_of (text : string) : gmap string string :=
  fold_left
    (fun query entry =>
       if (JSString.occurrences "=" entry =? 1)%nat
       then
         let '(arg, value) := JSString.cut "=" entry in
         <[arg := JSString.or_empty value]> query
       else query)
    (JSString.split "&" text)
    (∅ : gmap string string).

(** Everything after the first [?] is split off the route and parsed
    as the query. *)
Definition route_and_query (path : string) : string * gmap string string :=
  let '(route, rest) := JSString.cut "?" path in
  (route, query_of (JSString.or_empty rest)).

(** Resolving [width] or [height] against the display's dimension: a
    percentage multiplies against it, [center], [min] and [max] are
    rejected, and any other string passes through unchanged, as does a
    Number. *)
Definition size_of (dimension : JSNumber.number) (value : specValue)
  : completion specValue string :=
  match value with
  | SString str =>
      if Desktop.matches_percent str then
        Returned
          (SNumber
             (JSNumber.parseInt_number
                (JSNumber.mul dimension
                   (JSNumber.div (JSNumber.parseFloat str)
                      (JSNumber.of_Z 100)))))
      else if String.eqb str "center" || String.eqb str "min"
              || String.eqb str "max"
      then Thrown "InvalidSpecError"
      else Returned (SString str)
  | other => Returned other
  end.

(** Resolving [x] or [y] over the travel range: a percentage
    multiplies against it, [center] is half of it, [min] is 0 and
    [max] all of it, cut to an integer; a Number passes through
    unchanged. *)
Definition position_of (travel : JSNumber.number) (value : specValue)
  : option JSNumber.number :=
  match value with
  | SNumber n => Some n
  | SString str =>
      if Desktop.matches_percent str then
        Some (JSNumber.parseInt_number
                (JSNumber.mul travel
                   (JSNumber.div (JSNumber.parseFloat str)
                      (JSNumber.of_Z 100))))
      else if String.eqb str "center" then
        Some (JSNumber.parseInt_number (JSNumber.mul travel Desktop.half))
      else if String.eqb str "min" then Some (JSNumber.of_Z 0)
      else if String.eqb str "max" then
        Some (JSNumber.parseInt_number travel)
      else None
  | SUndefined => None
  end.

(** The limit by padding, against the dimension of the display: a
    size above the dimension less twice the padding is set to that
    bound, and the position to the padding. *)
Definition limit (dimension padding : JSNumber.number) (size : resolved)
    (position : JSNumber.number) : resolved * JSNumber.number :=
  Desktop.limit (RNumber dimension) padding size position.

End Design.

(** ** Concrete tables and displays, for the examples *)

Module Sample.

Definition callable : Type := @API.callable string unit.

Definition table : Type := @API.APIClass string unit RouteParser.RoutePattern.

(** A middleware that answers and returns. *)
Definition answers : callable :=
  fun _ => API.Respond "v" (API.Return "m1").

(** A middleware that answers and then throws. *)
Definition answers_then_throws : callable :=
  fun _ => API.Respond "v" (API.Raise "boom").

(** A middleware that only returns. *)
Definition passes : callable := fun _ => API.Return "m".

Definition handler (text : string) : callable := fun _ => API.Return text.

Definition throwing : callable := fun _ => API.Raise "boom".

Definition get (this : table) (route : string) (cb : callable)
  : table * completion unit string :=
  API.get RouteParser.compile RouteParser.match_path this route cb.

(** A table with the middleware [mws] and the routes [routes], each
    with the handler that returns the text of its route. *)
Definition table_of (mws : list callable) (routes : list string) : table :=
  fold_left (fun this route => fst (get this route (handler route))) routes
    (fold_left API.use mws API.new).

Definition getRoute (this : table) (rq : string) : option API.matched :=
  API.getRoute RouteParser.match_path this rq API.GET tt.

(** The route a path is dispatched to; the table's first when none
    matches. *)
Definition found (this : table) (rq : string) : API.matched :=
  match getRoute this rq with
  | Some f => f
  | None =>
      {| API.index := 0;
         API.element := {| API.path := []; API.callback := handler "" |};
         API.matchedRoute := ∅; API.route_ := ""; API.query_ := ∅;
         API.routeWithQueryParams_ := ""; API.method_ := API.GET;
         API.callerWindow := tt |}
  end.

Definition promise (this : table) (rq : string) : API.outcome :=
  API.promise "undefined" "TypeError" this (found this rq) "".

Definition screen_at (name : string) (x y width height : Z)
  : Screen.Screen :=
  {| Screen.primary := false; Screen.label := name; Screen.id := name;
     Screen.x := JSNumber.of_Z x; Screen.y := JSNumber.of_Z y;
     Screen.width := JSNumber.of_Z width;
     Screen.height := JSNumber.of_Z height |}.

(** A desktop after [init], with its displays from left to right. *)
Definition desktop (displays : list Screen.Screen) (primary : string)
  : Desktop.DesktopClass :=
  {| Desktop.hasInit := true;
     Desktop.screens :=
       list_to_map (map (fun s => (Screen.id s, s)) displays);
     Desktop.screensOrder := map Screen.id displays;
     Desktop.primary := Some primary;
     Desktop.defaults_window_padding := JSNumber.of_Z 20 |}.

(** Three displays [A], [B], [C] from left to right, [B] primary. *)
Definition three : Desktop.DesktopClass :=
  desktop [ screen_at "A" 0 0 1000 800; screen_at "B" 1000 0 1000 800;
            screen_at "C" 2000 0 1000 800 ] "B".

(** One display with the work area x 100, y 0, 1000 by 800. *)
Definition shifted : Desktop.DesktopClass :=
  desktop [ screen_at "A" 100 0 1000 800 ] "A".

(** One display, 1000 by 800, at the origin. *)
Definition single : Desktop.DesktopClass :=
  desktop [ screen_at "A" 0 0 1000 800 ] "A".

Definition pixels (n : Z) : specValue := SNumber (JSNumber.of_Z n).

(** The options of the document's geometry example. *)
Definition centred : Specs.specs :=
  {| Specs.width := SString "50%"; Specs.height := pixels 400;
     Specs.x := SString "center"; Specs.y := SString "min";
     Specs.padding := pixels 0 |}.

(** A window wider than the display, the other options at their
    defaults. *)
Definition oversized : Specs.specs :=
  {| Specs.width := pixels 1200; Specs.height := pixels 600;
     Specs.x := SString "center"; Specs.y := SString "center";
     Specs.padding := pixels 20 |}.

Definition placed (width height x y : Z) : Placed.specs :=
  {| Placed.width := RNumber (JSNumber.of_Z width);
     Placed.height := RNumber (JSNumber.of_Z height);
     Placed.x := JSNumber.of_Z x; Placed.y := JSNumber.of_Z y |}.

End Sample.

(** ** [Window.js]: the routes of a window *)

Module WindowRoutes.

Section Routes.

Context {V W : Type}.
Context {pattern : Type}.
Context (routeParser : string -> completion pattern string).
Context (path_match : pattern -> string -> option (gmap string string)).

Definition with_API (this : @Window.Window V W pattern)
    (table : @API.APIClass V W pattern) : @Window.Window V W pattern :=
  {| Window.API := table;
     Window.parent_API := Window.parent_API this;
     Window.window := Window.window this |}.

(** What the constructor leaves of the tables: [this.API = new API()]
    and the table of the parent. *)
Definition new (parent_API : @API.APIClass V W pattern) (window : W)
  : @Window.Window V W pattern :=
  {| Window.API := API.new; Window.parent_API := parent_API;
     Window.window := window |}.

(** [use]: it calls [this.API.middleware], and an [APIClass] has the
    members [use], [get], [post], [getRoute] and [throwErrorIfExists]
    and no [middleware]: the call throws a TypeError, and nothing is
    stored. *)
Definition use (this : @Window.Window V W pattern)
    (middleware : @API.callable V W)
  : @Window.Window V W pattern * completion unit string :=
  (this, Thrown "TypeError").

Definition get (this : @Window.Window V W pattern) (route : string)
    (callback : @API.callable V W)
  : @Window.Window V W pattern * completion unit string :=
  let '(table, c) :=
    API.get routeParser path_match (Window.API this) route callback in
  (with_API this table, c).

Definition post (this : @Window.Window V W pattern) (route : string)
    (callback : @API.callable V W)
  : @Window.Window V W pattern * completion unit string :=
  let '(table, c) :=
    API.post routeParser path_match (Window.API this) route callback in
  (with_API this table, c).

(** A call of one of the three methods. *)
Inductive call : Type :=
| Use (middleware : @API.callable V W)
| Get (route : string) (callback : @API.callable V W)
| Post (route : string) (callback : @API.callable V W).

(** The window after a call, whether it returned or threw. *)
Definition after (this : @Window.Window V W pattern) (c : call)
  : @Window.Window V W pattern :=
  match c with
  | Use middleware => fst (use this middleware)
  | Get route callback => fst (get this route callback)
  | Post route callback => fst (post this route callback)
  end.

(** The parent has registered routes and middleware in the meantime:
    the window reads [this.parent.API] when it dispatches. *)
Definition with_parent (this : @Window.Window V W pattern)
    (parent_API : @API.APIClass V W pattern) : @Window.Window V W pattern :=
  {| Window.API := Window.API this;
     Window.parent_API := parent_API;
     Window.window := Window.window this |}.

End Routes.

End WindowRoutes.

(** ** The constructor of [Screen.js] and [#detectScreens] of [index.js] *)

Module Display.

(** A display as Electron describes it, as far as the constructor of
    [Screen] reads it: [label] is a string or [undefined]. *)
Record Display : Type := {
  id : JSNumber.number;
  label : option string;
  workArea_x : JSNumber.number;
  workArea_y : JSNumber.number;
  workArea_width : JSNumber.number;
  workArea_height : JSNumber.number
}.

End Display.

Module Displays.

Import JSNumber.

(** [===] on two Numbers. *)
Definition strictly_equal (a b : number) : bool := SFeqb a b.

Section Detect.

(** The text a Number has in a template literal. *)
Context (toString : number -> string).

(** [new Screen(info, primaryID)]. *)
Definition new_Screen (info : Display.Display) (primaryID : number)
  : Screen.Screen :=
  let label :=
    match Display.label info with
    | Some (String c rest) => String c rest
    | _ => "noLabel"
    end in
  {| Screen.primary := strictly_equal primaryID (Display.id info);
     Screen.label := label;
     Screen.id :=
       String "#" (toString (Display.id info) ++ "-" ++ label);
     Screen.x := Display.workArea_x info;
     Screen.y := Display.workArea_y info;
     Screen.width := Display.workArea_width info;
     Screen.height := Display.workArea_height info |}.

(** The body of the [map] callback. *)
Definition push_screen (this : Desktop.DesktopClass)
    (screenElement : Screen.Screen) : Desktop.DesktopClass :=
  {| Desktop.hasInit := Desktop.hasInit this;
     Desktop.screens :=
       <[Screen.id screenElement := screenElement]> (Desktop.screens this);
     Desktop.screensOrder :=
       Desktop.screensOrder this ++ [Screen.id screenElement];
     Desktop.primary := Desktop.primary this;
     Desktop.defaults_window_padding :=
       Desktop.defaults_window_padding this |}.

(** [Object.values(this.screens)]. The keys of [this.screens] are the
    ids pushed on [screensOrder], and an object lists its keys in the
    order they were first added: the values are read in the order of
    [screensOrder]. An id pushed twice is read twice, which changes
    neither which value comes first nor which comes first among those
    a test selects. *)
Definition values (this : Desktop.DesktopClass) : list Screen.Screen :=
  omap (fun name => Desktop.screens this !! name) (Desktop.screensOrder this).

(** [#detectScreens], [sorted] being the displays as [sort] has left
    them. The comparison function given to [sort] answers [0] or [-1]
    and never a positive number; it is no consistent order, and the
    order of the result is left to the engine.

    With no screen at all [this.primary] becomes [undefined]; the
    record has one value for [null] and [undefined], and no screen is
    found under either. *)
Definition detectScreens (this : Desktop.DesktopClass)
    (sorted : list Display.Display) (primaryID : number)
  : completion Desktop.DesktopClass string :=
  match Desktop.failSafe this false with
  | Thrown e => Thrown e
  | Returned _ =>
      let this1 :=
        fold_left
          (fun this screenInfo =>
             push_screen this (new_Screen screenInfo primaryID))
          sorted this in
      let hasPrimary := head (List.filter Screen.primary (values this1)) in
      Returned
        {| Desktop.hasInit := Desktop.hasInit this1;
           Desktop.screens := Desktop.screens this1;
           Desktop.screensOrder := Desktop.screensOrder this1;
           Desktop.primary :=
             match hasPrimary with
             | Some s => Some (Screen.id s)
             | None => head (Desktop.screensOrder this1)
             end;
           Desktop.defaults_window_padding :=
             Desktop.defaults_window_padding this1 |}
  end.

(** The fields as the constructor of [DesktopClass] sets them. *)
Definition new : Desktop.DesktopClass :=
  {| Desktop.hasInit := false;
     Desktop.screens := ∅;
     Desktop.screensOrder := [];
     Desktop.primary := None;
     Desktop.defaults_window_padding := of_Z 20 |}.

(** What [init] does to these fields: [this.hasInit = true], then
    [#detectScreens]. *)
Definition init (this : Desktop.DesktopClass)
    (sorted : list Display.Display) (primaryID : number)
  : completion Desktop.DesktopClass string :=
  detectScreens
    {| Desktop.hasInit := true;
       Desktop.screens := Desktop.screens this;
       Desktop.screensOrder := Desktop.screensOrder this;
       Desktop.primary := Desktop.primary this;
       Desktop.defaults_window_padding :=
         Desktop.defaults_window_padding this |}
    sorted primaryID.

End Detect.

End Displays.

(** ** [#getWindowType] and [createWindow] of [index.js] *)

Module WindowSpecs.

Import JSNumber.

(** An entry of [raw], of [after], or another option of a window. *)
Inductive value : Type :=
| VUndefined
| VBool (b : bool)
| VNumber (n : number)
| VString (s : string).

(** The options [createWindow] is given. A field that is [None] is
    not a property of the object; [type] is absent or a string; [raw]
    and [after] are absent or objects; [others] holds the properties
    with other names. *)
Record options : Type := {
  type : option string;
  debug : option value;
  raw : option (gmap string value);
  after : option (gmap string value);
  width : option specValue;
  height : option specValue;
  x : option specValue;
  y : option specValue;
  padding : option specValue;
  screen : preference;
  src : option string;
  others : gmap string value
}.

Definition truthy_number (n : number) : bool :=
  match n with
  | S754_zero _ | S754_nan => false
  | _ => true
  end.

Definition truthy_string (s : string) : bool :=
  match s with
  | EmptyString => false
  | String _ _ => true
  end.

Definition truthy (v : option value) : bool :=
  match v with
  | Some (VBool b) => b
  | Some (VNumber n) => truthy_number n
  | Some (VString s) => truthy_string s
  | Some VUndefined | None => false
  end.

Definition truthy_spec (v : option specValue) : bool :=
  match v with
  | Some (SNumber n) => truthy_number n
  | Some (SString s) => truthy_string s
  | Some SUndefined | None => false
  end.

Definition truthy_text (v : option string) : bool :=
  match v with
  | Some s => truthy_string s
  | None => false
  end.

(** [{ ...a, ...b }]. *)
Definition spread (a b : gmap string value) : gmap string value := b ∪ a.

(** [o || {}]. *)
Definition or_empty (o : option (gmap string value)) : gmap string value :=
  match o with
  | Some entries => entries
  | None => ∅
  end.

(** [v || text]. *)
Definition or_text (v : option specValue) (text : string) : option specValue :=
  if truthy_spec v then v else Some (SString text).

Definition commonSpecs : gmap string value :=
  <["frame" := VBool true]> (<["autoHideMenuBar" := VBool true]> ∅).

Definition glassSpecs : gmap string value :=
  <["hasShadow" := VBool true]>
    (<["transparent" := VBool true]>
       (<["frame" := VBool true]> commonSpecs)).

Definition newline : string := String (ascii_of_nat 10) "".

Definition tabs : string :=
  String (ascii_of_nat 9)
    (String (ascii_of_nat 9)
       (String (ascii_of_nat 9) (String (ascii_of_nat 9) ""))).

Definition glass_css : string :=
  ("html { background: rgba(255, 255, 255, 0.2);" ++ newline
   ++ tabs ++ "backdrop-filter: blur(12px);" ++ newline
   ++ tabs ++ "-webkit-backdrop-filter: blur(12px);")%string.

Definition blurred_css : string :=
  "html { backdrop-filter: blur(12px); -webkit-backdrop-filter: blur(12px);".

(** [Object.keys(types)], as a template literal writes it. *)
Definition type_names : list string :=
  [ "background"; "borderless"; "glass"; "borderlessGlass"; "blurred";
    "borderlessBlurred" ].

Definition unknown_type (type : string) : string :=
  ("Unkown type " ++ String (ascii_of_nat 34) type
   ++ String (ascii_of_nat 34) ", options are:" ++ newline
   ++ String.concat "," type_names ++ "." ++ newline
   ++ "If you want to set BrowserWindow.type, use options.raw instead")%string.

Definition set_raw (specsInfo : options) (entries : gmap string value)
  : options :=
  {| type := type specsInfo; debug := debug specsInfo;
     raw := Some entries; after := after specsInfo;
     width := width specsInfo; height := height specsInfo;
     x := x specsInfo; y := y specsInfo; padding := padding specsInfo;
     screen := screen specsInfo; src := src specsInfo;
     others := others specsInfo |}.

Definition set_after (specsInfo : options) (entries : gmap string value)
  : options :=
  {| type := type specsInfo; debug := debug specsInfo;
     raw := raw specsInfo; after := Some entries;
     width := width specsInfo; height := height specsInfo;
     x := x specsInfo; y := y specsInfo; padding := padding specsInfo;
     screen := screen specsInfo; src := src specsInfo;
     others := others specsInfo |}.

(** The member [background] of [types]. *)
Definition background (specsInfo : options) : options :=
  {| type := type specsInfo; debug := debug specsInfo;
     raw :=
       Some (spread
               (<["titleBarStyle" := VString "hidden"]>
                  (<["type" := VString "splash"]>
                     (or_empty (raw specsInfo))))
               commonSpecs);
     after := after specsInfo;
     width := or_text (width specsInfo) "full";
     height := or_text (height specsInfo) "full";
     x := or_text (x specsInfo) "min";
     y := or_text (y specsInfo) "min";
     padding := padding specsInfo;
     screen := screen specsInfo; src := src specsInfo;
     others := others specsInfo |}.

(** [types[specsInfo.type]], called: its own members, then those
    every object inherits, which change nothing; of these, calling the
    prototype object or defining an accessor without a function throws
    a TypeError. [specsInfo.raw] is an object by then. *)
Definition apply_type (name : string) (specsInfo : options)
  : completion options string :=
  let raw_ := or_empty (raw specsInfo) in
  let glassSpecsAfter :=
    <["css" := VString glass_css]> (or_empty (after specsInfo)) in
  let blurredAfter :=
    <["css" := VString blurred_css]> (or_empty (after specsInfo)) in
  if String.eqb name "background" then Returned (background specsInfo)
  else if String.eqb name "borderless" then
    Returned
      (set_raw specsInfo
         (<["frame" := VBool false]> (spread raw_ commonSpecs)))
  else if String.eqb name "glass" then
    Returned
      (set_after (set_raw specsInfo (spread raw_ glassSpecs)) glassSpecsAfter)
  else if String.eqb name "borderlessGlass" then
    Returned
      (set_after
         (set_raw specsInfo
            (<["frame" := VBool false]> (spread raw_ glassSpecs)))
         glassSpecsAfter)
  else if String.eqb name "blurred" then
    Returned
      (set_after
         (set_raw specsInfo
            (<["frame" := VBool true]> (spread raw_ glassSpecs)))
         blurredAfter)
  else if String.eqb name "borderlessBlurred" then
    Returned
      (set_after
         (set_raw specsInfo
            (<["frame" := VBool false]> (spread raw_ glassSpecs)))
         blurredAfter)
  else if JSString.inherited name then
    if String.eqb name "__defineGetter__"
       || String.eqb name "__defineSetter__"
       || String.eqb name "__proto__"
    then Thrown "TypeError"
    else Returned (set_raw specsInfo raw_)
  else Thrown (unknown_type name).

(** [#getWindowType]. *)
Definition getWindowType (specsInfo : options)
  : completion options string :=
  if negb (truthy_text (type specsInfo)) then
    Returned
      {| type := type specsInfo; debug := debug specsInfo;
         raw := raw specsInfo; after := after specsInfo;
         width := width specsInfo; height := height specsInfo;
         x := x specsInfo; y := y specsInfo; padding := padding specsInfo;
         screen := screen specsInfo; src := src specsInfo;
         others := spread commonSpecs (others specsInfo) |}
  else
    match apply_type (default "" (type specsInfo)) specsInfo with
    | Thrown e => Thrown e
    | Returned specsInfo =>
        let specsInfo :=
          if truthy (debug specsInfo) then
            {| type := type specsInfo; debug := None;
               raw := raw specsInfo;
               after :=
                 Some (<["debug" := VBool true]>
                         (or_empty (after specsInfo)));
               width := width specsInfo; height := height specsInfo;
               x := x specsInfo; y := y specsInfo;
               padding := padding specsInfo;
               screen := screen specsInfo; src := src specsInfo;
               others := others specsInfo |}
          else specsInfo in
        Returned
          {| type := None; debug := debug specsInfo;
             raw := raw specsInfo; after := after specsInfo;
             width := width specsInfo; height := height specsInfo;
             x := x specsInfo; y := y specsInfo;
             padding := padding specsInfo;
             screen := screen specsInfo; src := src specsInfo;
             others := others specsInfo |}
    end.

(** What [new Window(specs, this)] is given, as far as [Window.js]
    reads it. *)
Record windowSpecs : Type := {
  placed : Placed.specs;
  window_raw : option (gmap string value);
  window_after : option (gmap string value);
  window_src : string
}.

Definition no_src : string :=
  ("Window should have a " ++ String (ascii_of_nat 34) "src"
   ++ String (ascii_of_nat 34) " property pointing to an url or file")%string.

(** A field of [{ ...this.defaults.window, ...winType }]. *)
Definition or_default (given : option specValue) (default : specValue)
  : specValue :=
  match given with
  | Some v => v
  | None => default
  end.

(** [params]; the defaults are those the constructor sets. *)
Definition params_of (this : Desktop.DesktopClass) (winType : options)
  : Specs.specs :=
  {| Specs.width := or_default (width winType) (SNumber (of_Z 800));
     Specs.height := or_default (height winType) (SNumber (of_Z 600));
     Specs.x := or_default (x winType) (SString "center");
     Specs.y := or_default (y winType) (SString "center");
     Specs.padding :=
       or_default (padding winType)
         (SNumber (Desktop.defaults_window_padding this)) |}.

(** [createWindow], up to the point where the constructor of [Window]
    has checked [src] and builds the window. *)
Definition createWindow (this : Desktop.DesktopClass) (specsInfo : options)
  : completion windowSpecs string :=
  match Desktop.failSafe this false with
  | Thrown e => Thrown e
  | Returned _ =>
  match getWindowType specsInfo with
  | Thrown e => Thrown e
  | Returned winType =>
  let params := params_of this winType in
  match Desktop.getScreenName this (screen specsInfo) with
  | Thrown e => Thrown e
  | Returned screenName =>
  match Desktop.getWindowPosition this params screenName with
  | Thrown e => Thrown e
  | Returned specs =>
      if truthy_text (src winType) then
        Returned {| placed := specs;
                    window_raw := raw winType;
                    window_after := after winType;
                    window_src := default "" (src winType) |}
      else Thrown no_src
  end end end end.

End WindowSpecs.

(** ** The life of the application: [mode], [protocol], and what
    [init] registers for the event [window-all-closed] *)

Module Lifecycle.

Section App.

(** The callbacks given to [protocol], and whether one is truthy. *)
Context {C : Type}.
Context (truthy : C -> bool).

(** The functions [init] gives to [app.on]. *)
Inductive listener : Type :=
| LogActivated
| QuitUnlessDarwin
| OnAllWindowsClosed.

(** [schemes] lists the names given to
    [protocol.registerSchemesAsPrivileged], in order. *)
Record DesktopClass : Type := {
  desktop : Desktop.DesktopClass;
  mode_ : string;
  protocols : option (gmap string C);
  app_listeners : list (string * listener);
  schemes : list string
}.

(** The fields as the constructor sets them; nothing is registered
    with Electron yet. *)
Definition new : DesktopClass :=
  {| desktop := Displays.new;
     mode_ := "exitOnAllClose";
     protocols := None;
     app_listeners := [];
     schemes := [] |}.

Definition allowedModes : list string := ["keepAlive"; "exitOnAllClose"].

Definition not_allowed : string :=
  ("Only " ++ String.concat ", " allowedModes ++ " modes allowed")%string.

(** [get mode]. *)
Definition mode (this : DesktopClass) : string := mode_ this.

(** [set mode]: [indexOf] compares with [===], which only a string
    equal to one of the two satisfies. *)
Definition set_mode (this : DesktopClass) (val : WindowSpecs.value)
  : DesktopClass * completion unit string :=
  match val with
  | WindowSpecs.VString s =>
      if existsb (String.eqb s) allowedModes then
        ({| desktop := desktop this; mode_ := s;
            protocols := protocols this;
            app_listeners := app_listeners this;
            schemes := schemes this |},
         Returned tt)
      else (this, Thrown not_allowed)
  | _ => (this, Thrown not_allowed)
  end.

Definition already_exists (name : string) : string :=
  ("Protocol " ++ String (ascii_of_nat 34) name
   ++ String (ascii_of_nat 34) " already exists.")%string.

(** [this.protocols[name]], as a condition: a callback stored under
    the name, or a member every object inherits. *)
Definition registered (entries : gmap string C) (name : string) : bool :=
  match entries !! name with
  | Some callback => truthy callback
  | None => JSString.inherited name
  end.

(** [protocol]. *)
Definition protocol (this : DesktopClass) (name : string) (callback : C)
  : DesktopClass * completion unit string :=
  match Desktop.failSafe (desktop this) true with
  | Thrown e => (this, Thrown e)
  | Returned _ =>
      (* Init protocols only if called *)
      let entries :=
        match protocols this with
        | Some entries => entries
        | None => ∅
        end in
      if registered entries name then
        ({| desktop := desktop this; mode_ := mode_ this;
            protocols := Some entries;
            app_listeners := app_listeners this;
            schemes := schemes this |},
         Thrown (already_exists name))
      else
        ({| desktop := desktop this; mode_ := mode_ this;
            protocols := Some (<[name := callback]> entries);
            app_listeners := app_listeners this;
            schemes := schemes this ++ [name] |},
         Returned tt)
  end.

(** [init], [detected] being the screens it finds: the listeners it
    gives to [app.on], in order. *)
Definition init (this : DesktopClass) (detected : Desktop.DesktopClass)
  : DesktopClass :=
  {| desktop := detected;
     mode_ := mode_ this;
     protocols := protocols this;
     app_listeners :=
       app_listeners this
         ++ [("activate", LogActivated);
             ("window-all-closed", QuitUnlessDarwin);
             ("window-all-closed", OnAllWindowsClosed)];
     schemes := schemes this |}.

(** The calls of [app.quit] one listener makes. *)
Definition quits (this : DesktopClass) (platform : string) (l : listener)
  : nat :=
  match l with
  | LogActivated => 0
  | QuitUnlessDarwin =>
      if negb (String.eqb platform "darwin") then 1 else 0
  | OnAllWindowsClosed =>
      (* [onAllWindowsClosed] *)
      if negb (String.eqb (mode_ this) "keepAlive") then
        if negb (String.eqb platform "darwin") then 1 else 0
      else 0
  end.

(** The calls of [app.quit] when Electron emits [event]: the
    listeners given for it are called in the order they were given. *)
Definition emitted (this : DesktopClass) (platform event : string) : nat :=
  list_sum
    (map (fun entry => quits this platform (snd entry))
       (List.filter (fun entry => String.eqb (fst entry) event)
          (app_listeners this))).

End App.

End Lifecycle.

(** ** Listeners: [on] and [onEvent] of [Window.js], [on] and [onEmit]
    of [index.js] *)

Module Hooks.

Section Listeners.

(** The values sent with an event, the listeners, and what a listener
    throws; the name of an event sent along is a value. *)
Context {V L E : Type}.
Context (of_string : string -> V).
Context (typeError : E).

(** The calls made so far, each with its arguments. *)
Definition trace : Type := list (L * list V).

(** What a listener does when it is called after the calls [t], as
    far as the call that handles the event can tell: it returns or
    throws. *)
Context (call : trace -> L -> list V -> completion unit E).

(** [this.hooks]. *)
Definition hooks : Type := gmap string (list L).

(** [on], of a window and of the desktop alike. Under the name of a
    member every object inherits, [this.hooks[eventName]] is that
    member: it is truthy and has no [push]. *)
Definition on (this : hooks) (eventName : string) (callback : L)
  : hooks * completion unit E :=
  match this !! eventName with
  | Some callbacks =>
      (<[eventName := callbacks ++ [callback]]> this, Returned tt)
  | None =>
      if JSString.inherited eventName then (this, Thrown typeError)
      else (<[eventName := [callback]]> this, Returned tt)
  end.

(** [callbacks.forEach((callback) => callback(...args))] after the
    calls [t]. *)
Fixpoint forEach (callbacks : list L) (args : list V) (t : trace)
  : completion unit E * trace :=
  match callbacks with
  | [] => (Returned tt, t)
  | callback :: rest =>
      match call t callback args with
      | Returned _ => forEach rest args (t ++ [(callback, args)])
      | Thrown e => (Thrown e, t ++ [(callback, args)])
      end
  end.

(** [onEvent(eventName, ...args)] of a window. The function is
    [async] and awaits nothing: its body has run when the call
    returns, and what it throws rejects the promise it returns. *)
Definition onEvent (this : hooks) (eventName : string) (args : list V)
    (t : trace) : completion unit E * trace :=
  match this !! eventName with
  | Some callbacks => forEach callbacks args t
  | None =>
      if JSString.inherited eventName then (Thrown typeError, t)
      else (Returned tt, t)
  end.

(** [onEmit(event, eventName, ...data)] of the desktop, [id] being
    what [#getIDFromEvent] makes of the event ([lib/idGenerator.js] is
    not among the sources). The window is looked up first: under an id
    the stack does not hold, [this.windowsStack[id]] is [undefined], or
    a member every object inherits, which has no [onEvent], and the
    call throws a TypeError before any listener runs. [createWindow]
    gives every window a listener for [close] that deletes the window
    from the stack: the events a window sends after one [close] find no
    window. The promise of [onEvent] is not awaited. *)
Definition onEmit (this : hooks) (windowsStack : gmap string hooks)
    (id eventName : string) (data : list V) (t : trace)
  : completion bool E * trace :=
  let args := of_string eventName :: data in
  match windowsStack !! id with
  | None => (Thrown typeError, t)
  | Some window =>
      let '(_, t) := onEvent window eventName data t in
      match this !! eventName with
      | Some callbacks =>
          match forEach callbacks args t with
          | (Returned _, t) => (Returned true, t)
          | (Thrown e, t) => (Thrown e, t)
          end
      | None =>
          if JSString.inherited eventName then (Thrown typeError, t)
          else (Returned true, t)
      end
  end.

(** The listeners of an event. *)
Definition listeners (this : hooks) (eventName : string) : list L :=
  default [] (this !! eventName).

End Listeners.

End Hooks.

(** ** [Settings.js] *)

Module Settings.

Import JSNumber.

(** A value given to [set]: [undefined], [null], a boolean, a Number
    or a string. *)
Inductive value : Type :=
| Undefined
| Null
| Boolean (b : bool)
| Number (n : number)
| Text (s : string).

(** What [this.#settings[prop]] reads: a property of the object
    itself, a member of [Object.prototype] the object inherits, or
    nothing. *)
Inductive read : Type :=
| Own (v : value)
| Member (name : string)
| Absent.

(** What [JSON.parse] returns. *)
#[warnings="-register-all"] Inductive parsed : Type :=
| PNull
| PBoolean (b : bool)
| PNumber (n : number)
| PText (s : string)
| PArray (items : list parsed)
| PObject (entries : gmap string parsed).

(** The file of the settings: none; one that is not JSON; one that
    holds an object whose properties are all [null], booleans, Numbers
    or strings, as [#saveFile] writes it from such values, the object
    given by what [JSON.parse] reads from the text; or one that holds
    any JSON, given by what [JSON.parse] returns. *)
Inductive disk : Type :=
| NoFile
| Unreadable
| Holds (entries : gmap string value)
| HoldsJSON (j : parsed).

(** [#settings] with whether its prototype is still
    [Object.prototype], and the file at [#path]. *)
Record SettingsClass : Type := {
  settings : gmap string value;
  prototype : bool;
  file : disk
}.

(** [this.#settings[prop]]. *)
Definition lookup (this : SettingsClass) (prop : string) : read :=
  match settings this !! prop with
  | Some v => Own v
  | None =>
      if prototype this && JSString.inherited prop then Member prop
      else Absent
  end.

Definition truthy (r : read) : bool :=
  match r with
  | Own (Boolean b) => b
  | Own (Number n) =>
      match n with
      | S754_zero _ | S754_nan => false
      | _ => true
      end
  | Own (Text s) =>
      match s with
      | EmptyString => false
      | String _ _ => true
      end
  | Own Undefined | Own Null | Absent => false
  | Member _ => true
  end.

(** [r === value]; a member of [Object.prototype] is a function or an
    object, and equals none of these values. *)
Definition strictly_equal (r : read) (v : value) : bool :=
  match r, v with
  | Own Undefined, Undefined | Absent, Undefined => true
  | Own Null, Null => true
  | Own (Boolean a), Boolean b => Bool.eqb a b
  | Own (Number a), Number b => SFeqb a b
  | Own (Text a), Text b => String.eqb a b
  | _, _ => false
  end.

(** [typeof r === "undefined"]. *)
Definition is_undefined (r : read) : bool :=
  match r with
  | Absent | Own Undefined => true
  | _ => false
  end.

(** What [JSON.parse] reads of an entry [JSON.stringify] has written:
    [undefined] is left out, and a Number that is not finite is
    written as [null], a zero as [0]. *)
Definition json (v : value) : option value :=
  match v with
  | Undefined => None
  | Number S754_nan | Number (S754_infinity _) => Some Null
  | Number (S754_zero _) => Some (Number (S754_zero false))
  | v => Some v
  end.

(** The object [JSON.parse] reads from [JSON.stringify(entries)]. *)
Definition stringify (entries : gmap string value) : gmap string value :=
  omap json entries.

(** [#saveFile]. *)
Definition saveFile (this : SettingsClass) : SettingsClass :=
  {| settings := settings this; prototype := prototype this;
     file := Holds (stringify (settings this)) |}.

(** [this.#settings[prop] = value]. Where the object has no property
    [__proto__] of its own and still inherits the accessor of that
    name, the assignment reaches the accessor: [null] takes the
    prototype away, and the other values here are ignored. *)
Definition assign (this : SettingsClass) (prop : string) (v : value)
  : SettingsClass :=
  match settings this !! prop with
  | None =>
      if String.eqb prop "__proto__" && prototype this then
        match v with
        | Null => {| settings := settings this; prototype := false;
                     file := file this |}
        | _ => this
        end
      else {| settings := <[prop := v]> (settings this);
              prototype := prototype this; file := file this |}
  | Some _ =>
      {| settings := <[prop := v]> (settings this);
         prototype := prototype this; file := file this |}
  end.

(** What [set] and [update] return. *)
Inductive returned : Type :=
| ReturnsUndefined
| ReturnsSettings (entries : gmap string value)
| ReturnsError (message : string).

(** [set]. *)
Definition set (this : SettingsClass) (prop : string) (v : value)
    (returnNewSettings : bool) : SettingsClass * returned :=
  if truthy (lookup this prop) && strictly_equal (lookup this prop) v
  then (this, ReturnsUndefined)
  else
    let this := saveFile (assign this prop v) in
    (this,
     if returnNewSettings then ReturnsSettings (settings this)
     else ReturnsUndefined).

Definition no_key (prop : string) : string :=
  ("Can't update non-existing key " ++ String (ascii_of_nat 34) prop
   ++ String (ascii_of_nat 34) "")%string.

(** [update]. *)
Definition update (this : SettingsClass) (prop : string) (v : value)
    (returnNewSettings : bool) : SettingsClass * returned :=
  if negb (is_undefined (lookup this prop))
  then set this prop v returnNewSettings
  else (this, ReturnsError (no_key prop)).

(** [get]. *)
Definition get (this : SettingsClass) (prop : string) : read :=
  lookup this prop.

(** [delete]. *)
Definition delete (this : SettingsClass) (prop : string) : SettingsClass :=
  if is_undefined (lookup this prop) then this
  else
    saveFile
      {| settings := base.delete prop (settings this);
         prototype := prototype this; file := file this |}.

Definition not_json (path : string) : string :=
  ("Error while parsing " ++ String (ascii_of_nat 34) path
   ++ String (ascii_of_nat 34)
        " save file, it looks like the file doesn't respect JSON format.")%string.

(** A value of [JSON] that is [null], a boolean, a Number or a
    string. *)
Definition scalar (j : parsed) : option value :=
  match j with
  | PNull => Some Null
  | PBoolean b => Some (Boolean b)
  | PNumber n => Some (Number n)
  | PText s => Some (Text s)
  | PArray _ | PObject _ => None
  end.

(** The properties of an object of [JSON] whose properties are all
    such values. *)
Definition plain (j : parsed) : option (gmap string value) :=
  match j with
  | PObject entries =>
      if bool_decide (map_Forall (fun _ v => is_Some (scalar v)) entries)
      then Some (omap scalar entries)
      else None
  | _ => None
  end.

(** What [#settings] is once the constructor has run: an object of
    such values, on which the methods above work, or whatever else
    [JSON.parse] has returned: [null], a boolean, a Number, a string,
    an array, or an object with an array or an object inside. *)
Inductive started : Type :=
| AnObject (this : SettingsClass)
| Other (j : parsed).

(** The constructor with [#init], [d] being the file it finds at
    [path]: [#settings] stays the empty object without a file, and is
    what [JSON.parse] returns with one. *)
Definition init (path : string) (d : disk) : completion started string :=
  match d with
  | NoFile =>
      Returned
        (AnObject {| settings := ∅; prototype := true; file := NoFile |})
  | Unreadable => Thrown (not_json path)
  | Holds entries =>
      Returned
        (AnObject {| settings := entries; prototype := true; file := d |})
  | HoldsJSON j =>
      match plain j with
      | Some entries =>
          Returned
            (AnObject {| settings := entries; prototype := true; file := d |})
      | None => Returned (Other j)
      end
  end.

(** A call of one of the methods that change the settings. *)
Inductive call : Type :=
| CallSet (prop : string) (v : value) (returnNewSettings : bool)
| CallUpdate (prop : string) (v : value) (returnNewSettings : bool)
| CallDelete (prop : string).

Definition after (this : SettingsClass) (c : call) : SettingsClass :=
  match c with
  | CallSet prop v r => fst (set this prop v r)
  | CallUpdate prop v r => fst (update this prop v r)
  | CallDelete prop => delete this prop
  end.

End Settings.

(** ** Concrete displays, for the examples *)

Module Fixture.

(** The decimal digits of a natural number, before [text]. *)
Fixpoint decimal (fuel : nat) (n : Z) (text : string) : string :=
  let text := String (ascii_of_nat (48 + Z.to_nat (n mod 10))) text in
  match fuel with
  | O => text
  | S fuel => if (n <? 10)%Z then text else decimal fuel (n / 10) text
  end.

(** The text of a Number that is a whole number below 2^53; other
    Numbers are not among the examples. *)
Definition integer_text (n : JSNumber.number) : string :=
  match n with
  | S754_zero _ => "0"
  | S754_finite s m e =>
      ((if s then "-" else "")
       ++ decimal 16 (Z.shiftl (Z.pos m) e) "")%string
  | _ => "NaN"
  end.

Definition display (id : Z) (label : option string) (x y width height : Z)
  : Display.Display :=
  {| Display.id := JSNumber.of_Z id; Display.label := label;
     Display.workArea_x := JSNumber.of_Z x;
     Display.workArea_y := JSNumber.of_Z y;
     Display.workArea_width := JSNumber.of_Z width;
     Display.workArea_height := JSNumber.of_Z height |}.

(** A display labelled [A] and, to its right, one without a label,
    which is the primary. *)
Definition displays : list Display.Display :=
  [ display 1 (Some "A") 0 0 1920 1080;
    display 2 None 1920 0 1280 1024 ].

Definition detected : Desktop.DesktopClass :=
  match Displays.init integer_text Displays.new displays (JSNumber.of_Z 2) with
  | Returned this => this
  | Thrown _ => Displays.new
  end.

(** The options of a window of the given type, with [debug] set and a
    [raw] that asks for no frame. *)
Definition window (type : option string) : WindowSpecs.options :=
  {| WindowSpecs.type := type;
     WindowSpecs.debug := Some (WindowSpecs.VBool true);
     WindowSpecs.raw :=
       Some (<["frame" := WindowSpecs.VBool false]>
               (<["show" := WindowSpecs.VBool false]> ∅));
     WindowSpecs.after := None;
     WindowSpecs.width := None; WindowSpecs.height := None;
     WindowSpecs.x := None; WindowSpecs.y := None;
     WindowSpecs.padding := None;
     WindowSpecs.screen := NoPreference;
     WindowSpecs.src := Some "index.html";
     WindowSpecs.others := ∅ |}.

(** What [createWindow] gives the window, when it returns. *)
Definition created (type : option string) : WindowSpecs.windowSpecs :=
  match WindowSpecs.createWindow detected (window type) with
  | Returned c => c
  | Thrown _ =>
      {| WindowSpecs.placed := Sample.placed 0 0 0 0;
         WindowSpecs.window_raw := None;
         WindowSpecs.window_after := None;
         WindowSpecs.window_src := "" |}
  end.

End Fixture.

(** * Properties *)

(** ** Splitting strings *)

Section SplitFacts.

Import JSString.

Lemma split_nonempty sep s : split sep s <> [].
Proof.
  destruct s as [|c rest]; simpl; [discriminate|].
  destruct (Ascii.eqb c sep); [discriminate|].
  destruct (split sep rest); discriminate.
Qed.

Lemma split_length sep s : length (split sep s) = S (occurrences sep s).
Proof.
  induction s as [|c rest IH]; simpl; [reflexivity|].
  destruct (Ascii.eqb c sep); simpl; [now rewrite IH|].
  destruct (split sep rest) as [|p ps] eqn:E; simpl in *; [discriminate|].
  exact IH.
Qed.

Lemma split_head sep s : split sep s !! 0%nat = Some (fst (cut sep s)).
Proof.
  induction s as [|c rest IH]; simpl; [reflexivity|].
  destruct (Ascii.eqb c sep); simpl; [reflexivity|].
  destruct (cut sep rest) as [before after]; simpl in *.
  destruct (split sep rest) as [|p ps]; simpl in *; [discriminate|].
  now inversion IH.
Qed.

Lemma split_none sep s : occurrences sep s = 0%nat -> split sep s = [s].
Proof.
  induction s as [|c rest IH]; simpl; [reflexivity|].
  destruct (Ascii.eqb c sep); [discriminate|].
  intros H. now rewrite (IH H).
Qed.

(** Without a second separator the second piece is all that follows
    the first one. *)
Lemma split_second sep s :
  (occurrences sep s <= 1)%nat -> split sep s !! 1%nat = snd (cut sep s).
Proof.
  induction s as [|c rest IH]; simpl; [reflexivity|].
  destruct (Ascii.eqb c sep) eqn:E; simpl.
  - intros H. rewrite split_none by lia. reflexivity.
  - intros H. specialize (IH H).
    destruct (cut sep rest) as [before after]; simpl in *.
    pose proof (split_nonempty sep rest) as N.
    destruct (split sep rest) as [|p ps]; simpl in *; [congruence|].
    exact IH.
Qed.

Lemma cut_after sep s :
  (0 < occurrences sep s)%nat -> exists rest, snd (cut sep s) = Some rest.
Proof.
  induction s as [|c rest IH]; simpl; [lia|].
  destruct (Ascii.eqb c sep); simpl; [eauto|].
  intros H. destruct (IH H) as [r Hr].
  destruct (cut sep rest); simpl in *. eauto.
Qed.

(** [pieces.length === 2] is "exactly one separator", and the two
    pieces are then the text before and after it. *)
Lemma split_pair sep s :
  occurrences sep s = 1%nat ->
  split sep s = [fst (cut sep s); or_empty (snd (cut sep s))].
Proof.
  intros H.
  pose proof (split_length sep s) as L. rewrite H in L.
  pose proof (split_head sep s) as H0.
  pose proof (split_second sep s) as H1. rewrite H in H1.
  specialize (H1 (le_n 1)).
  destruct (cut_after sep s) as [r Hr]; [lia|].
  destruct (split sep s) as [|p [|q [|? ?]]]; simpl in *; try discriminate.
  rewrite Hr in *. simpl. congruence.
Qed.

Lemma split_not_pair sep s :
  occurrences sep s <> 1%nat -> length (split sep s) <> 2%nat.
Proof. rewrite split_length. lia. Qed.

End SplitFacts.

(** ** The query of a dispatched path *)

Section QueryFacts.

Import JSString.

(** An entry is recorded by the code as the document says, but for
    the key [__proto__], which the code drops. *)
Lemma entry_agrees (query kept : gmap string string) (entry : string) :
  query = base.delete "__proto__" kept ->
  match split "=" entry with
  | [arg; value] => assign query arg value
  | _ => query
  end
  = base.delete "__proto__"
      (if (occurrences "=" entry =? 1)%nat
       then let '(arg, value) := cut "=" entry in
            <[arg := or_empty value]> kept
       else kept).
Proof.
  intros ->.
  destruct (Nat.eqb_spec (occurrences "=" entry) 1) as [E|E].
  - rewrite (split_pair _ _ E). destruct (cut "=" entry) as [arg value].
    cbn [fst snd]. unfold assign.
    destruct (String.eqb_spec arg "__proto__") as [->|N].
    + now rewrite delete_insert_eq.
    + rewrite delete_insert_ne; [reflexivity|]. intros X. now apply N.
  - pose proof (split_not_pair _ _ E) as L.
    destruct (split "=" entry) as [|p [|q [|? ?]]]; simpl in L;
      try reflexivity. congruence.
Qed.

Lemma fold_agrees (entries : list string) (query kept : gmap string string) :
  query = base.delete "__proto__" kept ->
  fold_left
    (fun query argWithValue =>
       match split "=" argWithValue with
       | [arg; value] => assign query arg value
       | _ => query
       end) entries query
  = base.delete "__proto__"
      (fold_left
         (fun query entry =>
            if (occurrences "=" entry =? 1)%nat
            then let '(arg, value) := cut "=" entry in
                 <[arg := or_empty value]> query
            else query) entries kept).
Proof.
  revert query kept. induction entries as [|e es IH]; intros query kept H;
    simpl; [exact H|].
  apply IH. now apply entry_agrees.
Qed.

(** With at most one [?] in the path, [#getRouteAndParams] gives the
    route of the document's split, and its query without the key
    [__proto__]. *)
Lemma getRouteAndParams_single_mark (path : string) :
  (occurrences "?" path <= 1)%nat ->
  API.getRouteAndParams path
  = (fst (Design.route_and_query path),
     base.delete "__proto__" (snd (Design.route_and_query path))).
Proof.
  intros H. unfold API.getRouteAndParams, Design.route_and_query,
    Design.query_of, at_index.
  rewrite split_head, (split_second _ _ H).
  destruct (cut "?" path) as [route rest]; simpl.
  f_equal. apply fold_agrees. now rewrite delete_empty.
Qed.

(** The two paths the document gives. *)
Lemma getRouteAndParams_examples :
  API.getRouteAndParams "/a?x=1&y=2"
  = ("/a", <["y" := "2"]> {["x" := "1"]})
  /\ API.getRouteAndParams "/a?bad&x=1" = ("/a", {["x" := "1"]}).
Proof. split; vm_compute; reflexivity. Qed.

(** C8, at a path with a second question mark: the code reads the
    query from the text between the first and the second [?] and drops
    what follows, where the document parses everything after the first
    [?]. For ["/a?x=1?y"] the code has [x] bound to ["1"], the document
    [x] bound to ["1?y"]. *)
Theorem getRouteAndParams_second_mark :
  API.getRouteAndParams "/a?x=1?y" = ("/a", {["x" := "1"]})
  /\ Design.route_and_query "/a?x=1?y" = ("/a", {["x" := "1?y"]})
  /\ API.getRouteAndParams "/a?x=1?y" <> Design.route_and_query "/a?x=1?y".
Proof.
  split; [vm_compute; reflexivity|].
  split; [vm_compute; reflexivity|].
  vm_compute. intros H. discriminate H.
Qed.

End QueryFacts.

(** ** The middleware chain *)

Section ChainFacts.

Context {V W : Type} (undefined notAFunction : V).
Context {pattern : Type}.
Context (path_match : pattern -> string -> option (gmap string string)).

Implicit Types (this : @API.APIClass V W pattern).
Implicit Types (c : @API.chain V).
Implicit Types (s : @API.script V).

Local Abbreviation run := (API.run notAFunction).
Local Abbreviation completes := (API.completes notAFunction).
Local Abbreviation for_await := (@API.for_await V W notAFunction).

Lemma run_false s c : run false s c = (completes false s, c).
Proof. destruct s; reflexivity. Qed.

Lemma run_true s c :
  run true s c
  = (completes true s,
     match last (API.responses s) with
     | Some v => API.broken c v
     | None => c
     end).
Proof.
  revert c. induction s as [v|e|v rest IH]; intros c; simpl API.run;
    simpl API.completes; simpl API.responses; try reflexivity.
  rewrite IH, last_cons. f_equal.
  now destruct (last (API.responses rest)).
Qed.

(** Once the break variables are set the loop calls nothing more. *)
Lemma for_await_broken req tc rest c :
  API.breakpoint c = true ->
  for_await req tc rest c
  = (Returned (match rest with
               | [] => API.result c
               | _ => API.breakValue c
               end), c).
Proof. intros H. destruct rest; simpl; [reflexivity|]. now rewrite H. Qed.

Lemma for_await_calls req tc rest c out c' :
  for_await req tc rest c = (out, c') ->
  API.breakpoint c = false ->
  (forall j, In j (API.called c) -> (j < API.cursor c)%nat) ->
  (forall j, In j (API.called c') -> (j < API.cursor c + length rest)%nat)
  /\ forall i mw,
      In i (API.called c') -> (API.cursor c <= i)%nat ->
      rest !! (i - API.cursor c)%nat = Some mw ->
      (forall e,
          completes true (mw (API.chain_arguments req tc i)) = Thrown e ->
          out = Thrown e)
      /\ (forall r v,
             completes true (mw (API.chain_arguments req tc i)) = Returned r ->
             last (API.responses (mw (API.chain_arguments req tc i))) = Some v ->
             (S (i - API.cursor c) < length rest)%nat ->
             out = Returned v
             /\ forall j, In j (API.called c') -> (j <= i)%nat).
Proof.
  revert c out c'. induction rest as [|mw0 rest' IH]; intros c out c' H B Inv.
  - simpl in H. injection H as <- <-. split.
    + intros j Hj. specialize (Inv j Hj). lia.
    + intros i mw Hi Hle. specialize (Inv i Hi). lia.
  - simpl in H. rewrite B in H. rewrite run_true in H.
    set (k := API.cursor c) in *.
    set (s0 := mw0 (API.chain_arguments req tc k)) in *.
    set (c1 := {| API.cursor := S k; API.breakpoint := API.breakpoint c;
                  API.breakValue := API.breakValue c;
                  API.result := API.result c;
                  API.called := API.called c ++ [k] |}) in *.
    assert (Inv1 : forall j, In j (API.called c1) -> (j <= k)%nat).
    { intros j Hj. simpl in Hj. apply in_app_or in Hj.
      destruct Hj as [Hj|[<-|[]]]; [|lia]. specialize (Inv j Hj). lia. }
    assert (K : In k (API.called c1)).
    { simpl. apply in_or_app. right. now left. }
    destruct (completes true s0) as [r|e] eqn:E.
    + destruct (last (API.responses s0)) as [v0|] eqn:L.
      * rewrite for_await_broken in H by reflexivity.
        injection H as <- <-. simpl API.called. split.
        -- intros j Hj. specialize (Inv1 j Hj). simpl. lia.
        -- intros i mw Hi Hle Hmw.
           assert (i = k) as -> by (specialize (Inv1 i Hi); lia).
           rewrite Nat.sub_diag in *. simpl in Hmw.
           injection Hmw as <-. fold s0. split.
           ++ intros e He. congruence.
           ++ intros r' v Hr Hv Hlen. rewrite L in Hv. injection Hv as <-.
              split; [|exact Inv1].
              destruct rest'; [simpl in Hlen; lia|reflexivity].
      * specialize (IH _ _ _ H eq_refl).
        destruct IH as [IH1 IH2].
        { intros j Hj. specialize (Inv1 j Hj). simpl. lia. }
        simpl API.cursor in *. split.
        -- intros j Hj. specialize (IH1 j Hj). simpl. lia.
        -- intros i mw Hi Hle Hmw.
           destruct (Nat.eq_dec i k) as [->|Hne].
           ++ rewrite Nat.sub_diag in *. simpl in Hmw.
              injection Hmw as <-. fold s0. split.
              ** intros e He. congruence.
              ** intros r' v Hr Hv. rewrite L in Hv. discriminate Hv.
           ++ replace (i - k)%nat with (S (i - S k)) in * by lia.
              simpl in Hmw.
              destruct (IH2 i mw Hi ltac:(lia) Hmw) as [T R].
              split; [exact T|].
              intros r' v Hr Hv Hlen. apply (R r' v Hr Hv).
              simpl in Hlen. lia.
    + assert (Hc : forall j, In j (API.called c') -> (j <= k)%nat).
      { injection H as <- <-. intros j Hj.
        destruct (last (API.responses s0)); apply (Inv1 j Hj). }
      injection H as <- _. split.
      * intros j Hj. specialize (Hc j Hj). simpl. lia.
      * intros i mw Hi Hle Hmw.
        assert (i = k) as -> by (specialize (Hc i Hi); lia).
        rewrite Nat.sub_diag in *. simpl in Hmw.
        injection Hmw as <-. fold s0. split.
        -- intros e' He. congruence.
        -- intros r' v Hr. congruence.
Qed.

Lemma promise_direct this (found : API.matched) (values : V) :
  API.middleware (API.routes_ this) = [] ->
  let o := completes false
             (API.callback (API.element found)
                (API.direct_arguments (API.request_of found values))) in
  API.promise undefined notAFunction this found values
  = {| API.settled := Returned (API.value_of o);
       API.console := API.logged o; API.calls := [0%nat] |}.
Proof.
  intros M o. unfold API.promise, API.try_block. rewrite M, run_false.
  fold o. now destruct o.
Qed.

Lemma promise_chain this (found : API.matched) (values : V) o c' :
  API.middleware (API.routes_ this) <> [] ->
  for_await (API.request_of found values)
    (API.traceCall_of this (API.callback (API.element found)))
    (API.traceCall_of this (API.callback (API.element found)))
    (API.initial undefined) = (o, c') ->
  API.promise undefined notAFunction this found values
  = {| API.settled := Returned (API.value_of o);
       API.console := API.logged o; API.calls := API.called c' |}.
Proof.
  intros M F. unfold API.promise, API.try_block.
  unfold API.traceCall_of in F.
  destruct (API.middleware (API.routes_ this)) as [|m0 ms]; [congruence|].
  rewrite F. now destruct o.
Qed.

Lemma promise_settles this (found : API.matched) (values : V) :
  exists v,
    API.settled (API.promise undefined notAFunction this found values)
    = Returned v.
Proof.
  unfold API.promise.
  destruct (API.try_block _ _ _ _ _) as [[v|e] c]; simpl; eauto.
Qed.

Lemma arguments_at_chain this req lastCallback i :
  API.middleware (API.routes_ this) <> [] ->
  API.arguments_at this req lastCallback i
  = API.chain_arguments req (API.traceCall_of this lastCallback) i.
Proof.
  intros M. unfold API.arguments_at.
  destruct (API.middleware (API.routes_ this)); congruence.
Qed.

(** C1, as amended: when a middleware the dispatch calls passes a value
    to its respond callback and then returns, the loop calls no later
    middleware and not the handler, and the dispatch settles with the
    value it passed last. *)
Theorem respond_short_circuits this (found : API.matched) (values : V)
    (i : nat) (mw : API.callable) (v r : V) :
  let out := API.promise undefined notAFunction this found values in
  let req := API.request_of found values in
  let lastCallback := API.callback (API.element found) in
  API.middleware (API.routes_ this) !! i = Some mw ->
  In i (API.calls out) ->
  last (API.responses (mw (API.arguments_at this req lastCallback i)))
  = Some v ->
  completes true (mw (API.arguments_at this req lastCallback i))
  = Returned r ->
  API.settled out = Returned v
  /\ (forall j, In j (API.calls out) -> (j <= i)%nat)
  /\ API.console out = [].
Proof.
  intros out req lastCallback Hmw Hi Hv Hr.
  assert (M : API.middleware (API.routes_ this) <> []).
  { intros E. rewrite E in Hmw. destruct i; discriminate Hmw. }
  rewrite arguments_at_chain in Hv, Hr by exact M.
  set (tc := API.traceCall_of this lastCallback) in *.
  destruct (for_await req tc tc (API.initial undefined)) as [o c'] eqn:F.
  subst out. rewrite (promise_chain _ _ _ _ _ M F) in *. simpl in *.
  destruct (for_await_calls _ _ _ _ _ _ F eq_refl) as [_ P].
  { intros j []. }
  assert (Htc : tc !! (i - 0)%nat = Some mw).
  { rewrite Nat.sub_0_r. unfold tc, API.traceCall_of.
    now apply lookup_app_l_Some. }
  destruct (P i mw Hi (Nat.le_0_l i) Htc) as [_ R].
  destruct (R r v Hr Hv) as [Ho Hc].
  { rewrite Nat.sub_0_r. unfold tc, API.traceCall_of.
    rewrite length_app. simpl length.
    apply lookup_lt_Some in Hmw. lia. }
  subst o. simpl. auto.
Qed.

(** C6: the promise of a dispatch never settles by throwing; when a
    middleware or the handler it calls throws, the promise returns what
    was thrown, after writing it to the console. A dispatch for a
    window returns as well. *)
Theorem promise_returns_what_is_thrown this (found : API.matched)
    (values : V) :
  let out := API.promise undefined notAFunction this found values in
  let req := API.request_of found values in
  let lastCallback := API.callback (API.element found) in
  (exists v, API.settled out = Returned v)
  /\ (forall i f e,
         API.traceCall_of this lastCallback !! i = Some f ->
         In i (API.calls out) ->
         completes (API.arg_res (API.arguments_at this req lastCallback i))
           (f (API.arguments_at this req lastCallback i)) = Thrown e ->
         API.settled out = Returned e /\ API.console out = [e])
  /\ (forall (win : @Window.Window V W pattern) rq m values',
         exists v,
           API.settled
             (Window.apply undefined notAFunction path_match win rq m values')
           = Returned v).
Proof.
  intros out req lastCallback.
  split; [apply promise_settles|]. split.
  - intros i f e Hf Hi He. subst out.
    destruct (API.middleware (API.routes_ this)) as [|m0 ms] eqn:M.
    + rewrite promise_direct in * by exact M. simpl in Hi.
      destruct Hi as [<-|[]].
      unfold API.arguments_at in He. rewrite M in He.
      unfold API.traceCall_of in Hf. rewrite M in Hf.
      injection Hf as <-. simpl in He. fold req lastCallback.
      rewrite He. auto.
    + assert (M' : API.middleware (API.routes_ this) <> [])
        by (rewrite M; discriminate).
      rewrite arguments_at_chain in He by exact M'.
      set (tc := API.traceCall_of this lastCallback) in *.
      destruct (for_await req tc tc (API.initial undefined)) as [o c'] eqn:F.
      rewrite (promise_chain _ _ _ _ _ M' F) in *. simpl in Hi |- *.
      destruct (for_await_calls _ _ _ _ _ _ F eq_refl) as [_ P].
      { intros j []. }
      rewrite <- (Nat.sub_0_r i) in Hf at 1.
      destruct (P i f Hi (Nat.le_0_l i) Hf) as [T _].
      simpl in He. rewrite (T e He). auto.
  - intros win rq m values'. unfold Window.apply.
    destruct (API.getRoute _ _ _ _ _); [apply promise_settles|].
    destruct (API.getRoute _ _ _ _ _); [apply promise_settles|].
    simpl. eauto.
Qed.

End ChainFacts.

(** C1, as stated, at a middleware that answers ["v"] and then throws
    ["boom"]: it is called, it passes ["v"] to its respond callback,
    and the dispatch settles with ["boom"]. *)
Lemma respond_then_throw :
  let this := Sample.table_of [Sample.answers_then_throws] ["/"] in
  let out := Sample.promise this "/" in
  let req := API.request_of (Sample.found this "/") "" in
  Sample.getRoute this "/" = Some (Sample.found this "/")
  /\ API.middleware (API.routes_ this) !! 0%nat
     = Some Sample.answers_then_throws
  /\ In 0%nat (API.calls out)
  /\ In "v" (API.responses
               (Sample.answers_then_throws
                  (API.arguments_at this req (Sample.handler "/") 0)))
  /\ API.settled out = Returned "boom"
  /\ ~ API.short_circuits "undefined" "TypeError" this
         (Sample.found this "/") "".
Proof.
  cbv zeta.
  repeat split; try (vm_compute; reflexivity); try (vm_compute; auto; fail).
  intros H.
  destruct (H 0%nat Sample.answers_then_throws "v") as [S _];
    try (vm_compute; auto; fail).
  vm_compute in S. discriminate S.
Qed.

(** A middleware that answers ["v"] and returns, before a second
    middleware and the handler: only position 0 is called and the
    dispatch settles with ["v"]. *)
Lemma respond_short_circuits_witness :
  let this := Sample.table_of [Sample.answers; Sample.passes] ["/"] in
  let out := Sample.promise this "/" in
  API.settled out = Returned "v"
  /\ (forall j, In j (API.calls out) -> (j <= 0)%nat)
  /\ API.console out = [].
Proof.
  cbv zeta.
  apply (respond_short_circuits "undefined" "TypeError"
           (Sample.table_of [Sample.answers; Sample.passes] ["/"])
           (Sample.found
              (Sample.table_of [Sample.answers; Sample.passes] ["/"]) "/")
           "" 0 Sample.answers "v" "m1").
  - reflexivity.
  - vm_compute. auto.
  - reflexivity.
  - reflexivity.
Defined.

(** A second middleware that throws ["boom"]: the dispatch returns
    ["boom"] and has written it to the console. *)
Lemma promise_returns_what_is_thrown_witness :
  let out := Sample.promise
               (Sample.table_of [Sample.passes; Sample.throwing] ["/"]) "/" in
  API.settled out = Returned "boom" /\ API.console out = ["boom"].
Proof.
  cbv zeta.
  apply (proj1 (proj2 (promise_returns_what_is_thrown "undefined" "TypeError"
                  RouteParser.match_path
                  (Sample.table_of [Sample.passes; Sample.throwing] ["/"])
                  (Sample.found
                     (Sample.table_of [Sample.passes; Sample.throwing] ["/"])
                     "/") "")) 1%nat Sample.throwing "boom").
  - reflexivity.
  - vm_compute. auto.
  - reflexivity.
Defined.

(** ** Registration and lookup of routes *)

Section RouteFacts.

Context {V W : Type} (undefined notAFunction : V).
Context {pattern : Type}.
Context (routeParser : string -> completion pattern string).
Context (path_match : pattern -> string -> option (gmap string string)).

Implicit Types (this : @API.APIClass V W pattern).
Implicit Types (e : @API.routeElement V W pattern).

Local Abbreviation matches := (API.matches path_match).

Lemma exists_fold (elements : list (@API.routeElement V W pattern))
    (route : string) (b : bool) :
  fold_left
    (fun exists_ element =>
       match path_match (API.path element) route with
       | Some _ => true
       | None => exists_
       end) elements b
  = b || existsb (fun e => matches e route) elements.
Proof.
  revert b. induction elements as [|e es IH]; intros b; simpl.
  - now rewrite orb_false_r.
  - rewrite IH. unfold API.matches.
    destruct (path_match (API.path e) route); simpl.
    + now rewrite orb_true_r.
    + reflexivity.
Qed.

Lemma throwErrorIfExists_spec this route m :
  API.throwErrorIfExists path_match this route m
  = if existsb (fun e => matches e route) (API.routes_of this m)
    then Thrown (API.already_exists m route) else Returned tt.
Proof.
  unfold API.throwErrorIfExists. now rewrite exists_fold.
Qed.

Lemma routes_of_push this m m' el :
  API.routes_of (API.push this m el) m'
  = match m, m' with
    | API.GET, API.GET | API.POST, API.POST => API.routes_of this m' ++ [el]
    | _, _ => API.routes_of this m'
    end.
Proof. now destruct m, m'. Qed.

(** A successful registration puts the route last in its method's
    list and leaves the other list alone. *)
Lemma register_appends this this' m route cb :
  API.register routeParser path_match m this route cb = (this', Returned tt) ->
  exists compiled,
    routeParser route = Returned compiled
    /\ API.routes_of this' m
       = API.routes_of this m ++ [{| API.path := compiled; API.callback := cb |}]
    /\ API.middleware (API.routes_ this') = API.middleware (API.routes_ this).
Proof.
  unfold API.register.
  destruct (API.throwErrorIfExists path_match this route m); [|discriminate].
  destruct (routeParser route) as [compiled|]; [|discriminate].
  intros H. injection H as <-. exists compiled. split; [reflexivity|].
  rewrite routes_of_push. now destruct m.
Qed.

(** The loop of [getRoute] stops at the first element that matches. *)
Lemma scan_first (elements : list (@API.routeElement V W pattern))
    (i : nat) (route : string) :
  match API.scan path_match elements i route with
  | Some (k, e, matchedRoute) =>
      (i <= k)%nat
      /\ elements !! (k - i)%nat = Some e
      /\ path_match (API.path e) route = Some matchedRoute
      /\ forall j e', (j < k - i)%nat -> elements !! j = Some e' ->
                      path_match (API.path e') route = None
  | None =>
      forall j e', elements !! j = Some e' ->
                   path_match (API.path e') route = None
  end.
Proof.
  revert i. induction elements as [|e es IH]; intros i; simpl.
  - intros j e' H. destruct j; discriminate H.
  - destruct (path_match (API.path e) route) as [mr|] eqn:E.
    + rewrite Nat.sub_diag. repeat split; try reflexivity; try assumption.
      intros j e' Hj. lia.
    + specialize (IH (S i)).
      destruct (API.scan path_match es (S i) route) as [[[k e1] mr]|].
      * destruct IH as (Hk & Hl & Hm & Hn).
        replace (k - i)%nat with (S (k - S i)) by lia.
        repeat split; try assumption; try lia.
        intros [|j] e' Hj He'; simpl in He'.
        -- now inversion He'; subst.
        -- apply (Hn j e'); [lia|assumption].
      * intros [|j] e' He'; simpl in He'.
        -- now inversion He'; subst.
        -- now apply (IH j e').
Qed.

Lemma getRoute_spec this rq m (w : W) :
  API.getRoute path_match this rq m w
  = match API.scan path_match (API.routes_of this m) 0
            (fst (API.getRouteAndParams rq)) with
    | Some (i, e, matchedRoute) =>
        Some {| API.index := i; API.element := e;
                API.matchedRoute := matchedRoute;
                API.route_ := fst (API.getRouteAndParams rq);
                API.query_ := snd (API.getRouteAndParams rq);
                API.routeWithQueryParams_ := rq;
                API.method_ := m; API.callerWindow := w |}
    | None => None
    end.
Proof.
  unfold API.getRoute. now destruct (API.getRouteAndParams rq).
Qed.

(** What [getRoute] answers: the first match of the scan, or nothing
    when nothing matches. *)
Lemma getRoute_scan this rq m (w : W) :
  match API.getRoute path_match this rq m w with
  | Some found =>
      API.routes_of this m !! API.index found = Some (API.element found)
      /\ path_match (API.path (API.element found))
           (fst (API.getRouteAndParams rq))
         = Some (API.matchedRoute found)
      /\ (forall j e, (j < API.index found)%nat ->
                      API.routes_of this m !! j = Some e ->
                      path_match (API.path e) (fst (API.getRouteAndParams rq))
                      = None)
  | None =>
      forall j e, API.routes_of this m !! j = Some e ->
                  path_match (API.path e) (fst (API.getRouteAndParams rq))
                  = None
  end.
Proof.
  rewrite getRoute_spec.
  pose proof (scan_first (API.routes_of this m) 0
                (fst (API.getRouteAndParams rq))) as S.
  destruct (API.scan path_match (API.routes_of this m) 0
              (fst (API.getRouteAndParams rq)))
    as [[[i e] mr]|]; [|exact S].
  destruct S as (_ & Hl & Hm & Hn). rewrite Nat.sub_0_r in Hl, Hn.
  simpl. repeat split; assumption.
Qed.

Local Abbreviation value_of := API.value_of.

(** C10: [getRoute] answers with the first element of the method's
    list, in the order of registration, whose pattern matches the
    route; no element before it matches, and when it answers nothing
    no element matches. Registration puts a route last in the list,
    and the handler the promise runs is that element's: with no
    middleware the dispatch settles with what it returns or throws. *)
Theorem getRoute_first_match this rq m (w : W) :
  let route := fst (API.getRouteAndParams rq) in
  match API.getRoute path_match this rq m w with
  | Some found =>
      API.routes_of this m !! API.index found = Some (API.element found)
      /\ path_match (API.path (API.element found)) route
         = Some (API.matchedRoute found)
      /\ (forall j e, (j < API.index found)%nat ->
                      API.routes_of this m !! j = Some e ->
                      path_match (API.path e) route = None)
      /\ (forall values,
             API.middleware (API.routes_ this) = [] ->
             API.settled (API.promise undefined notAFunction this found values)
             = Returned
                 (value_of
                    (API.completes notAFunction false
                       (API.callback (API.element found)
                          (API.direct_arguments
                             (API.request_of found values))))))
  | None =>
      forall j e, API.routes_of this m !! j = Some e ->
                  path_match (API.path e) route = None
  end
  /\ (forall this' route' cb,
         API.register routeParser path_match m this route' cb
         = (this', Returned tt) ->
         exists compiled,
           API.routes_of this' m
           = API.routes_of this m
               ++ [{| API.path := compiled; API.callback := cb |}]).
Proof.
  intros route. split.
  - pose proof (getRoute_scan this rq m w) as S. fold route in S.
    destruct (API.getRoute path_match this rq m w) as [found|]; [|exact S].
    destruct S as (Hl & Hm & Hn). repeat split; try assumption.
    intros values Hmw.
    now rewrite (promise_direct undefined notAFunction _ _ _ Hmw).
  - intros this' route' cb H.
    destruct (register_appends _ _ _ _ _ H) as (compiled & _ & Hr & _).
    now exists compiled.
Qed.

(** [getRoute] answers exactly when some element matches. *)
Lemma getRoute_some this rq m (w : W) :
  (exists j e, API.routes_of this m !! j = Some e
               /\ matches e (fst (API.getRouteAndParams rq)) = true)
  <-> exists found, API.getRoute path_match this rq m w = Some found.
Proof.
  pose proof (getRoute_scan this rq m w) as H.
  split.
  - intros (j & e & Hj & He).
    destruct (API.getRoute path_match this rq m w) as [found|]; [eauto|].
    unfold API.matches in He. now rewrite (H j e Hj) in He.
  - intros [found Hf]. rewrite Hf in H. destruct H as (Hl & Hm & _).
    exists (API.index found), (API.element found). split; [assumption|].
    unfold API.matches. now rewrite Hm.
Qed.

(** C9: a dispatch for a window runs the promise of the window's own
    table when a route of that table matches, whatever the table of
    the parent holds; it runs the promise of the parent's table when no
    route of the window matches and one of the parent does; and it
    returns [undefined], calling nothing, when neither table has a
    match. *)
Theorem apply_window_then_parent (this : @Window.Window V W pattern)
    (rq : string) (m : API.method) (values : V) :
  let route := fst (API.getRouteAndParams rq) in
  let own := API.routes_of (Window.API this) m in
  let global := API.routes_of (Window.parent_API this) m in
  ((exists j e, own !! j = Some e /\ matches e route = true) ->
   exists found,
     API.getRoute path_match (Window.API this) rq m (Window.window this)
     = Some found
     /\ Window.apply undefined notAFunction path_match this rq m values
        = API.promise undefined notAFunction (Window.API this) found values)
  /\ ((forall j e, own !! j = Some e -> matches e route = false) ->
      (exists j e, global !! j = Some e /\ matches e route = true) ->
      exists found,
        API.getRoute path_match (Window.parent_API this) rq m
          (Window.window this) = Some found
        /\ Window.apply undefined notAFunction path_match this rq m values
           = API.promise undefined notAFunction (Window.parent_API this)
               found values)
  /\ ((forall j e, own !! j = Some e -> matches e route = false) ->
      (forall j e, global !! j = Some e -> matches e route = false) ->
      Window.apply undefined notAFunction path_match this rq m values
      = {| API.settled := Returned undefined;
           API.console := []; API.calls := [] |}).
Proof.
  intros route own global.
  assert (none : forall table,
             (forall j e, API.routes_of table m !! j = Some e ->
                          matches e route = false) ->
             API.getRoute path_match table rq m (Window.window this) = None).
  { intros table H.
    destruct (API.getRoute path_match table rq m (Window.window this))
      as [found|] eqn:E; [|reflexivity].
    destruct (proj2 (getRoute_some table rq m (Window.window this)))
      as (j & e & Hj & He); [eauto|].
    fold route in He. rewrite (H j e Hj) in He. discriminate He. }
  repeat split.
  - intros H.
    destruct (proj1 (getRoute_some _ rq m (Window.window this)) H)
      as [found Hf].
    exists found. split; [assumption|].
    unfold Window.apply. now rewrite Hf.
  - intros Hown H.
    destruct (proj1 (getRoute_some _ rq m (Window.window this)) H)
      as [found Hf].
    exists found. split; [assumption|].
    unfold Window.apply. now rewrite (none _ Hown), Hf.
  - intros Hown Hglobal. unfold Window.apply.
    now rewrite (none _ Hown), (none _ Hglobal).
Qed.

End RouteFacts.

(** ** Duplicate routes, with the patterns of the design document *)


Section DuplicateFacts.

Context {V W : Type}.

Implicit Types (this : @API.APIClass V W RouteParser.RoutePattern).
Implicit Types (cb h : @API.callable V W).

Local Abbreviation register :=
  (@API.register V W _ RouteParser.compile RouteParser.match_path).
Local Abbreviation get :=
  (@API.get V W _ RouteParser.compile RouteParser.match_path).



End DuplicateFacts.


(** The patterns of the design document on its own examples. *)
Lemma match_path_examples :
  (exists p, RouteParser.compile "/user/:id" = Returned p
             /\ RouteParser.match_path p "/user/42" = Some {["id" := "42"]}
             /\ RouteParser.match_path p "/user/42/extra" = None)
  /\ (exists p, RouteParser.compile "/user/*" = Returned p
                /\ RouteParser.match_path p "/user/42/extra" = Some ∅)
  /\ (exists p, RouteParser.compile "/p*" = Returned p
                /\ RouteParser.match_path p "/ping" = Some ∅
                /\ RouteParser.match_path p "/p*" = Some ∅
                /\ RouteParser.match_path p "/q" = None).
Proof.
  repeat split; eexists; repeat split; vm_compute; reflexivity.
Qed.


(** An earlier route wins: [/user/42] registered before [/user/:id]
    answers the path [/user/42], and [/user/:id] answers [/user/7]. *)
Lemma first_registered_wins :
  let this := Sample.table_of [] ["/user/42"; "/user/:id"] in
  API.settled (Sample.promise this "/user/42") = Returned "/user/42"
  /\ API.index (Sample.found this "/user/42") = 0%nat
  /\ API.settled (Sample.promise this "/user/7") = Returned "/user/:id"
  /\ API.index (Sample.found this "/user/7") = 1%nat.
Proof. cbv zeta. repeat split; vm_compute; reflexivity. Qed.

(** ** Choosing a display *)

Section ScreenFacts.

Import Desktop.

Implicit Types (this : DesktopClass).

Lemma head_filter_some {A} (P : A -> bool) (l : list A) (x : A) :
  head (List.filter P l) = Some x -> In x l /\ P x = true.
Proof.
  induction l as [|a l IH]; simpl; [discriminate|].
  destruct (P a) eqn:E; simpl.
  - intros H. injection H as <-. auto.
  - intros H. destruct (IH H). auto.
Qed.

Lemma head_filter_none {A} (P : A -> bool) (l : list A) :
  head (List.filter P l) = None -> forall x, In x l -> P x = false.
Proof.
  induction l as [|a l IH]; simpl; [intros _ x []|].
  destruct (P a) eqn:E; simpl; [discriminate|].
  intros H x [<-|Hx]; auto.
Qed.

Lemma existsb_eqb (x : string) (l : list string) :
  existsb (String.eqb x) l = true <-> In x l.
Proof.
  rewrite existsb_exists. split.
  - intros (y & Hy & E). apply String.eqb_eq in E. now subst.
  - intros H. exists x. split; [assumption|apply String.eqb_refl].
Qed.

(** What [#getScreenName] answers for a list that is not itself the
    key of a display. *)
Lemma getScreenName_list this (l : list string) :
  hasInit this = true ->
  unknown this (Names l) ->
  getScreenName this (Names l)
  = Returned
      match
        match List.filter (fun e => negb (is_side e)) l with
        | [] => None
        | _ =>
            head (List.filter
                    (fun e =>
                       existsb (String.eqb e)
                         (List.filter (fun e => negb (is_side e)) l))
                    (screensOrder this))
        end
      with
      | Some (String c rest) => Some (String c rest)
      | _ =>
          head (if from_right l then rev (screensOrder this)
                else screensOrder this)
      end.
Proof.
  intros I [K1 K2]. unfold getScreenName, failSafe. rewrite I.
  cbn [negb andb orb falsy]. rewrite K1, K2. unfold from_right, first_side.
  destruct (List.filter is_side l) as [|first rest] eqn:F; simpl.
  - reflexivity.
  - destruct (String.eqb_spec first "right") as [->|Hne]; reflexivity.
Qed.

(** C4, as amended: no preference and ["primary"] give the primary
    display; the name of a display gives that display; in a list a
    named entry that is a display comes before the sides, the leftmost
    such display being chosen; otherwise the first ["left"] or
    ["right"] of the list decides, ["right"] giving the last display
    and ["left"], or neither, the first. On the displays [A], [B],
    [C] with [B] primary: nothing gives [B], ["right"] gives [C], and
    the list of ["unknown-name"] and ["left"] gives [A]. *)
Theorem getScreenName_rules :
  (forall this,
      hasInit this = true ->
      getScreenName this NoPreference = Returned (primary this)
      /\ getScreenName this (Name "primary") = Returned (primary this)
      /\ (forall s, s <> "" -> s <> "primary" ->
                    is_Some (screens this !! s) ->
                    getScreenName this (Name s) = Returned (Some s))
      /\ (forall s, s <> "" -> s <> "primary" ->
                    getScreenName this (Name s)
                    = getScreenName this (Names [s]))
      /\ (forall l n,
             unknown this (Names l) ->
             ~ In "" (screensOrder this) ->
             In n l -> is_side n = false -> In n (screensOrder this) ->
             exists r,
               getScreenName this (Names l) = Returned (Some r)
               /\ In r l /\ is_side r = false
               /\ In r (screensOrder this))
      /\ (forall l,
             unknown this (Names l) ->
             (forall n, In n l -> is_side n = false ->
                        ~ In n (screensOrder this)) ->
             getScreenName this (Names l)
             = Returned
                 (head (if from_right l then rev (screensOrder this)
                        else screensOrder this))))
  /\ getScreenName Sample.three NoPreference = Returned (Some "B")
  /\ getScreenName Sample.three (Name "right") = Returned (Some "C")
  /\ getScreenName Sample.three (Names ["unknown-name"; "left"])
     = Returned (Some "A").
Proof.
  split; [|repeat split; vm_compute; reflexivity].
  intros this I. repeat split.
  - unfold getScreenName, failSafe. now rewrite I.
  - unfold getScreenName, failSafe. now rewrite I.
  - intros s H1 H2 [scr H3]. unfold getScreenName, failSafe. rewrite I.
    simpl. destruct s as [|c s']; [congruence|].
    destruct (String.eqb_spec (String c s') "primary") as [E|_];
      [congruence|].
    simpl. now rewrite H3.
  - intros s H1 H2. unfold getScreenName, failSafe. rewrite I. simpl.
    destruct s as [|c s']; [congruence|].
    destruct (String.eqb_spec (String c s') "primary") as [E|_];
      [congruence|].
    reflexivity.
  - intros l n U E Hn Sn On. rewrite (getScreenName_list _ _ I U).
    destruct (List.filter (fun e => negb (is_side e)) l) as [|n0 ns] eqn:F.
    + exfalso. assert (H : In n (List.filter (fun e => negb (is_side e)) l)).
      { apply filter_In. now rewrite Sn. }
      now rewrite F in H.
    + rewrite <- F.
      destruct (head (List.filter
                        (fun e => existsb (String.eqb e)
                                    (List.filter (fun e => negb (is_side e)) l))
                        (screensOrder this))) as [r|] eqn:H.
      * destruct (head_filter_some _ _ _ H) as [Hr1 Hr2].
        apply existsb_eqb in Hr2. apply filter_In in Hr2.
        destruct Hr2 as [Hr2 Hr3]. apply negb_true_iff in Hr3.
        destruct r as [|c r']; [contradiction|].
        exists (String c r'). auto.
      * exfalso. pose proof (head_filter_none _ _ H n On) as N.
        assert (T : existsb (String.eqb n)
                      (List.filter (fun e => negb (is_side e)) l) = true).
        { apply existsb_eqb. apply filter_In. now rewrite Sn. }
        congruence.
  - intros l U N. rewrite (getScreenName_list _ _ I U).
    destruct (List.filter (fun e => negb (is_side e)) l) as [|n0 ns] eqn:F;
      [reflexivity|].
    rewrite <- F.
    destruct (head (List.filter
                      (fun e => existsb (String.eqb e)
                                  (List.filter (fun e => negb (is_side e)) l))
                      (screensOrder this))) as [r|] eqn:H; [|reflexivity].
    exfalso. destruct (head_filter_some _ _ _ H) as [Hr1 Hr2].
    apply existsb_eqb in Hr2. apply filter_In in Hr2.
    destruct Hr2 as [Hr2 Hr3]. apply negb_true_iff in Hr3.
    exact (N r Hr2 Hr3 Hr1).
Qed.

End ScreenFacts.

(** C4, as stated, at the list of ["right"] and ["left"] on the
    displays [A], [B], [C]: both sides appear and the last display is
    chosen, not the first. *)
Lemma right_then_left :
  Desktop.getScreenName Sample.three (Names ["right"; "left"])
  = Returned (Some "C")
  /\ Desktop.getScreenName Sample.three (Names ["left"; "right"])
     = Returned (Some "A").
Proof. split; vm_compute; reflexivity. Qed.

(** No named entry is a display and ["right"] is the first side: the
    last display is chosen. *)
Lemma getScreenName_rules_witness :
  Desktop.getScreenName Sample.three (Names ["nowhere"; "right"])
  = Returned (Some "C").
Proof.
  apply (proj2 (proj2 (proj2 (proj2 (proj2
           (proj1 getScreenName_rules Sample.three eq_refl)))))
           ["nowhere"; "right"]).
  - split; vm_compute; reflexivity.
  - intros n [<-|[<-|[]]] S; vm_compute in S; try discriminate S.
    vm_compute. intros [H|[H|[H|[]]]]; discriminate H.
Defined.

(** ** The percentage pattern *)

Section PercentFacts.

Import JSNumber Desktop.

Lemma span_digits_append (t ds r : string) :
  span_digits t = (ds, r) -> t = (ds ++ r)%string.
Proof.
  revert ds r. induction t as [|c t IH]; intros ds r; simpl.
  - now intros [= <- <-].
  - destruct (is_digit c).
    + destruct (span_digits t) as [ds' r'].
      intros [= <- <-]. simpl. now rewrite (IH ds' r' eq_refl).
    + now intros [= <- <-].
Qed.

Lemma span_digits_last (t ds r : string) :
  span_digits t = (ds, r) -> ds <> EmptyString ->
  exists pre d, ds = (pre ++ String d EmptyString)%string
                /\ is_digit d = true.
Proof.
  revert ds r. induction t as [|c t IH]; intros ds r; simpl.
  - intros [= <- <-] N. congruence.
  - destruct (is_digit c) eqn:D.
    + destruct (span_digits t) as [ds' r'] eqn:E.
      intros [= <- <-] _.
      destruct ds' as [|c' ds''].
      * exists EmptyString, c. auto.
      * destruct (IH _ _ eq_refl) as (pre & d & Hp & Hd); [discriminate|].
        exists (String c pre), d. simpl. now rewrite Hp.
    + intros [= <- <-] N. congruence.
Qed.

Lemma append_cons (x : ascii) (a b : string) :
  (String x a ++ b = String x (a ++ b))%string.
Proof. reflexivity. Qed.

Lemma append_assoc (a b c : string) :
  ((a ++ b) ++ c = a ++ (b ++ c))%string.
Proof.
  induction a as [|x a IH]; [reflexivity|].
  rewrite !append_cons. now f_equal.
Qed.

Lemma percent_here_end (t : string) :
  percent_here t = true ->
  exists pre d, t = (pre ++ String d "%")%string /\ is_digit d = true.
Proof.
  unfold percent_here. destruct (span_digits t) as [ds r] eqn:E.
  pose proof (span_digits_append _ _ _ E) as ->.
  destruct ds as [|c ds']; [discriminate|].
  destruct (span_digits_last _ _ _ E) as (pre & d & Hp & Hd); [discriminate|].
  rewrite Hp. clear E Hp. intros H. apply orb_true_iff in H.
  destruct H as [H|H].
  - apply String.eqb_eq in H. subst r. exists pre, d.
    now rewrite append_assoc.
  - destruct r as [|dot [|d1 rest]]; try discriminate.
    apply andb_true_iff in H. destruct H as [H H2].
    apply andb_true_iff in H. destruct H as [H0 H1].
    apply Ascii.eqb_eq in H0. subst dot.
    apply orb_true_iff in H2. destruct H2 as [H2|H2].
    + apply String.eqb_eq in H2. subst rest.
      exists (pre ++ String d ".")%string, d1.
      now rewrite !append_assoc.
    + destruct rest as [|d2 rest']; [discriminate|].
      apply andb_true_iff in H2. destruct H2 as [H2 H3].
      apply String.eqb_eq in H3. subst rest'.
      exists (pre ++ String d (String "." (String d1 "")))%string, d2.
      now rewrite !append_assoc.
Qed.

(** The pattern finds a match exactly in the strings that end with a
    digit and the percent sign. *)
Lemma matches_percent_iff (str : string) :
  matches_percent str = true
  <-> exists pre d, str = (pre ++ String d "%")%string /\ is_digit d = true.
Proof.
  split.
  - induction str as [|c str IH]; [discriminate|].
    simpl matches_percent. intros H. apply orb_true_iff in H.
    destruct H as [H|H].
    + now apply percent_here_end.
    + destruct (IH H) as (pre & d & -> & Hd).
      exists (String c pre), d. auto.
  - intros (pre & d & -> & Hd).
    induction pre as [|c pre IH].
    + simpl. unfold percent_here. simpl. rewrite Hd. reflexivity.
    + simpl append. simpl matches_percent. rewrite IH. apply orb_true_r.
Qed.

End PercentFacts.

(** ** Placing a window *)

Section PlacementFacts.

Import JSNumber Desktop.

Implicit Types (this : DesktopClass).

Lemma sub_NaN (b : number) : sub NaN b = NaN.
Proof. reflexivity. Qed.

Lemma gt_NaN (a : number) : gt a NaN = false.
Proof. now destruct a. Qed.

(** The comparison of "Limit size by padding" reads [width] and
    [height] off Electron's [screen] module, where they are
    [undefined]: the bound is NaN, nothing is above it, and the size
    and the position stay as they are. *)
Lemma limit_never_applies (dimension : resolved) (padding : number)
    (size : resolved) (position : number) :
  dimension = screen_width \/ dimension = screen_height ->
  limit dimension padding size position = (size, position).
Proof.
  intros [->| ->]; unfold limit, screen_width, screen_height; simpl toNumber;
    now rewrite sub_NaN, gt_NaN.
Qed.

Lemma getWindowPosition_spec this (specs : Specs.specs)
    (screenName : option string) (mainScreen : Screen.Screen) :
  hasInit this = true ->
  target this screenName = Some mainScreen ->
  getWindowPosition this specs screenName
  = match applyProp (props_width mainScreen) (Specs.width specs) with
    | Thrown e => Thrown e
    | Returned width =>
    match applyProp (props_height mainScreen) (Specs.height specs) with
    | Thrown e => Thrown e
    | Returned height =>
    match applyProp (props_x mainScreen width) (Specs.x specs) with
    | Thrown e => Thrown e
    | Returned x =>
    match applyProp (props_y mainScreen height) (Specs.y specs) with
    | Thrown e => Thrown e
    | Returned y =>
        Returned {| Placed.width := width; Placed.height := height;
                    Placed.x := add (toNumber x) (Screen.x mainScreen);
                    Placed.y := add (toNumber y) (Screen.y mainScreen) |}
    end end end end.
Proof.
  intros I T. unfold getWindowPosition, failSafe, target in *.
  rewrite I. cbn [negb andb]. rewrite T.
  destruct (applyProp (props_width mainScreen) (Specs.width specs))
    as [width|]; [|reflexivity].
  destruct (applyProp (props_height mainScreen) (Specs.height specs))
    as [height|]; [|reflexivity].
  destruct (applyProp (props_x mainScreen width) (Specs.x specs))
    as [x|]; [|reflexivity].
  destruct (applyProp (props_y mainScreen height) (Specs.y specs))
    as [y|]; [|reflexivity].
  rewrite !limit_never_applies by auto. reflexivity.
Qed.

(** As a size, a string is only ever refused with the one message. *)
Lemma size_refusal (str : string) (dimension : number) (e : string) :
  translateString str dimension true = Thrown e -> e = not_accepted.
Proof.
  unfold translateString.
  destruct (matches_percent str); [discriminate|].
  destruct (positions str); [now intros [= <-]|].
  destruct (JSString.inherited str); [now intros [= <-]|discriminate].
Qed.

Lemma applyProp_size_refusal (str_or : specValue) (dimension : number)
    (e : string) :
  applyProp (fun spec => translateString spec dimension true) str_or
  = Thrown e ->
  e = not_accepted.
Proof.
  destruct str_or as [|n|str]; simpl; try discriminate.
  destruct (translateString str dimension true) eqn:T; [discriminate|].
  intros [= <-]. exact (size_refusal _ _ _ T).
Qed.

(** What the document says of a position is what [applyProp] leaves
    in the field. *)
Lemma applyProp_position (travel : number) (value : specValue) (p : number) :
  Design.position_of travel value = Some p ->
  applyProp (fun spec => translateString spec travel false) value
  = Returned (RNumber p).
Proof.
  destruct value as [|n|str]; simpl; [discriminate|now intros [= <-]|].
  unfold translateString, positions.
  destruct (matches_percent str); [now intros [= <-]|].
  destruct (String.eqb str "center"); [now intros [= <-]|].
  destruct (String.eqb str "min"); [now intros [= <-]|].
  destruct (String.eqb str "max"); [now intros [= <-]|discriminate].
Qed.

(** C2, at a window 1200 wide on a display 1000 wide with a padding of
    20: the window keeps its width of 1200 and is centred at x = -100,
    where the limit taken against the display gives a width of 960 at
    x = 20; the limit of the code never applies. *)
Theorem oversized_window_not_limited :
  getWindowPosition Sample.single Sample.oversized (Some "A")
  = Returned (Sample.placed 1200 600 (-100) 100)
  /\ Design.limit (of_Z 1000) (of_Z 20) (RNumber (of_Z 1200)) (of_Z (-100))
     = (RNumber (of_Z 960), of_Z 20)
  /\ (forall padding size position,
         limit screen_width padding size position = (size, position)
         /\ limit screen_height padding size position = (size, position)).
Proof.
  split; [vm_compute; reflexivity|]. split; [vm_compute; reflexivity|].
  intros padding size position. split; apply limit_never_applies; auto.
Qed.

(** C3, as amended: resolving [width] or [height], a percentage string
    multiplies against the display's dimension and is cut to an
    integer, [center], [min] and [max] are refused with an error, the
    string ["full"] gives the whole dimension, and a Number passes
    through unchanged. A placement is refused with that error when its
    width or height is one of the three literals, and when it returns
    the width and the height are the resolved ones. *)
Theorem size_resolution (scr : Screen.Screen) :
  (forall str,
      matches_percent str = true ->
      applyProp (props_width scr) (SString str)
      = Returned
          (RNumber (parseInt_number
                      (mul (Screen.width scr)
                         (div (parseFloat str) (of_Z 100)))))
      /\ applyProp (props_height scr) (SString str)
         = Returned
             (RNumber (parseInt_number
                         (mul (Screen.height scr)
                            (div (parseFloat str) (of_Z 100))))))
  /\ (forall str,
         str = "center" \/ str = "min" \/ str = "max" ->
         applyProp (props_width scr) (SString str) = Thrown not_accepted
         /\ applyProp (props_height scr) (SString str) = Thrown not_accepted)
  /\ applyProp (props_width scr) (SString "full")
     = Returned (RNumber (parseInt_number (Screen.width scr)))
  /\ applyProp (props_height scr) (SString "full")
     = Returned (RNumber (parseInt_number (Screen.height scr)))
  /\ (forall n,
         applyProp (props_width scr) (SNumber n) = Returned (RNumber n)
         /\ applyProp (props_height scr) (SNumber n) = Returned (RNumber n))
  /\ (forall this specs screenName str,
         hasInit this = true ->
         target this screenName = Some scr ->
         str = "center" \/ str = "min" \/ str = "max" ->
         Specs.width specs = SString str \/ Specs.height specs = SString str ->
         getWindowPosition this specs screenName = Thrown not_accepted)
  /\ (forall this specs screenName placed,
         hasInit this = true ->
         target this screenName = Some scr ->
         getWindowPosition this specs screenName = Returned placed ->
         applyProp (props_width scr) (Specs.width specs)
         = Returned (Placed.width placed)
         /\ applyProp (props_height scr) (Specs.height specs)
            = Returned (Placed.height placed)).
Proof.
  assert (lit : forall str dimension,
             str = "center" \/ str = "min" \/ str = "max" ->
             applyProp (fun spec => translateString spec dimension true)
               (SString str) = Thrown not_accepted).
  { intros str dimension [->|[->| ->]]; reflexivity. }
  repeat split.
  - unfold props_width, translateString. simpl. now rewrite H.
  - unfold props_height, translateString. simpl. now rewrite H.
  - now apply lit.
  - now apply lit.
  - intros this specs screenName str I T L [Hw|Hh].
    + rewrite (getWindowPosition_spec _ _ _ _ I T), Hw.
      unfold props_width. now rewrite (lit _ _ L).
    + rewrite (getWindowPosition_spec _ _ _ _ I T), Hh.
      destruct (applyProp (props_width scr) (Specs.width specs)) as [w|e] eqn:E.
      * unfold props_height. now rewrite (lit _ _ L).
      * now rewrite (applyProp_size_refusal _ _ _ E).
  - revert H1. rewrite (getWindowPosition_spec _ _ _ _ H H0).
    destruct (applyProp (props_width scr) _); [|discriminate].
    destruct (applyProp (props_height scr) _); [|discriminate].
    destruct (applyProp (props_x scr _) _); [|discriminate].
    destruct (applyProp (props_y scr _) _); [|discriminate].
    now intros [= <-].
  - revert H1. rewrite (getWindowPosition_spec _ _ _ _ H H0).
    destruct (applyProp (props_width scr) _); [|discriminate].
    destruct (applyProp (props_height scr) _); [|discriminate].
    destruct (applyProp (props_x scr _) _); [|discriminate].
    destruct (applyProp (props_y scr _) _); [|discriminate].
    now intros [= <-].
Qed.

(** C7: with the width and the height resolved first, [x] is resolved
    over the display's width less the resolved width and [y] over the
    display's height less the resolved height, a percentage
    multiplying against that range, [center] giving half of it, [min]
    0 and [max] all of it; the display's origin is then added. *)
Theorem position_resolution this (specs : Specs.specs)
    (screenName : option string) (scr : Screen.Screen)
    (width height : resolved) (px py : number) :
  hasInit this = true ->
  target this screenName = Some scr ->
  applyProp (props_width scr) (Specs.width specs) = Returned width ->
  applyProp (props_height scr) (Specs.height specs) = Returned height ->
  Design.position_of (sub (Screen.width scr) (toNumber width))
    (Specs.x specs) = Some px ->
  Design.position_of (sub (Screen.height scr) (toNumber height))
    (Specs.y specs) = Some py ->
  getWindowPosition this specs screenName
  = Returned {| Placed.width := width; Placed.height := height;
                Placed.x := add px (Screen.x scr);
                Placed.y := add py (Screen.y scr) |}.
Proof.
  intros I T Hw Hh Hx Hy.
  rewrite (getWindowPosition_spec _ _ _ _ I T), Hw, Hh.
  unfold props_x, props_y.
  now rewrite (applyProp_position _ _ _ Hx), (applyProp_position _ _ _ Hy).
Qed.

End PlacementFacts.

(** C3, as stated, at the width ["full"] on a display 1000 wide: the
    string does not pass through, the width becomes 1000. *)
Lemma full_width_is_replaced :
  Desktop.applyProp (Desktop.props_width (Sample.screen_at "A" 0 0 1000 800))
    (SString "full")
  = Returned (RNumber (JSNumber.of_Z 1000))
  /\ Design.size_of (JSNumber.of_Z 1000) (SString "full")
     = Returned (SString "full").
Proof. split; vm_compute; reflexivity. Qed.

(** The document's example: on the work area x 100, y 0, 1000 by 800,
    the options width 50%, height 400, x center, y min and padding 0
    give width 500, height 400, x 350, y 0. *)
Lemma position_resolution_witness :
  Desktop.getWindowPosition Sample.shifted Sample.centred (Some "A")
  = Returned (Sample.placed 500 400 350 0).
Proof.
  apply (position_resolution Sample.shifted Sample.centred (Some "A")
           (Sample.screen_at "A" 100 0 1000 800)
           (RNumber (JSNumber.of_Z 500)) (RNumber (JSNumber.of_Z 400))
           (JSNumber.of_Z 250) (JSNumber.of_Z 0));
    vm_compute; reflexivity.
Defined.

(** ** More on the chain: who is called, and in what order *)

Section ChainOrder.

Context {V W : Type} (undefined notAFunction : V).
Context {pattern : Type}.

Implicit Types (this : @API.APIClass V W pattern).
Implicit Types (c : @API.chain V).

Local Abbreviation completes := (API.completes notAFunction).
Local Abbreviation for_await := (@API.for_await V W notAFunction).

(** A run of callables that neither answer nor throw is walked
    through: the loop goes on behind it with the cursor moved and the
    positions noted. *)
Lemma for_await_quiet (req : API.request) (tc quiet rest : list API.callable) :
  forall c,
    API.breakpoint c = false ->
    (forall j mw,
        quiet !! j = Some mw ->
        API.responses (mw (API.chain_arguments req tc (API.cursor c + j))) = []
        /\ exists r,
            completes true (mw (API.chain_arguments req tc (API.cursor c + j)))
            = Returned r) ->
    exists r',
      for_await req tc (quiet ++ rest) c
      = for_await req tc rest
          {| API.cursor := API.cursor c + length quiet;
             API.breakpoint := false;
             API.breakValue := API.breakValue c;
             API.result := r';
             API.called := API.called c ++ seq (API.cursor c) (length quiet) |}.
Proof.
  induction quiet as [|mw0 quiet IH]; intros c B Q.
  - exists (API.result c). simpl. rewrite Nat.add_0_r, app_nil_r.
    destruct c; simpl in *. now subst.
  - destruct (Q 0%nat mw0 eq_refl) as [Q0 [r Qr]].
    rewrite Nat.add_0_r in Q0, Qr.
    simpl app. simpl API.for_await. rewrite B, run_true, Q0, Qr. simpl last.
    cbn [API.cursor API.breakpoint API.breakValue API.called].
    edestruct (IH {| API.cursor := S (API.cursor c);
                     API.breakpoint := false;
                     API.breakValue := API.breakValue c;
                     API.result := r;
                     API.called := API.called c ++ [API.cursor c] |})
      as [r' E].
    + reflexivity.
    + intros j mw Hj. simpl API.cursor.
      replace (S (API.cursor c) + j)%nat with (API.cursor c + S j)%nat by lia.
      exact (Q (S j) mw Hj).
    + exists r'. rewrite E. simpl.
      rewrite <- app_assoc. simpl.
      now replace (API.cursor c + S (length quiet))%nat
        with (S (API.cursor c + length quiet)) by lia.
Qed.

(** The outcome of one more call, the last of the chain or one that
    throws. *)
Lemma for_await_last (req : API.request) (tc : list API.callable)
    (h : API.callable) c :
  API.breakpoint c = false ->
  exists c',
    for_await req tc [h] c
    = (completes true (h (API.chain_arguments req tc (API.cursor c))), c')
    /\ API.called c' = API.called c ++ [API.cursor c].
Proof.
  intros B. simpl. rewrite B, run_true.
  destruct (completes true _) as [r|e];
    destruct (last _); eexists; split; reflexivity.
Qed.

Lemma for_await_thrown (req : API.request) (tc rest : list API.callable)
    (mw : API.callable) c (e : V) :
  API.breakpoint c = false ->
  completes true (mw (API.chain_arguments req tc (API.cursor c))) = Thrown e ->
  exists c',
    for_await req tc (mw :: rest) c = (Thrown e, c')
    /\ API.called c' = API.called c ++ [API.cursor c].
Proof.
  intros B E. simpl. rewrite B, run_true, E.
  destruct (last _); eexists; split; reflexivity.
Qed.

(** X1: When no middleware answers or throws, the dispatch calls every
    middleware once, in the order of registration, then the handler,
    and settles with what the handler returns or throws; a handler
    that calls the respond callback of a chain changes nothing, the
    loop being over. *)
Theorem chain_runs_in_order this (found : API.matched) (values : V) :
  let req := API.request_of found values in
  let lastCallback := API.callback (API.element found) in
  let mws := API.middleware (API.routes_ this) in
  let last_arguments := API.arguments_at this req lastCallback (length mws) in
  (forall j mw,
      mws !! j = Some mw ->
      API.responses (mw (API.arguments_at this req lastCallback j)) = []
      /\ exists r,
          completes true (mw (API.arguments_at this req lastCallback j))
          = Returned r) ->
  API.promise undefined notAFunction this found values
  = {| API.settled :=
         Returned
           (API.value_of
              (completes (API.arg_res last_arguments)
                 (lastCallback last_arguments)));
       API.console :=
         API.logged
           (completes (API.arg_res last_arguments)
              (lastCallback last_arguments));
       API.calls := seq 0 (S (length mws)) |}.
Proof.
  intros req lastCallback mws last_arguments Q.
  destruct mws as [|m0 ms] eqn:M; subst mws.
  - subst last_arguments. unfold API.arguments_at. rewrite M.
    now rewrite (promise_direct undefined notAFunction _ _ _ M).
  - assert (M' : API.middleware (API.routes_ this) <> [])
      by (rewrite M; discriminate).
    subst last_arguments. rewrite arguments_at_chain by exact M'.
    set (tc := API.traceCall_of this lastCallback).
    destruct (for_await_quiet req tc (m0 :: ms) [lastCallback]
                (API.initial undefined) eq_refl) as [r' E].
    { intros j mw Hj. specialize (Q j mw Hj).
      now rewrite arguments_at_chain in Q by exact M'. }
    destruct (for_await_last req tc lastCallback
                {| API.cursor := 0 + length (m0 :: ms);
                   API.breakpoint := false;
                   API.breakValue := undefined; API.result := r';
                   API.called := [] ++ seq 0 (length (m0 :: ms)) |} eq_refl)
      as (c' & F & C).
    simpl API.cursor in *. simpl API.breakValue in *. simpl API.called in *.
    assert (T : tc = (m0 :: ms) ++ [lastCallback])
      by (unfold tc, API.traceCall_of; now rewrite M).
    rewrite (promise_chain undefined notAFunction this found values
               (completes true
                  (lastCallback
                     (API.chain_arguments req tc (length (m0 :: ms))))) c' M').
    + simpl API.arg_res. f_equal. rewrite C.
      change (S (length (m0 :: ms))) with (S (S (length ms))).
      rewrite (seq_S (S (length ms)) 0). reflexivity.
    + fold req lastCallback tc. rewrite T at 2.
      simpl API.initial in E. rewrite E. exact F.
Qed.

(** X2: When a middleware throws and none before it has answered or
    thrown, the dispatch has called the middleware up to that one and
    nothing behind it, the handler included. *)
Theorem chain_stops_at_throw this (found : API.matched) (values : V)
    (i : nat) (thrower : API.callable) (e : V) :
  let req := API.request_of found values in
  let lastCallback := API.callback (API.element found) in
  let mws := API.middleware (API.routes_ this) in
  mws !! i = Some thrower ->
  completes true (thrower (API.arguments_at this req lastCallback i))
  = Thrown e ->
  (forall j mw,
      (j < i)%nat -> mws !! j = Some mw ->
      API.responses (mw (API.arguments_at this req lastCallback j)) = []
      /\ exists r,
          completes true (mw (API.arguments_at this req lastCallback j))
          = Returned r) ->
  API.promise undefined notAFunction this found values
  = {| API.settled := Returned e; API.console := [e];
       API.calls := seq 0 (S i) |}.
Proof.
  intros req lastCallback mws Hi He Q.
  assert (M' : API.middleware (API.routes_ this) <> []).
  { intros E. subst mws. rewrite E in Hi. destruct i; discriminate Hi. }
  rewrite arguments_at_chain in He by exact M'.
  set (tc := API.traceCall_of this lastCallback) in *.
  assert (Hsplit : tc = take i mws ++ thrower :: (drop (S i) mws ++ [lastCallback])).
  { unfold tc, API.traceCall_of. fold mws.
    rewrite <- (take_drop_middle mws i thrower Hi) at 1.
    now rewrite <- app_assoc. }
  assert (Hlen : length (take i mws) = i).
  { rewrite length_take. apply lookup_lt_Some in Hi. lia. }
  destruct (for_await_quiet req tc (take i mws)
              (thrower :: (drop (S i) mws ++ [lastCallback]))
              (API.initial undefined) eq_refl) as [r' E].
  { intros j mw Hj. simpl API.cursor. simpl Nat.add.
    apply lookup_take_Some in Hj. destruct Hj as [Hj Hlt].
    specialize (Q j mw Hlt Hj).
    now rewrite arguments_at_chain in Q by exact M'. }
  rewrite Hlen in E. simpl API.cursor in E. simpl API.breakValue in E.
  simpl API.called in E. simpl Nat.add in E.
  edestruct (for_await_thrown req tc (drop (S i) mws ++ [lastCallback]) thrower
              {| API.cursor := i; API.breakpoint := false;
                 API.breakValue := undefined; API.result := r';
                 API.called := seq 0 i |} e eq_refl He)
    as (c' & F & C).
  rewrite (promise_chain undefined notAFunction this found values
             (Thrown e) c' M').
  - rewrite C. cbn [API.called API.cursor API.value_of API.logged].
    now rewrite (seq_S i 0).
  - fold req lastCallback tc. rewrite Hsplit at 2. rewrite E. exact F.
Qed.

(** X3: With no middleware registered the handler is called with the
    request alone: a handler that calls its second argument throws a
    TypeError, which the dispatch returns. *)
Theorem respond_without_middleware this (found : API.matched) (values : V) :
  let req := API.request_of found values in
  let lastCallback := API.callback (API.element found) in
  API.middleware (API.routes_ this) = [] ->
  API.responses (lastCallback (API.direct_arguments req)) <> [] ->
  API.promise undefined notAFunction this found values
  = {| API.settled := Returned notAFunction;
       API.console := [notAFunction]; API.calls := [0%nat] |}.
Proof.
  intros req lastCallback M R.
  rewrite (promise_direct undefined notAFunction _ _ _ M).
  fold req lastCallback.
  destruct (lastCallback (API.direct_arguments req)) as [v|e|v rest];
    simpl in R; try congruence. reflexivity.
Qed.

End ChainOrder.

Lemma chain_runs_in_order_witness :
  Sample.promise (Sample.table_of [Sample.passes; Sample.passes] ["/"]) "/"
  = {| API.settled := Returned "/"; API.console := [];
       API.calls := [0; 1; 2]%nat |}.
Proof.
  apply (chain_runs_in_order "undefined" "TypeError"
           (Sample.table_of [Sample.passes; Sample.passes] ["/"])
           (Sample.found (Sample.table_of [Sample.passes; Sample.passes] ["/"])
              "/") "").
  intros j mw H. destruct j as [|[|j]]; simpl in H.
  - injection H as <-. split; [reflexivity|]. now exists "m".
  - injection H as <-. split; [reflexivity|]. now exists "m".
  - discriminate H.
Defined.

Lemma chain_stops_at_throw_witness :
  Sample.promise
    (Sample.table_of [Sample.passes; Sample.throwing; Sample.passes] ["/"]) "/"
  = {| API.settled := Returned "boom"; API.console := ["boom"];
       API.calls := [0; 1]%nat |}.
Proof.
  apply (chain_stops_at_throw "undefined" "TypeError"
           (Sample.table_of [Sample.passes; Sample.throwing; Sample.passes]
              ["/"])
           (Sample.found
              (Sample.table_of [Sample.passes; Sample.throwing; Sample.passes]
                 ["/"]) "/") "" 1%nat Sample.throwing "boom").
  - reflexivity.
  - reflexivity.
  - intros j mw L H. destruct j as [|j]; [|lia]. simpl in H.
    injection H as <-. split; [reflexivity|]. now exists "m".
Defined.

Lemma respond_without_middleware_witness :
  API.promise "undefined" "TypeError"
    (fst (Sample.get API.new "/" Sample.answers))
    (Sample.found (fst (Sample.get API.new "/" Sample.answers)) "/") ""
  = {| API.settled := Returned "TypeError"; API.console := ["TypeError"];
       API.calls := [0%nat] |}.
Proof.
  apply (respond_without_middleware "undefined" "TypeError"
           (fst (Sample.get API.new "/" Sample.answers))
           (Sample.found (fst (Sample.get API.new "/" Sample.answers)) "/") "").
  - reflexivity.
  - vm_compute. discriminate.
Defined.

(** ** More on the tables: what a registration changes and finds *)

Section TableFacts.

Context {V W : Type} (undefined notAFunction : V).
Context {pattern : Type}.
Context (routeParser : string -> completion pattern string).
Context (path_match : pattern -> string -> option (gmap string string)).

Implicit Types (this : @API.APIClass V W pattern).
Implicit Types (e : @API.routeElement V W pattern).

Local Abbreviation matches := (API.matches path_match).
Local Abbreviation register := (API.register routeParser path_match).
Local Abbreviation getRoute := (API.getRoute path_match).

Import JSString.

Lemma cut_none sep (s : string) :
  occurrences sep s = 0%nat -> cut sep s = (s, None).
Proof.
  induction s as [|c s IH]; simpl; [reflexivity|].
  destruct (Ascii.eqb c sep); [discriminate|].
  intros H. now rewrite (IH H).
Qed.

Lemma cut_append sep (s q : string) :
  occurrences sep s = 0%nat ->
  cut sep (s ++ String sep q) = (s, Some q).
Proof.
  induction s as [|c s IH]; intros H.
  - simpl. now rewrite Ascii.eqb_refl.
  - simpl in H. rewrite append_cons. simpl.
    destruct (Ascii.eqb c sep); [discriminate|].
    now rewrite (IH H).
Qed.

(** The route of a dispatched path is the text before its first
    question mark. *)
Lemma route_of_path (rq : string) :
  fst (API.getRouteAndParams rq) = fst (cut "?" rq).
Proof.
  unfold API.getRouteAndParams, at_index. now rewrite split_head.
Qed.

(** X4: The query of a dispatched path has no part in the choice of
    the route: with and without it the same element answers, at the
    same position and with the same parameters bound; it only shows in
    the query and in the full path the request carries. *)
Theorem getRoute_ignores_query this (route q : string) (m : API.method)
    (w : W) :
  occurrences "?" route = 0%nat ->
  getRoute this (route ++ String "?" q) m w
  = match getRoute this route m w with
    | Some found =>
        Some {| API.index := API.index found;
                API.element := API.element found;
                API.matchedRoute := API.matchedRoute found;
                API.route_ := route;
                API.query_ :=
                  snd (API.getRouteAndParams (route ++ String "?" q));
                API.routeWithQueryParams_ := (route ++ String "?" q)%string;
                API.method_ := m; API.callerWindow := w |}
    | None => None
    end.
Proof.
  intros H. rewrite !getRoute_spec, !route_of_path.
  rewrite (cut_append _ _ q H), (cut_none _ _ H). simpl fst.
  destruct (API.scan path_match (API.routes_of this m) 0 route)
    as [[[i e] mr]|]; reflexivity.
Qed.

Lemma getRoute_routes this this' rq m (w : W) :
  API.routes_of this' m = API.routes_of this m ->
  getRoute this' rq m w = getRoute this rq m w.
Proof. intros H. rewrite !getRoute_spec. now rewrite H. Qed.

Lemma register_refused this m route cb :
  snd (register m this route cb) <> Returned tt ->
  forall m', API.routes_of (fst (register m this route cb)) m'
             = API.routes_of this m'.
Proof.
  unfold API.register.
  destruct (API.throwErrorIfExists path_match this route m); [|reflexivity].
  destruct (routeParser route); simpl; [intros R; now destruct R|].
  intros _ m'. now destruct m'.
Qed.

Lemma register_other this m route cb m' :
  m' <> m ->
  API.routes_of (fst (register m this route cb)) m' = API.routes_of this m'.
Proof.
  intros N. unfold API.register.
  destruct (API.throwErrorIfExists path_match this route m); [|reflexivity].
  destruct (routeParser route); simpl; [|now destruct m'].
  rewrite routes_of_push. destruct m, m'; try reflexivity; now destruct N.
Qed.

(** X5: A registration changes nothing for the other method: its
    lookups answer as before, and the middleware stays as it was. A
    registration that is refused changes no lookup at all, and [use]
    changes none either. *)
Theorem registration_is_local this (m : API.method) (route : string)
    (cb mw : API.callable) :
  let this' := fst (register m this route cb) in
  (forall m' rq (w : W),
      m' <> m -> getRoute this' rq m' w = getRoute this rq m' w)
  /\ (snd (register m this route cb) <> Returned tt ->
      forall m' rq (w : W), getRoute this' rq m' w = getRoute this rq m' w)
  /\ API.middleware (API.routes_ this') = API.middleware (API.routes_ this)
  /\ (forall m' rq (w : W),
         getRoute (API.use this mw) rq m' w = getRoute this rq m' w).
Proof.
  intros this'. split; [|split; [|split]].
  - intros m' rq w N. apply getRoute_routes. now apply register_other.
  - intros R m' rq w. apply getRoute_routes. now apply register_refused.
  - subst this'. unfold API.register.
    destruct (API.throwErrorIfExists path_match this route m); [|reflexivity].
    destruct (routeParser route); simpl; [|reflexivity]. now destruct m.
  - intros m' rq w. apply getRoute_routes. now destruct m'.
Qed.

Lemma scan_app (l1 l2 : list (@API.routeElement V W pattern)) (i : nat)
    (route : string) :
  API.scan path_match (l1 ++ l2) i route
  = match API.scan path_match l1 i route with
    | Some hit => Some hit
    | None => API.scan path_match l2 (i + length l1) route
    end.
Proof.
  revert i. induction l1 as [|e l1 IH]; intros i; simpl.
  - now rewrite Nat.add_0_r.
  - destruct (path_match (API.path e) route); [reflexivity|].
    rewrite IH. now replace (S i + length l1)%nat with (i + S (length l1))%nat
      by lia.
Qed.

Lemma scan_none (l : list (@API.routeElement V W pattern)) (i : nat)
    (route : string) :
  existsb (fun e => matches e route) l = false ->
  API.scan path_match l i route = None.
Proof.
  revert i. induction l as [|e l IH]; intros i; simpl; [reflexivity|].
  unfold API.matches at 1.
  destruct (path_match (API.path e) route); simpl; [discriminate|].
  apply IH.
Qed.

(** What an accepted registration has checked and done. *)
Lemma register_accepted this this1 m route cb :
  register m this route cb = (this1, Returned tt) ->
  existsb (fun e => matches e route) (API.routes_of this m) = false
  /\ exists compiled,
      routeParser route = Returned compiled
      /\ API.routes_of this1 m
         = API.routes_of this m
             ++ [{| API.path := compiled; API.callback := cb |}].
Proof.
  intros H.
  destruct (register_appends _ _ _ _ _ _ _ H) as (compiled & Hc & Hr & _).
  split; [|eauto].
  unfold API.register in H. rewrite throwErrorIfExists_spec in H.
  destruct (existsb _ (API.routes_of this m)); [discriminate H|reflexivity].
Qed.

(** X6: When a pattern matches the text it was compiled from, a route
    that has been registered cannot be registered again for the same
    method: the second call throws the "already exists" error and
    leaves the table as it was. *)
Theorem same_route_twice this this1 (m : API.method) (route : string)
    (cb cb' : API.callable) :
  (forall compiled,
      routeParser route = Returned compiled ->
      path_match compiled route <> None) ->
  register m this route cb = (this1, Returned tt) ->
  register m this1 route cb' = (this1, Thrown (API.already_exists m route)).
Proof.
  intros Self H.
  destruct (register_accepted _ _ _ _ _ H) as (_ & compiled & Hc & Hr).
  unfold API.register. rewrite throwErrorIfExists_spec, Hr, existsb_app.
  simpl. unfold API.matches at 2. simpl.
  destruct (path_match compiled route) eqn:E;
    [|now destruct (Self compiled Hc)].
  now rewrite orb_true_r.
Qed.

(** X7: When a pattern matches the text it was compiled from, a route
    without a question mark that has just been registered is the one
    its own text is dispatched to: the lookup answers with the new
    element, at the end of the method's list, and with the callback
    given. *)
Theorem registered_route_is_found this this1 (m : API.method)
    (route : string) (cb : API.callable) (w : W) :
  (forall compiled,
      routeParser route = Returned compiled ->
      path_match compiled route <> None) ->
  occurrences "?" route = 0%nat ->
  register m this route cb = (this1, Returned tt) ->
  exists found,
    getRoute this1 route m w = Some found
    /\ API.index found = length (API.routes_of this m)
    /\ API.callback (API.element found) = cb
    /\ API.routes_of this1 m !! API.index found = Some (API.element found).
Proof.
  intros Self Q H.
  destruct (register_accepted _ _ _ _ _ H) as (N & compiled & Hc & Hr).
  rewrite getRoute_spec, route_of_path, (cut_none _ _ Q), Hr, scan_app.
  simpl fst. rewrite (scan_none _ _ _ N). simpl.
  destruct (path_match compiled route) as [mr|] eqn:E;
    [|now destruct (Self compiled Hc)].
  eexists. split; [reflexivity|]. simpl. repeat split.
  rewrite lookup_app_r by lia. now rewrite Nat.sub_diag.
Qed.

End TableFacts.

Lemma getRoute_ignores_query_witness :
  JSString.occurrences "?" "/b" = 0%nat
  /\ API.getRoute RouteParser.match_path (Sample.table_of [] ["/a"; "/b"])
       ("/b" ++ String "?" "x=1&y=2") API.GET tt
     = match Sample.getRoute (Sample.table_of [] ["/a"; "/b"]) "/b" with
       | Some found =>
           Some {| API.index := API.index found;
                   API.element := API.element found;
                   API.matchedRoute := API.matchedRoute found;
                   API.route_ := "/b";
                   API.query_ :=
                     snd (API.getRouteAndParams
                            ("/b" ++ String "?" "x=1&y=2"));
                   API.routeWithQueryParams_ :=
                     ("/b" ++ String "?" "x=1&y=2")%string;
                   API.method_ := API.GET; API.callerWindow := tt |}
       | None => None
       end.
Proof.
  split; [reflexivity|].
  apply (getRoute_ignores_query RouteParser.match_path
           (Sample.table_of [] ["/a"; "/b"]) "/b" "x=1&y=2" API.GET tt).
  reflexivity.
Defined.

Lemma same_route_twice_witness :
  Sample.get (Sample.table_of [] ["/ping"]) "/ping" (Sample.handler "again")
  = (Sample.table_of [] ["/ping"], Thrown (API.already_exists API.GET "/ping")).
Proof.
  apply (same_route_twice RouteParser.compile RouteParser.match_path
           API.new (Sample.table_of [] ["/ping"]) API.GET "/ping"
           (Sample.handler "/ping") (Sample.handler "again")).
  - intros compiled H. vm_compute in H. injection H as <-.
    vm_compute. discriminate.
  - vm_compute. reflexivity.
Defined.

Lemma registered_route_is_found_witness :
  exists found,
    Sample.getRoute (Sample.table_of [] ["/a"; "/user/:id"]) "/user/:id"
    = Some found
    /\ API.index found = 1%nat
    /\ API.callback (API.element found) = Sample.handler "/user/:id"
    /\ API.routes_of (Sample.table_of [] ["/a"; "/user/:id"]) API.GET
       !! API.index found = Some (API.element found).
Proof.
  apply (registered_route_is_found RouteParser.compile RouteParser.match_path
           (Sample.table_of [] ["/a"]) (Sample.table_of [] ["/a"; "/user/:id"])
           API.GET "/user/:id" (Sample.handler "/user/:id") tt).
  - intros compiled H. vm_compute in H. injection H as <-.
    vm_compute. discriminate.
  - reflexivity.
  - vm_compute. reflexivity.
Defined.

(** ** The routes of a window *)

Section WindowRouteFacts.

Context {V W : Type} (undefined notAFunction : V).
Context {pattern : Type}.
Context (routeParser : string -> completion pattern string).
Context (path_match : pattern -> string -> option (gmap string string)).

Local Abbreviation after := (WindowRoutes.after routeParser path_match).

Lemma register_middleware (this : @API.APIClass V W pattern) m route cb :
  API.middleware
    (API.routes_ (fst (API.register routeParser path_match m this route cb)))
  = API.middleware (API.routes_ this).
Proof.
  unfold API.register.
  destruct (API.throwErrorIfExists path_match this route m); [|reflexivity].
  destruct (routeParser route); simpl; [|reflexivity]. now destruct m.
Qed.

Lemma after_middleware (this : @Window.Window V W pattern) c :
  API.middleware (API.routes_ (Window.API (after this c)))
  = API.middleware (API.routes_ (Window.API this)).
Proof.
  destruct c as [mw|route cb|route cb]; simpl; [reflexivity| |].
  - unfold WindowRoutes.get, API.get.
    rewrite <- (register_middleware (Window.API this) API.GET route cb).
    now destruct (API.register _ _ API.GET (Window.API this) route cb).
  - unfold WindowRoutes.post, API.post.
    rewrite <- (register_middleware (Window.API this) API.POST route cb).
    now destruct (API.register _ _ API.POST (Window.API this) route cb).
Qed.

Lemma after_all_middleware calls (this : @Window.Window V W pattern) :
  API.middleware (API.routes_ (Window.API (fold_left after calls this)))
  = API.middleware (API.routes_ (Window.API this)).
Proof.
  revert this. induction calls as [|c calls IH]; intros this; simpl;
    [reflexivity|].
  now rewrite IH, after_middleware.
Qed.

Lemma after_window (this : @Window.Window V W pattern) c :
  Window.window (after this c) = Window.window this.
Proof.
  destruct c as [mw|route cb|route cb]; simpl; [reflexivity| |].
  - unfold WindowRoutes.get. now destruct (API.get _ _ _ _ _).
  - unfold WindowRoutes.post. now destruct (API.post _ _ _ _ _).
Qed.

Lemma after_all_window calls (this : @Window.Window V W pattern) :
  Window.window (fold_left after calls this) = Window.window this.
Proof.
  revert this. induction calls as [|c calls IH]; intros this; simpl;
    [reflexivity|].
  now rewrite IH, after_window.
Qed.

(** X8: Whatever is called on a window of [use], [get] and [post], its
    own table never holds a middleware. A route found in the window's
    table is therefore called directly and alone, with the request and
    no callback to answer with, and the middleware of the parent has no
    part in it. *)
Theorem window_routes_skip_middleware (calls : list WindowRoutes.call)
    (created now : @API.APIClass V W pattern) (w : W) (rq : string)
    (m : API.method) (values : V) (found : API.matched) :
  let win :=
    WindowRoutes.with_parent
      (fold_left after calls (WindowRoutes.new created w)) now in
  let o := API.completes notAFunction false
             (API.callback (API.element found)
                (API.direct_arguments (API.request_of found values))) in
  API.getRoute path_match (Window.API win) rq m w = Some found ->
  API.middleware (API.routes_ (Window.API win)) = []
  /\ Window.apply undefined notAFunction path_match win rq m values
     = {| API.settled := Returned (API.value_of o);
          API.console := API.logged o; API.calls := [0%nat] |}.
Proof.
  intros win o F.
  assert (M : API.middleware (API.routes_ (Window.API win)) = []).
  { subst win. simpl. now rewrite after_all_middleware. }
  split; [exact M|].
  unfold Window.apply.
  replace (Window.window win) with w
    by (subst win; simpl; now rewrite after_all_window).
  rewrite F. now apply promise_direct.
Qed.

End WindowRouteFacts.

Lemma window_routes_skip_middleware_witness :
  let win :=
    WindowRoutes.with_parent
      (fold_left (WindowRoutes.after RouteParser.compile RouteParser.match_path)
         [WindowRoutes.Use Sample.passes;
          WindowRoutes.Get "/" (Sample.handler "/")]
         (WindowRoutes.new API.new tt))
      (Sample.table_of [Sample.answers] ["/"]) in
  API.middleware (API.routes_ (Window.API win)) = []
  /\ Window.apply "undefined" "TypeError" RouteParser.match_path win "/"
       API.GET ""
     = {| API.settled := Returned "/"; API.console := [];
          API.calls := [0%nat] |}.
Proof.
  apply (window_routes_skip_middleware "undefined" "TypeError"
           RouteParser.compile RouteParser.match_path
           [WindowRoutes.Use Sample.passes;
            WindowRoutes.Get "/" (Sample.handler "/")]
           API.new (Sample.table_of [Sample.answers] ["/"]) tt "/" API.GET ""
           (Sample.found (fst (Sample.get API.new "/" (Sample.handler "/")))
              "/")).
  vm_compute. reflexivity.
Defined.

(** ** The displays [init] detects *)

Section DisplayFacts.

Import JSNumber Desktop.

Context (toString : number -> string).

Local Abbreviation new_Screen := (Displays.new_Screen toString).
Local Abbreviation init := (Displays.init toString).

Lemma pushed_screens (primaryID : number) (sorted : list Display.Display) :
  forall this,
    let this1 :=
      fold_left
        (fun this screenInfo =>
           Displays.push_screen this (new_Screen screenInfo primaryID))
        sorted this in
    hasInit this1 = hasInit this
    /\ defaults_window_padding this1 = defaults_window_padding this
    /\ screensOrder this1
       = screensOrder this
           ++ map (fun d => Screen.id (new_Screen d primaryID)) sorted
    /\ (forall name s,
           screens this1 !! name = Some s ->
           screens this !! name = Some s
           \/ exists d, In d sorted /\ s = new_Screen d primaryID
                        /\ Screen.id s = name)
    /\ (forall name,
           is_Some (screens this !! name)
           \/ In name (map (fun d => Screen.id (new_Screen d primaryID)) sorted)
           -> is_Some (screens this1 !! name)).
Proof.
  induction sorted as [|d sorted IH]; intros this; cbn zeta.
  - simpl. rewrite app_nil_r. repeat split; auto.
    intros name [H|[]]. exact H.
  - simpl fold_left.
    destruct (IH (Displays.push_screen this (new_Screen d primaryID)))
      as (I & P & O & A & B).
    split; [exact I|]. split; [exact P|]. split.
    { rewrite O. simpl. now rewrite <- app_assoc. }
    split.
    + intros name s H. destruct (A name s H) as [H1|(d' & D & -> & N)].
      * unfold Displays.push_screen in H1. cbn [screens] in H1.
        apply lookup_insert_Some in H1.
        destruct H1 as [[E <-]|[E H1]]; [|now left].
        right. exists d. simpl. auto.
      * right. exists d'. simpl. auto.
    + intros name H. apply B.
      unfold Displays.push_screen. cbn [screens].
      destruct (decide (Screen.id (new_Screen d primaryID) = name)) as [E|E].
      * left. rewrite lookup_insert_is_Some. now left.
      * destruct H as [H|[H|H]]; [| now destruct E | now right].
        left. rewrite lookup_insert_is_Some. right. auto.
Qed.

(** What [init] leaves on a new desktop. *)
Lemma init_screens (sorted : list Display.Display) (primaryID : number) :
  exists this',
    init Displays.new sorted primaryID = Returned this'
    /\ hasInit this' = true
    /\ screensOrder this'
       = map (fun d => Screen.id (new_Screen d primaryID)) sorted
    /\ (forall name,
           In name (screensOrder this') <-> is_Some (screens this' !! name))
    /\ (forall name s,
           screens this' !! name = Some s ->
           Screen.id s = name
           /\ exists d, In d sorted /\ s = new_Screen d primaryID)
    /\ (sorted <> [] ->
        exists s,
          primary this' = Some (Screen.id s)
          /\ screens this' !! Screen.id s = Some s
          /\ (Screen.primary s = false ->
              primary this' = head (screensOrder this')
              /\ forall name s', screens this' !! name = Some s' ->
                                 Screen.primary s' = false)).
Proof.
  unfold Displays.init, Displays.detectScreens, failSafe. cbn [hasInit negb andb].
  eexists. split; [reflexivity|].
  match goal with
  | |- context [fold_left ?f sorted ?t] =>
      destruct (pushed_screens primaryID sorted t) as (I & _ & O & A & B);
      cbv zeta in I, O, A, B; set (this1 := fold_left f sorted t) in *
  end.
  cbn [hasInit screens screensOrder primary].
  simpl in I, O.
  assert (K : forall name,
             In name (screensOrder this1) <-> is_Some (screens this1 !! name)).
  { intros name. rewrite O. split.
    - intros H. apply B. now right.
    - intros [s H]. destruct (A name s H) as [H1|(d & D & -> & N)].
      + simpl in H1. now rewrite lookup_empty in H1.
      + rewrite <- N. now apply (in_map (fun d => Screen.id (new_Screen d _))). }
  assert (S : forall name s, screens this1 !! name = Some s ->
                Screen.id s = name
                /\ exists d, In d sorted /\ s = new_Screen d primaryID).
  { intros name s H. destruct (A name s H) as [H1|(d & D & -> & N)].
    - simpl in H1. now rewrite lookup_empty in H1.
    - eauto. }
  split; [exact I|]. split; [exact O|]. split; [exact K|]. split; [exact S|].
  intros N.
  assert (V : forall s, In s (Displays.values this1)
                <-> exists name, screens this1 !! name = Some s).
  { intros s. unfold Displays.values. rewrite <- list_elem_of_In.
    rewrite list_elem_of_omap. split.
    - intros (name & _ & H). eauto.
    - intros (name & H). exists name. split; [|exact H].
      apply list_elem_of_In, K. eauto. }
  destruct (head (List.filter Screen.primary (Displays.values this1)))
    as [s|] eqn:P.
  - apply head_filter_some in P. destruct P as [P1 P2].
    apply V in P1. destruct P1 as (name & H).
    destruct (S name s H) as [E _]. subst name.
    exists s. split; [reflexivity|]. split; [exact H|].
    intros F. congruence.
  - destruct (screensOrder this1) as [|k ks] eqn:KS.
    { destruct sorted; [now destruct N|discriminate O]. }
    destruct (proj1 (K k) (or_introl eq_refl)) as [s H].
    destruct (S k s H) as [E _]. subst k.
    exists s. split; [reflexivity|]. split; [exact H|].
    intros _. split; [reflexivity|].
    intros name s' H'. apply (head_filter_none _ _ P). apply V. eauto.
Qed.

(** X9: [init] on a new desktop lists the displays in the order the
    sort has left them, each under the id of its screen, and keeps
    exactly these ids as the keys of [screens], each with a screen
    built from one of the displays. With a display at all, the primary
    is a screen that is kept: one marked as primary when there is one,
    the first in order otherwise. *)
Theorem init_detects_screens (sorted : list Display.Display)
    (primaryID : number) :
  exists this',
    init Displays.new sorted primaryID = Returned this'
    /\ hasInit this' = true
    /\ screensOrder this'
       = map (fun d => Screen.id (new_Screen d primaryID)) sorted
    /\ (forall name,
           In name (screensOrder this') <-> is_Some (screens this' !! name))
    /\ (forall name s,
           screens this' !! name = Some s ->
           Screen.id s = name
           /\ exists d, In d sorted /\ s = new_Screen d primaryID)
    /\ (sorted <> [] ->
        exists s,
          primary this' = Some (Screen.id s)
          /\ screens this' !! Screen.id s = Some s
          /\ (Screen.primary s = false ->
              primary this' = head (screensOrder this')
              /\ forall name s', screens this' !! name = Some s' ->
                                 Screen.primary s' = false)).
Proof.
  exact (init_screens sorted primaryID).
Qed.

Lemma head_rev_In {A} (l : list A) :
  l <> [] -> exists x, head (rev l) = Some x /\ In x l.
Proof.
  intros N. destruct (rev l) as [|x r] eqn:E.
  - apply (f_equal (@rev A)) in E. rewrite rev_involutive in E.
    now destruct N.
  - exists x. split; [reflexivity|]. apply in_rev. rewrite E. now left.
Qed.

(** What [#getScreenName] answers when every listed name is a display
    and the primary is one. *)
Lemma getScreenName_known this (screen : preference) (p : string) :
  hasInit this = true ->
  screensOrder this <> [] ->
  (forall name, In name (screensOrder this) ->
                is_Some (screens this !! name)) ->
  primary this = Some p ->
  is_Some (screens this !! p) ->
  JSString.inherited (as_key screen) = false ->
  exists name s,
    getScreenName this screen = Returned (Some name)
    /\ screens this !! name = Some s
    /\ target this (Some name) = Some s.
Proof.
  intros I N K P [sp Sp] H.
  assert (T : forall name s, screens this !! name = Some s ->
                target this (Some name) = Some s).
  { intros name s L. unfold target, screen_named, key_of. now rewrite L. }
  unfold getScreenName, failSafe. rewrite I. cbn [negb andb].
  destruct (falsy screen
            || match screen with
               | Name s => String.eqb s "primary"
               | _ => false
               end).
  { exists p, sp. rewrite P. auto. }
  rewrite H.
  destruct (screens this !! as_key screen) as [s|] eqn:L.
  { exists (as_key screen), s. auto. }
  set (prefs := match screen with
                | Names l => l
                | Name s => [s]
                | NoPreference => []
                end).
  assert (F : forall ordered,
             (exists x, head ordered = Some x /\ In x (screensOrder this)) ->
             forall byName,
               (forall x, byName = Some x -> In x (screensOrder this)) ->
               exists name s,
                 Returned (E := string)
                   match byName with
                   | Some (String c rest) => Some (String c rest)
                   | _ => head ordered
                   end = Returned (Some name)
                 /\ screens this !! name = Some s
                 /\ target this (Some name) = Some s).
  { intros ordered (x & Hx & Ix) byName B.
    destruct byName as [[|c rest]|].
    - destruct (K x Ix) as [s Ls]. exists x, s. rewrite Hx. auto.
    - destruct (K _ (B _ eq_refl)) as [s Ls]. exists (String c rest), s. auto.
    - destruct (K x Ix) as [s Ls]. exists x, s. rewrite Hx. auto. }
  apply F.
  - destruct (String.eqb _ "right").
    + now apply head_rev_In.
    + destruct (screensOrder this) as [|x r]; [now destruct N|].
      exists x. split; [reflexivity|now left].
  - intros x. destruct (List.filter (fun e => negb (is_side e)) prefs);
      [discriminate|].
    intros Hx. apply head_filter_some in Hx. tauto.
Qed.

(** X10: After [init] with at least one display, whatever is asked for
    as the screen of a window, unless it reads as the name of a member
    every object inherits, [#getScreenName] answers with the id of a
    detected display, and [#getWindowPosition] finds its screen under
    that id. *)
Theorem screen_choice_is_detected (sorted : list Display.Display)
    (primaryID : number) this' (screen : preference) :
  sorted <> [] ->
  init Displays.new sorted primaryID = Returned this' ->
  JSString.inherited (as_key screen) = false ->
  exists name s d,
    getScreenName this' screen = Returned (Some name)
    /\ screens this' !! name = Some s
    /\ target this' (Some name) = Some s
    /\ In d sorted /\ s = new_Screen d primaryID.
Proof.
  intros N E H.
  destruct (init_screens sorted primaryID) as (this & E' & I & O & K & S & P).
  rewrite E in E'. injection E' as <-.
  destruct (P N) as (sp & P1 & P2 & _).
  assert (N' : screensOrder this' <> []).
  { rewrite O. destruct sorted; [now destruct N|discriminate]. }
  assert (K' : forall name, In name (screensOrder this') ->
                 is_Some (screens this' !! name)).
  { intros name Hn. now apply K. }
  destruct (getScreenName_known this' screen (Screen.id sp) I N' K' P1
              (ex_intro _ sp P2) H) as (name & s & G & L & T).
  destruct (S name s L) as (_ & d & D & Sd).
    exists name, s, d. auto.
Qed.

(** The id of a screen is no empty text and is not [primary]. *)
Lemma screen_id_plain d primaryID :
  falsy (Name (Screen.id (new_Screen d primaryID))) = false
  /\ String.eqb (Screen.id (new_Screen d primaryID)) "primary" = false.
Proof. split; reflexivity. Qed.

(** X11: After [init] a detected display is selected by the id of its
    screen, given alone or as the one entry of a list. *)
Theorem detected_screen_by_name (sorted : list Display.Display)
    (primaryID : number) this' (d : Display.Display) :
  init Displays.new sorted primaryID = Returned this' ->
  In d sorted ->
  let name := Screen.id (new_Screen d primaryID) in
  getScreenName this' (Name name) = Returned (Some name)
  /\ getScreenName this' (Names [name]) = Returned (Some name)
  /\ exists s, target this' (Some name) = Some s /\ Screen.id s = name.
Proof.
  intros E D name.
  destruct (init_screens sorted primaryID) as (this & E' & I & O & K & S & P).
  rewrite E in E'. injection E' as <-.
  assert (L : is_Some (screens this' !! name)).
  { apply K. rewrite O.
    now apply (in_map (fun d => Screen.id (new_Screen d primaryID))). }
  destruct L as [s L].
  destruct (screen_id_plain d primaryID) as [F1 F2]. fold name in F1, F2.
  unfold getScreenName, failSafe. rewrite I. cbn [negb andb].
  rewrite F1, F2. cbn [orb falsy].
  replace (as_key (Names [name])) with name by reflexivity.
  cbn [as_key]. rewrite L.
  split; [reflexivity|]. split; [reflexivity|].
  exists s. split.
  - unfold target, screen_named, key_of. now rewrite L.
  - now destruct (S name s L).
Qed.

End DisplayFacts.

Lemma screen_choice_is_detected_witness :
  exists name s d,
    Desktop.getScreenName Fixture.detected (Names ["HDMI-9"; "right"])
    = Returned (Some name)
    /\ Desktop.screens Fixture.detected !! name = Some s
    /\ Desktop.target Fixture.detected (Some name) = Some s
    /\ In d Fixture.displays
    /\ s = Displays.new_Screen Fixture.integer_text d (JSNumber.of_Z 2).
Proof.
  apply (screen_choice_is_detected Fixture.integer_text Fixture.displays
           (JSNumber.of_Z 2) Fixture.detected (Names ["HDMI-9"; "right"])).
  - discriminate.
  - vm_compute. reflexivity.
  - vm_compute. reflexivity.
Defined.

Lemma detected_screen_by_name_witness :
  Desktop.getScreenName Fixture.detected (Name "#1-A") = Returned (Some "#1-A")
  /\ Desktop.getScreenName Fixture.detected (Names ["#1-A"])
     = Returned (Some "#1-A")
  /\ exists s, Desktop.target Fixture.detected (Some "#1-A") = Some s
               /\ Screen.id s = "#1-A".
Proof.
  apply (detected_screen_by_name Fixture.integer_text Fixture.displays
           (JSNumber.of_Z 2) Fixture.detected
           (Fixture.display 1 (Some "A") 0 0 1920 1080)).
  - vm_compute. reflexivity.
  - now left.
Defined.

(** ** The options of a window *)

Section WindowOptionFacts.

Import JSNumber Desktop WindowSpecs.

Lemma lookup_spread (a b : gmap string value) (k : string) :
  spread a b !! k
  = match b !! k with
    | Some v => Some v
    | None => a !! k
    end.
Proof.
  unfold spread. rewrite lookup_union.
  destruct (b !! k), (a !! k); reflexivity.
Qed.

(** What [#getWindowType] does without a type. *)
Lemma getWindowType_untyped (specsInfo : options) :
  truthy_text (type specsInfo) = false ->
  exists winType,
    getWindowType specsInfo = Returned winType
    /\ raw winType = raw specsInfo /\ after winType = after specsInfo
    /\ width winType = width specsInfo /\ height winType = height specsInfo
    /\ x winType = x specsInfo /\ y winType = y specsInfo
    /\ padding winType = padding specsInfo /\ src winType = src specsInfo.
Proof.
  intros T. unfold getWindowType. rewrite T. simpl.
  eexists. split; [reflexivity|]. simpl. repeat split.
Qed.

(** The types other than [background] leave the size, the position
    and the source as they were given. *)
Lemma apply_type_geometry (name : string) (specsInfo typed : options) :
  apply_type name specsInfo = Returned typed ->
  String.eqb name "background" = false ->
  width typed = width specsInfo /\ height typed = height specsInfo
  /\ x typed = x specsInfo /\ y typed = y specsInfo
  /\ padding typed = padding specsInfo /\ src typed = src specsInfo
  /\ debug typed = debug specsInfo.
Proof.
  unfold apply_type. intros H B. rewrite B in H.
  repeat match type of H with
         | (if ?c then _ else _) = _ => destruct c
         end;
    try discriminate H; injection H as <-; simpl; repeat split.
Qed.

Lemma getWindowType_geometry (specsInfo winType : options) :
  getWindowType specsInfo = Returned winType ->
  type specsInfo <> Some "background" ->
  width winType = width specsInfo /\ height winType = height specsInfo
  /\ x winType = x specsInfo /\ y winType = y specsInfo
  /\ padding winType = padding specsInfo /\ src winType = src specsInfo.
Proof.
  intros H B. unfold getWindowType in H.
  destruct (truthy_text (type specsInfo)) eqn:T; simpl in H.
  - destruct (type specsInfo) as [name|] eqn:N; [|discriminate T].
    simpl in H.
    destruct (apply_type name specsInfo) as [typed|] eqn:A; [|discriminate H].
    destruct (apply_type_geometry name specsInfo typed A)
      as (G1 & G2 & G3 & G4 & G5 & G6 & G7).
    { destruct (String.eqb_spec name "background"); congruence. }
    destruct (truthy (debug typed)); injection H as <-; simpl; auto 10.
  - injection H as <-. simpl. auto 10.
Qed.

Lemma translate_center (origin : number) :
  translateString "center" origin false = Returned (mul origin half).
Proof. reflexivity. Qed.

Lemma translate_min (origin : number) :
  translateString "min" origin false = Returned (of_Z 0).
Proof. reflexivity. Qed.

Lemma translate_full (origin : number) :
  translateString "full" origin true = Returned origin.
Proof. reflexivity. Qed.

(** X12: A window whose options give no width, height, x or y, and
    whose type is not [background], is 800 by 600 and centred in the
    work area of the display chosen for it. *)
Theorem default_window_is_centred this (specsInfo winType : options)
    (name : option string) (mainScreen : Screen.Screen) :
  hasInit this = true ->
  getWindowType specsInfo = Returned winType ->
  type specsInfo <> Some "background" ->
  width specsInfo = None -> height specsInfo = None ->
  x specsInfo = None -> y specsInfo = None ->
  truthy_text (src specsInfo) = true ->
  getScreenName this (screen specsInfo) = Returned name ->
  target this name = Some mainScreen ->
  createWindow this specsInfo
  = Returned
      {| placed :=
           {| Placed.width := RNumber (of_Z 800);
              Placed.height := RNumber (of_Z 600);
              Placed.x :=
                add (parseInt_number
                       (mul (sub (Screen.width mainScreen) (of_Z 800)) half))
                  (Screen.x mainScreen);
              Placed.y :=
                add (parseInt_number
                       (mul (sub (Screen.height mainScreen) (of_Z 600)) half))
                  (Screen.y mainScreen) |};
         window_raw := raw winType;
         window_after := after winType;
         window_src := default "" (src specsInfo) |}.
Proof.
  intros I G B W H X Y S N T.
  destruct (getWindowType_geometry _ _ G B) as (G1 & G2 & G3 & G4 & G5 & G6).
  unfold createWindow, failSafe. rewrite I. cbn [negb andb].
  rewrite G, N, (getWindowPosition_spec _ _ _ _ I T).
  unfold params_of. rewrite G1, G2, G3, G4, G6, W, H, X, Y, S.
  cbn [or_default Specs.width Specs.height Specs.x Specs.y applyProp].
  unfold props_x, props_y. rewrite !translate_center.
  reflexivity.
Qed.

Lemma getWindowType_background (specsInfo : options) :
  type specsInfo = Some "background" ->
  exists winType,
    getWindowType specsInfo = Returned winType
    /\ width winType = or_text (width specsInfo) "full"
    /\ height winType = or_text (height specsInfo) "full"
    /\ x winType = or_text (x specsInfo) "min"
    /\ y winType = or_text (y specsInfo) "min"
    /\ src winType = src specsInfo
    /\ raw winType
       = Some (spread
                 (<["titleBarStyle" := VString "hidden"]>
                    (<["type" := VString "splash"]>
                       (or_empty (raw specsInfo))))
                 commonSpecs).
Proof.
  intros B. unfold getWindowType. rewrite B.
  cbn [truthy_text truthy_string negb from_option id].
  change (apply_type "background" specsInfo)
    with (Returned (E := string) (background specsInfo)).
  cbv iota.
  eexists. split; [reflexivity|].
  destruct (truthy (debug (background specsInfo))); simpl; auto 10.
Qed.

Lemma parseInt_zero : parseInt_number (of_Z 0) = of_Z 0.
Proof. vm_compute. reflexivity. Qed.

(** X13: A window of the type [background] whose options give no
    width, height, x or y, or give them as [0] or as an empty text, has
    the whole part of the width and of the height of the work area of
    its display, and is put at the origin of that work area; its [raw]
    options name the type [splash] and a hidden title bar. *)
Theorem background_covers_work_area this (specsInfo : options)
    (name : option string) (mainScreen : Screen.Screen) :
  hasInit this = true ->
  type specsInfo = Some "background" ->
  truthy_spec (width specsInfo) = false ->
  truthy_spec (height specsInfo) = false ->
  truthy_spec (x specsInfo) = false ->
  truthy_spec (y specsInfo) = false ->
  truthy_text (src specsInfo) = true ->
  getScreenName this (screen specsInfo) = Returned name ->
  target this name = Some mainScreen ->
  exists created entries,
    createWindow this specsInfo = Returned created
    /\ placed created
       = {| Placed.width := RNumber (parseInt_number (Screen.width mainScreen));
            Placed.height :=
              RNumber (parseInt_number (Screen.height mainScreen));
            Placed.x := add (of_Z 0) (Screen.x mainScreen);
            Placed.y := add (of_Z 0) (Screen.y mainScreen) |}
    /\ window_raw created = Some entries
    /\ entries !! "type" = Some (VString "splash")
    /\ entries !! "titleBarStyle" = Some (VString "hidden").
Proof.
  intros I B W H X Y S N T.
  destruct (getWindowType_background specsInfo B)
    as (winType & G & G1 & G2 & G3 & G4 & G5 & G6).
  unfold or_text in G1, G2, G3, G4. rewrite W in G1. rewrite H in G2.
  rewrite X in G3. rewrite Y in G4.
  unfold createWindow, failSafe. rewrite I. cbn [negb andb]. rewrite G.
  rewrite N, (getWindowPosition_spec _ _ _ _ I T).
  unfold params_of. rewrite G1, G2, G3, G4, G5, S.
  cbn [or_default Specs.width Specs.height Specs.x Specs.y applyProp].
  unfold props_width, props_height, props_x, props_y.
  rewrite !translate_full, !translate_min, parseInt_zero.
  eexists _, _. split; [reflexivity|]. cbn [placed window_raw toNumber].
  split; [reflexivity|]. split; [exact G6|].
  rewrite !lookup_spread.
  replace (commonSpecs !! "type") with (@None value)
    by (vm_compute; reflexivity).
  replace (commonSpecs !! "titleBarStyle") with (@None value)
    by (vm_compute; reflexivity).
  split.
  - rewrite lookup_insert_ne by discriminate. now rewrite lookup_insert_eq.
  - now rewrite lookup_insert_eq.
Qed.

Lemma apply_type_debug (name : string) (specsInfo typed : options) :
  apply_type name specsInfo = Returned typed ->
  debug typed = debug specsInfo.
Proof.
  unfold apply_type. intros H.
  repeat match type of H with
         | (if ?c then _ else _) = _ => destruct c
         end;
    try discriminate H; injection H as <-; reflexivity.
Qed.

(** What [#getWindowType] does with a type. *)
Lemma getWindowType_typed (specsInfo winType : options) (name : string) :
  type specsInfo = Some name ->
  truthy_string name = true ->
  getWindowType specsInfo = Returned winType ->
  exists typed,
    apply_type name specsInfo = Returned typed
    /\ raw winType = raw typed
    /\ after winType
       = if truthy (debug specsInfo)
         then Some (<["debug" := VBool true]> (or_empty (after typed)))
         else after typed.
Proof.
  intros N T H. unfold getWindowType in H. rewrite N in H.
  cbn [truthy_text from_option id] in H. rewrite T in H. cbn [negb] in H.
  destruct (apply_type name specsInfo) as [typed|] eqn:A; [|discriminate H].
  exists typed. split; [reflexivity|].
  rewrite <- (apply_type_debug _ _ _ A).
  destruct (truthy (debug typed)); injection H as <-; auto.
Qed.

(** What the window is given is what [#getWindowType] returns. *)
Lemma createWindow_passes this (specsInfo : options) (created : windowSpecs) :
  createWindow this specsInfo = Returned created ->
  exists winType,
    getWindowType specsInfo = Returned winType
    /\ window_raw created = raw winType
    /\ window_after created = after winType.
Proof.
  unfold createWindow.
  destruct (failSafe this false); [|discriminate].
  destruct (getWindowType specsInfo) as [winType|]; [|discriminate].
  destruct (getScreenName this (screen specsInfo)); [|discriminate].
  destruct (getWindowPosition this _ _); [|discriminate].
  destruct (truthy_text (src winType)); [|discriminate].
  intros H. injection H as <-. eauto.
Qed.

(** X14: The option [debug] reaches a window only through a type: with
    a type, a truthy [debug] puts the entry [debug] into what the
    window is given as [after]; without one, [after] is passed on as
    it was given, whatever [debug] is. *)
Theorem debug_needs_a_type this (specsInfo : options)
    (created : windowSpecs) :
  createWindow this specsInfo = Returned created ->
  truthy (debug specsInfo) = true ->
  if truthy_text (type specsInfo)
  then exists entries,
         window_after created = Some entries
         /\ entries !! "debug" = Some (VBool true)
  else window_after created = after specsInfo.
Proof.
  intros C D. destruct (createWindow_passes _ _ _ C) as (winType & G & _ & A).
  destruct (truthy_text (type specsInfo)) eqn:T.
  - destruct (type specsInfo) as [name|] eqn:N; [|discriminate T].
    destruct (getWindowType_typed _ _ _ N T G) as (typed & _ & _ & A').
    rewrite D in A'. eexists. split; [now rewrite A, A'|].
    now rewrite lookup_insert_eq.
  - destruct (getWindowType_untyped _ T) as (w & G' & _ & A' & _).
    rewrite G in G'. injection G' as <-. now rewrite A.
Qed.

(** The six members of [types]. *)
Lemma apply_type_own (specsInfo : options) :
  let raw_ := or_empty (raw specsInfo) in
  let glassSpecsAfter :=
    <["css" := VString glass_css]> (or_empty (after specsInfo)) in
  let blurredAfter :=
    <["css" := VString blurred_css]> (or_empty (after specsInfo)) in
  apply_type "background" specsInfo = Returned (background specsInfo)
  /\ apply_type "borderless" specsInfo
     = Returned
         (set_raw specsInfo
            (<["frame" := VBool false]> (spread raw_ commonSpecs)))
  /\ apply_type "glass" specsInfo
     = Returned
         (set_after (set_raw specsInfo (spread raw_ glassSpecs))
            glassSpecsAfter)
  /\ apply_type "borderlessGlass" specsInfo
     = Returned
         (set_after
            (set_raw specsInfo
               (<["frame" := VBool false]> (spread raw_ glassSpecs)))
            glassSpecsAfter)
  /\ apply_type "blurred" specsInfo
     = Returned
         (set_after
            (set_raw specsInfo
               (<["frame" := VBool true]> (spread raw_ glassSpecs)))
            blurredAfter)
  /\ apply_type "borderlessBlurred" specsInfo
     = Returned
         (set_after
            (set_raw specsInfo
               (<["frame" := VBool false]> (spread raw_ glassSpecs)))
            blurredAfter).
Proof. repeat split. Qed.

(** X15: With one of the six types, what the type sets wins over what
    [raw] was given with: the menu bar hides itself, and the window has
    a frame unless the name of the type begins with [borderless]. The
    entries of [raw] under other names reach the window as they were
    given. *)
Theorem type_wins_over_raw this (specsInfo : options)
    (created : windowSpecs) (name : string) :
  createWindow this specsInfo = Returned created ->
  type specsInfo = Some name ->
  In name type_names ->
  exists entries,
    window_raw created = Some entries
    /\ entries !! "autoHideMenuBar" = Some (VBool true)
    /\ entries !! "frame" = Some (VBool (negb (String.prefix "borderless" name)))
    /\ forall k,
         ~ In k ["autoHideMenuBar"; "frame"; "transparent"; "hasShadow";
                 "type"; "titleBarStyle"] ->
         entries !! k = or_empty (raw specsInfo) !! k.
Proof.
  intros C N I. destruct (createWindow_passes _ _ _ C) as (winType & G & R & _).
  assert (T : truthy_string name = true).
  { simpl in I. decompose [or] I; subst; try reflexivity. contradiction. }
  destruct (getWindowType_typed _ _ _ N T G) as (typed & A & R' & _).
  rewrite R, R'. clear C G R R' N created winType.
  assert (L : forall k v (m : gmap string value) (k' : string),
             k <> k' -> <[k := v]> m !! k' = m !! k').
  { intros. now apply lookup_insert_ne. }
  assert (Lc : forall k,
             ~ In k ["autoHideMenuBar"; "frame"; "transparent"; "hasShadow";
                     "type"; "titleBarStyle"] ->
             commonSpecs !! k = None /\ glassSpecs !! k = None).
  { intros k K. unfold glassSpecs, commonSpecs.
    rewrite !L, lookup_empty; auto; intros <-; apply K; simpl; auto 10. }
  assert (F : commonSpecs !! "frame" = Some (VBool true)
              /\ commonSpecs !! "autoHideMenuBar" = Some (VBool true)
              /\ glassSpecs !! "frame" = Some (VBool true)
              /\ glassSpecs !! "autoHideMenuBar" = Some (VBool true)).
  { repeat split; vm_compute; reflexivity. }
  destruct F as (F1 & F2 & F3 & F4).
  destruct (apply_type_own specsInfo) as (A1 & A2 & A3 & A4 & A5 & A6).
  simpl in I. decompose [or] I; try contradiction; subst name;
    [ rewrite A1 in A | rewrite A2 in A | rewrite A3 in A
    | rewrite A4 in A | rewrite A5 in A | rewrite A6 in A ];
    injection A as <-; cbn [raw set_raw set_after background];
    eexists; (split; [reflexivity|]); (split; [|split]);
    try (rewrite ?lookup_insert_eq, ?L, ?lookup_spread, ?F1, ?F2, ?F3, ?F4
           by discriminate;
         reflexivity).
  all: intros k K; destruct (Lc k K) as [K1 K2];
    rewrite ?L, ?lookup_spread, ?K1, ?K2, ?L; try reflexivity;
    intros <-; apply K; simpl; auto 10.
Qed.



End WindowOptionFacts.

Lemma default_window_is_centred_witness :
  WindowSpecs.placed (Fixture.created (Some "glass"))
  = Sample.placed 800 600 2160 212.
Proof.
  unfold Fixture.created.
  rewrite (default_window_is_centred Fixture.detected
             (Fixture.window (Some "glass"))
             (match WindowSpecs.getWindowType (Fixture.window (Some "glass"))
              with
              | Returned w => w
              | Thrown _ => Fixture.window None
              end)
             (Some "#2-noLabel")
             (Displays.new_Screen Fixture.integer_text
                (Fixture.display 2 None 1920 0 1280 1024) (JSNumber.of_Z 2)));
    try (vm_compute; reflexivity).
  discriminate.
Defined.

Lemma background_covers_work_area_witness :
  exists created entries,
    WindowSpecs.createWindow Fixture.detected (Fixture.window (Some "background"))
    = Returned created
    /\ WindowSpecs.placed created = Sample.placed 1280 1024 1920 0
    /\ WindowSpecs.window_raw created = Some entries
    /\ entries !! "type" = Some (WindowSpecs.VString "splash")
    /\ entries !! "titleBarStyle" = Some (WindowSpecs.VString "hidden").
Proof.
  apply (background_covers_work_area Fixture.detected
           (Fixture.window (Some "background")) (Some "#2-noLabel")
           (Displays.new_Screen Fixture.integer_text
              (Fixture.display 2 None 1920 0 1280 1024) (JSNumber.of_Z 2)));
    vm_compute; reflexivity.
Defined.

Lemma debug_needs_a_type_witness :
  (exists entries,
      WindowSpecs.window_after (Fixture.created (Some "borderless"))
      = Some entries
      /\ entries !! "debug" = Some (WindowSpecs.VBool true))
  /\ WindowSpecs.window_after (Fixture.created None) = None.
Proof.
  split.
  - apply (debug_needs_a_type Fixture.detected
             (Fixture.window (Some "borderless"))
             (Fixture.created (Some "borderless")));
      vm_compute; reflexivity.
  - apply (debug_needs_a_type Fixture.detected (Fixture.window None)
             (Fixture.created None));
      vm_compute; reflexivity.
Defined.

Lemma type_wins_over_raw_witness :
  exists entries,
    WindowSpecs.window_raw (Fixture.created (Some "glass")) = Some entries
    /\ entries !! "autoHideMenuBar" = Some (WindowSpecs.VBool true)
    /\ entries !! "frame" = Some (WindowSpecs.VBool true)
    /\ forall k,
         ~ In k ["autoHideMenuBar"; "frame"; "transparent"; "hasShadow";
                 "type"; "titleBarStyle"] ->
         entries !! k
         = WindowSpecs.or_empty
             (WindowSpecs.raw (Fixture.window (Some "glass"))) !! k.
Proof.
  apply (type_wins_over_raw Fixture.detected (Fixture.window (Some "glass"))
           (Fixture.created (Some "glass")) "glass").
  - vm_compute. reflexivity.
  - reflexivity.
  - simpl. auto.
Defined.

(** ** Modes, protocols and the closing of all windows *)

Section LifecycleFacts.

Context {C : Type}.
Context (truthy : C -> bool).

Local Abbreviation protocol := (Lifecycle.protocol truthy).

Lemma set_mode_listeners (this : @Lifecycle.DesktopClass C) val :
  Lifecycle.app_listeners (fst (Lifecycle.set_mode this val))
  = Lifecycle.app_listeners this.
Proof.
  destruct val as [|b|n|s]; simpl; try reflexivity.
  now destruct (String.eqb s "keepAlive" || (String.eqb s "exitOnAllClose" || false)).
Qed.

Lemma set_modes_listeners vals (this : @Lifecycle.DesktopClass C) :
  Lifecycle.app_listeners
    (fold_left (fun this val => fst (Lifecycle.set_mode this val)) vals this)
  = Lifecycle.app_listeners this.
Proof.
  revert this. induction vals as [|v vals IH]; intros this; simpl;
    [reflexivity|].
  now rewrite IH, set_mode_listeners.
Qed.

Lemma emitted_at_least (this : @Lifecycle.DesktopClass C)
    (platform event : string) (l : Lifecycle.listener) :
  In (event, l) (Lifecycle.app_listeners this) ->
  (Lifecycle.quits this platform l
   <= Lifecycle.emitted this platform event)%nat.
Proof.
  unfold Lifecycle.emitted.
  induction (Lifecycle.app_listeners this) as [|[e l'] ls IH]; simpl;
    [intros []|].
  intros [H|H].
  - injection H as -> ->. rewrite String.eqb_refl. simpl. lia.
  - specialize (IH H). destruct (String.eqb e event); simpl; lia.
Qed.

(** X16: Once [init] has run, the closing of all windows on a platform
    other than darwin calls [app.quit], whatever the mode is and was
    set to since: in the mode [keepAlive] the listener [init] adds of
    its own still quits. On a new desktop that is one call in the mode
    [keepAlive], and two in the other. *)
Theorem keepAlive_still_quits (this : @Lifecycle.DesktopClass C)
    (detected : Desktop.DesktopClass) (vals : list WindowSpecs.value)
    (platform : string) :
  String.eqb platform "darwin" = false ->
  (1 <= Lifecycle.emitted
          (fold_left (fun this val => fst (Lifecycle.set_mode this val)) vals
             (Lifecycle.init this detected))
          platform "window-all-closed")%nat
  /\ Lifecycle.emitted (C := C)
       (fst (Lifecycle.set_mode (Lifecycle.init Lifecycle.new detected)
               (WindowSpecs.VString "keepAlive")))
       platform "window-all-closed" = 1%nat
  /\ Lifecycle.emitted (C := C) (Lifecycle.init Lifecycle.new detected)
       platform "window-all-closed" = 2%nat.
Proof.
  intros P. split; [|split].
  - set (this' := fold_left _ vals _).
    assert (Q : Lifecycle.quits this' platform Lifecycle.QuitUnlessDarwin
                = 1%nat) by (simpl; now rewrite P).
    rewrite <- Q. apply emitted_at_least.
    subst this'. rewrite set_modes_listeners. simpl.
    apply in_or_app. right. simpl. auto.
  - unfold Lifecycle.emitted. simpl. now rewrite P.
  - unfold Lifecycle.emitted. simpl. now rewrite P.
Qed.

(** X17: A scheme that has been registered with a callback cannot be
    registered again: the second call throws, the first callback
    stays, and Electron is given the name once. That a call returned
    shows that [init] had not run; after [init] every call throws and
    changes nothing. On a new desktop a scheme named like a member
    every object inherits is refused as if it were registered. *)
Theorem protocol_once (this this1 : @Lifecycle.DesktopClass C)
    (name : string) (callback other : C) :
  protocol this name callback = (this1, Returned tt) ->
  truthy callback = true ->
  (exists this2,
      protocol this1 name other
      = (this2, Thrown (Lifecycle.already_exists name))
      /\ Lifecycle.protocols this2 = Lifecycle.protocols this1
      /\ Lifecycle.schemes this2 = Lifecycle.schemes this ++ [name]
      /\ exists entries, Lifecycle.protocols this2 = Some entries
                         /\ entries !! name = Some callback)
  /\ (forall name' callback',
         JSString.inherited name' = true ->
         snd (protocol Lifecycle.new name' callback')
         = Thrown (Lifecycle.already_exists name'))
  /\ Desktop.hasInit (Lifecycle.desktop this) = false
  /\ forall detected name' callback',
       Desktop.hasInit detected = true ->
       protocol (Lifecycle.init this1 detected) name' callback'
       = (Lifecycle.init this1 detected,
          Thrown "This function should be laucnhed before init").
Proof.
  unfold Lifecycle.protocol, Desktop.failSafe. simpl.
  destruct (Desktop.hasInit (Lifecycle.desktop this)) eqn:I; [discriminate|].
  set (entries := match Lifecycle.protocols this with
                  | Some entries => entries
                  | None => ∅
                  end).
  destruct (Lifecycle.registered truthy entries name) eqn:R; [discriminate|].
  intros H T. injection H as <-. simpl. rewrite I.
  unfold Lifecycle.registered at 1. rewrite lookup_insert_eq, T.
  split; [|split; [|split]].
  - eexists. split; [reflexivity|]. simpl. repeat split.
    eexists. split; [reflexivity|]. now rewrite lookup_insert_eq.
  - intros name' callback' J. unfold Lifecycle.registered.
    cbn [Lifecycle.protocols Lifecycle.new]. now rewrite lookup_empty, J.
  - reflexivity.
  - intros detected name' callback' D. now rewrite D.
Qed.

End LifecycleFacts.

Lemma keepAlive_still_quits_witness :
  (1 <= Lifecycle.emitted (C := string)
          (fold_left (fun this val => fst (Lifecycle.set_mode this val))
             [WindowSpecs.VString "keepAlive"]
             (Lifecycle.init Lifecycle.new Fixture.detected))
          "linux" "window-all-closed")%nat
  /\ Lifecycle.emitted (C := string)
       (fst (Lifecycle.set_mode (Lifecycle.init Lifecycle.new Fixture.detected)
               (WindowSpecs.VString "keepAlive")))
       "linux" "window-all-closed" = 1%nat
  /\ Lifecycle.emitted (C := string)
       (Lifecycle.init Lifecycle.new Fixture.detected)
       "linux" "window-all-closed" = 2%nat.
Proof.
  apply (keepAlive_still_quits (C := string) Lifecycle.new Fixture.detected
           [WindowSpecs.VString "keepAlive"] "linux").
  reflexivity.
Defined.

Lemma protocol_once_witness :
  exists this2,
    Lifecycle.protocol (fun _ : string => true)
      (fst (Lifecycle.protocol (fun _ : string => true) Lifecycle.new
              "app" "first"))
      "app" "second"
    = (this2, Thrown (Lifecycle.already_exists "app"))
    /\ Lifecycle.schemes this2 = ["app"]
    /\ exists entries, Lifecycle.protocols this2 = Some entries
                       /\ entries !! "app" = Some "first".
Proof.
  destruct (protocol_once (fun _ : string => true) Lifecycle.new
              (fst (Lifecycle.protocol (fun _ : string => true) Lifecycle.new
                      "app" "first"))
              "app" "first" "second" eq_refl eq_refl)
    as ((this2 & P & _ & S & E) & _).
  exists this2. auto.
Defined.

(** ** Listeners *)

Section HookFacts.

Context {V L E : Type}.
Context (of_string : string -> V).
Context (typeError : E).
Context (call : @Hooks.trace V L -> L -> list V -> completion unit E).

Local Abbreviation on := (Hooks.on (L := L) typeError).
Local Abbreviation forEach := (Hooks.forEach call).
Local Abbreviation onEvent := (Hooks.onEvent typeError call).
Local Abbreviation onEmit := (Hooks.onEmit of_string typeError call).

Lemma forEach_all (callbacks : list L) (args : list V) :
  (forall t l a, call t l a = Returned tt) ->
  forall t,
    forEach callbacks args t
    = (Returned tt, t ++ map (fun l => (l, args)) callbacks).
Proof.
  intros R. induction callbacks as [|l callbacks IH]; intros t; simpl.
  - now rewrite app_nil_r.
  - rewrite R, IH. now rewrite <- app_assoc.
Qed.

Lemma forEach_until (before after_ : list L) (l : L) (args : list V)
    (e : E) :
  forall t,
    (forall j l', before !! j = Some l' ->
       call (t ++ map (fun l => (l, args)) (take j before)) l' args
       = Returned tt) ->
    call (t ++ map (fun l => (l, args)) before) l args = Thrown e ->
    forEach (before ++ l :: after_) args t
    = (Thrown e, t ++ map (fun l => (l, args)) (before ++ [l])).
Proof.
  induction before as [|b before IH]; intros t B T; simpl in *.
  - rewrite app_nil_r in T. now rewrite T.
  - pose proof (B 0%nat b eq_refl) as B0. simpl in B0.
    rewrite app_nil_r in B0. rewrite B0.
    rewrite IH.
    + now rewrite <- app_assoc.
    + intros j l' H. rewrite <- app_assoc. exact (B (S j) l' H).
    + now rewrite <- app_assoc.
Qed.

Lemma on_listeners (this : @Hooks.hooks L) (eventName : string) (callback : L) :
  JSString.inherited eventName = false ->
  snd (on this eventName callback) = Returned tt
  /\ Hooks.listeners (fst (on this eventName callback)) eventName
     = Hooks.listeners this eventName ++ [callback]
  /\ fst (on this eventName callback) !! eventName
     = Some (Hooks.listeners this eventName ++ [callback]).
Proof.
  intros I. unfold Hooks.on, Hooks.listeners. rewrite I.
  unfold Hooks.hooks in *.
  destruct (this !! eventName); cbn [fst snd from_option id];
    rewrite lookup_insert_eq; auto.
Qed.

(** X18: a listener given to [on] for an event, on a window of the
    stack or on the desktop, is called when that window emits the
    event, after the listeners given before it and the window's before
    the desktop's. The listener of a window is called with the data
    alone; the listener of the desktop is called with the name of the
    event and then the data. Under an id the stack does not hold, as
    after the window was deleted from it, [onEmit] throws a TypeError
    and calls no listener. *)
Theorem emit_calls_listeners (desktop window : @Hooks.hooks L)
    (windowsStack : gmap string (@Hooks.hooks L)) (id eventName : string)
    (onWindow onDesktop : L) (data : list V) (t : @Hooks.trace V L) :
  JSString.inherited eventName = false ->
  (forall t l a, call t l a = Returned tt) ->
  windowsStack !! id = Some window ->
  onEmit (fst (on desktop eventName onDesktop))
    (<[id := fst (on window eventName onWindow)]> windowsStack)
    id eventName data t
  = (Returned true,
     t ++ map (fun l => (l, data))
            (Hooks.listeners window eventName ++ [onWindow])
       ++ map (fun l => (l, of_string eventName :: data))
            (Hooks.listeners desktop eventName ++ [onDesktop]))
  /\ onEmit (fst (on desktop eventName onDesktop))
       (base.delete id windowsStack) id eventName data t
     = (Thrown typeError, t).
Proof.
  intros I R S.
  destruct (on_listeners desktop eventName onDesktop I) as (_ & _ & D).
  destruct (on_listeners window eventName onWindow I) as (_ & _ & W).
  unfold Hooks.onEmit, Hooks.onEvent. split.
  - rewrite lookup_insert_eq, W, D.
    rewrite !(forEach_all _ _ R). now rewrite <- app_assoc.
  - now rewrite lookup_delete_eq.
Qed.

(** X19: for a window the stack holds, what a listener of the window
    throws is lost: the listeners of the window after it are not
    called, those of the desktop all are, and [onEmit] returns [true].
    What a listener of the desktop throws is thrown by [onEmit], and
    the listeners after it are not called. *)
Theorem listener_failures (desktop window : @Hooks.hooks L)
    (windowsStack : gmap string (@Hooks.hooks L)) (id eventName : string)
    (before after_ : list L) (failing : L)
    (others : list L) (data : list V) (e : E) :
  let args := of_string eventName :: data in
  (forall t l a, l <> failing -> call t l a = Returned tt) ->
  (forall t a, call t failing a = Thrown e) ->
  ~ In failing before ->
  ~ In failing others ->
  windowsStack !! id = Some window ->
  (window !! eventName = Some (before ++ failing :: after_) ->
   desktop !! eventName = Some others ->
   onEmit desktop windowsStack id eventName data []
   = (Returned true,
      map (fun l => (l, data)) (before ++ [failing])
        ++ map (fun l => (l, args)) others))
  /\ (window !! eventName = Some others ->
      desktop !! eventName = Some (before ++ failing :: after_) ->
      onEmit desktop windowsStack id eventName data []
      = (Thrown e,
         map (fun l => (l, data)) others
           ++ map (fun l => (l, args)) (before ++ [failing]))).
Proof.
  intros args R T B O S.
  assert (Q : forall (ls : list L) a t,
             ~ In failing ls ->
             forEach ls a t = (Returned tt, t ++ map (fun l => (l, a)) ls)).
  { induction ls as [|l ls IH]; intros a t N; simpl.
    - now rewrite app_nil_r.
    - rewrite R by (intros ->; apply N; now left).
      rewrite IH by (intros H; apply N; now right).
      now rewrite <- app_assoc. }
  assert (U : forall a t,
             forEach (before ++ failing :: after_) a t
             = (Thrown e, t ++ map (fun l => (l, a)) (before ++ [failing]))).
  { intros a t. apply forEach_until; [|apply T].
    intros j l' H. apply R. intros ->. apply B.
    apply list_elem_of_In, list_elem_of_lookup. eauto. }
  split; intros W D; unfold Hooks.onEmit, Hooks.onEvent; rewrite S, W, D.
  - rewrite U, Q by exact O. reflexivity.
  - rewrite Q by exact O. fold args. rewrite U. reflexivity.
Qed.

End HookFacts.

Lemma emit_calls_listeners_witness :
  Hooks.onEmit (fun s : string => s) "TypeError"
    (fun _ (_ : nat) _ => Returned tt)
    (fst (Hooks.on "TypeError" (<["ready" := [1%nat]]> ∅) "ready" 2%nat))
    (<["w1" := fst (Hooks.on "TypeError" ∅ "ready" 3%nat)]>
       (<["w1" := ∅]> ∅))
    "w1" "ready" ["now"] []
  = (Returned true,
     [(3%nat, ["now"]); (1%nat, ["ready"; "now"]); (2%nat, ["ready"; "now"])])
  /\ Hooks.onEmit (fun s : string => s) "TypeError"
       (fun _ (_ : nat) _ => Returned tt)
       (fst (Hooks.on "TypeError" (<["ready" := [1%nat]]> ∅) "ready" 2%nat))
       (base.delete "w1" (<["w1" := ∅]> ∅)) "w1" "ready" ["now"] []
     = (Thrown "TypeError", []).
Proof.
  destruct (emit_calls_listeners (fun s : string => s) "TypeError"
              (fun _ (_ : nat) _ => Returned tt)
              (<["ready" := [1%nat]]> ∅) ∅ (<["w1" := ∅]> ∅) "w1" "ready"
              3%nat 2%nat ["now"] [] eq_refl (fun _ _ _ => eq_refl))
    as [H1 H2].
  - vm_compute. reflexivity.
  - split; [rewrite H1; vm_compute; reflexivity|exact H2].
Defined.

Lemma listener_failures_witness :
  Hooks.onEmit (fun s : string => s) "TypeError"
    (fun _ (l : nat) _ => if Nat.eqb l 7 then Thrown "boom" else Returned tt)
    (<["ready" := [1%nat]]> ∅)
    (<["w1" := <["ready" := [2; 7; 3]%nat]> ∅]> ∅)
    "w1" "ready" ["now"] []
  = (Returned true,
     [(2%nat, ["now"]); (7%nat, ["now"]); (1%nat, ["ready"; "now"])]).
Proof.
  destruct (listener_failures (fun s : string => s) "TypeError"
              (fun _ (l : nat) _ =>
                 if Nat.eqb l 7 then Thrown "boom" else Returned tt)
              (<["ready" := [1%nat]]> ∅) (<["ready" := [2; 7; 3]%nat]> ∅)
              (<["w1" := <["ready" := [2; 7; 3]%nat]> ∅]> ∅) "w1"
              "ready" [2%nat] [3%nat] 7%nat [1%nat] ["now"] "boom")
    as [H _].
  - intros t l a N. destruct (Nat.eqb_spec l 7); [contradiction|reflexivity].
  - reflexivity.
  - simpl. lia.
  - simpl. lia.
  - vm_compute. reflexivity.
  - rewrite H; reflexivity.
Defined.

(** ** The settings *)

Section SettingsFacts.

Import Settings.

Lemma lookup_other (this this' : SettingsClass) (prop other : string) :
  prototype this' = prototype this ->
  settings this' !! other = settings this !! other ->
  lookup this' other = lookup this other.
Proof. intros P S. unfold lookup. now rewrite P, S. Qed.

Lemma assign_plain (this : SettingsClass) (prop : string) (v : value) :
  prop <> "__proto__" ->
  assign this prop v
  = {| settings := <[prop := v]> (settings this);
       prototype := prototype this; file := file this |}.
Proof.
  intros N. unfold assign.
  destruct (String.eqb_spec prop "__proto__") as [E|_]; [now destruct N|].
  now destruct (settings this !! prop).
Qed.

(** X20: After [set], [get] reads the value that was given, for every
    key but [__proto__]: either the value is stored under the key, or
    the key already held a truthy value equal to it and nothing was
    touched. The other keys read as before. *)
Theorem set_then_get (this : SettingsClass) (prop : string) (v : value)
    (returnNewSettings : bool) :
  prop <> "__proto__" ->
  let this' := fst (set this prop v returnNewSettings) in
  (get this' prop = Own v
   \/ (this' = this /\ truthy (get this prop) = true
       /\ strictly_equal (get this prop) v = true))
  /\ forall other, other <> prop -> get this' other = get this other.
Proof.
  intros N this'. subst this'. unfold set, get.
  destruct (truthy (lookup this prop)) eqn:T;
    [destruct (strictly_equal (lookup this prop) v) eqn:Q|];
    cbn [andb fst].
  - split; [now right|reflexivity].
  - rewrite (assign_plain _ _ _ N). split.
    + left. unfold lookup. simpl. now rewrite lookup_insert_eq.
    + intros other O. apply (lookup_other _ _ prop); simpl; [reflexivity|].
      now rewrite lookup_insert_ne by congruence.
  - rewrite (assign_plain _ _ _ N). split.
    + left. unfold lookup. simpl. now rewrite lookup_insert_eq.
    + intros other O. apply (lookup_other _ _ prop); simpl; [reflexivity|].
      now rewrite lookup_insert_ne by congruence.
Qed.

(** What a start would read from the file is the settings as they
    are, or what [JSON] keeps of them. *)
Lemma saved_after (path : string) (this : SettingsClass) (c : call) :
  (exists restarted,
      init path (file this) = Returned (AnObject restarted)
      /\ (settings restarted = settings this
          \/ settings restarted = stringify (settings this))) ->
  exists restarted,
    init path (file (after this c)) = Returned (AnObject restarted)
    /\ (settings restarted = settings (after this c)
        \/ settings restarted = stringify (settings (after this c))).
Proof.
  intros I.
  assert (S : forall this',
             exists restarted,
               init path (file (saveFile this')) = Returned (AnObject restarted)
               /\ (settings restarted = settings (saveFile this')
                   \/ settings restarted
                      = stringify (settings (saveFile this')))).
  { intros this'. eexists. split; [reflexivity|]. now right. }
  destruct c as [prop v r|prop v r|prop]; simpl.
  - unfold set. destruct (truthy _ && strictly_equal _ _); [exact I|apply S].
  - unfold update, set.
    destruct (negb _); [|exact I].
    destruct (truthy _ && strictly_equal _ _); [exact I|apply S].
  - unfold delete. destruct (is_undefined _); [exact I|apply S].
Qed.

Lemma saved_after_all (path : string) (calls : list call)
    (this : SettingsClass) :
  (exists restarted,
      init path (file this) = Returned (AnObject restarted)
      /\ (settings restarted = settings this
          \/ settings restarted = stringify (settings this))) ->
  exists restarted,
    init path (file (fold_left after calls this)) = Returned (AnObject restarted)
    /\ (settings restarted = settings (fold_left after calls this)
        \/ settings restarted
           = stringify (settings (fold_left after calls this))).
Proof.
  revert this. induction calls as [|c calls IH]; intros this I; simpl;
    [exact I|].
  apply IH, saved_after, I.
Qed.

(** What the constructor keeps of the file it has read. *)
Lemma init_file (path : string) (d : disk) (this : SettingsClass) :
  init path d = Returned (AnObject this) -> file this = d.
Proof.
  destruct d as [| |entries|j]; simpl.
  - now intros [= <-].
  - discriminate.
  - now intros [= <-].
  - destruct (plain j); [now intros [= <-]|discriminate].
Qed.

(** X21: when the settings were read, at the start, from no file or
    from a file holding an object whose properties are all [null],
    booleans, Numbers or strings, then whatever calls of [set],
    [update] and [delete] have been made since, the next start reads
    from the file an object again: the current settings as they are,
    or what JSON keeps of them. A value JSON keeps as it is reads the
    same after the restart. Of a file holding other JSON ([null], an
    array, an object inside an object) nothing is said. *)
Theorem settings_survive_restart (path : string) (d : disk)
    (this0 : SettingsClass) (calls : list call) :
  init path d = Returned (AnObject this0) ->
  let this := fold_left after calls this0 in
  exists restarted,
    init path (file this) = Returned (AnObject restarted)
    /\ (settings restarted = settings this
        \/ settings restarted = stringify (settings this))
    /\ forall prop v,
         settings this !! prop = Some v -> json v = Some v ->
         get restarted prop = Own v.
Proof.
  intros I this. subst this.
  destruct (saved_after_all path calls this0) as (restarted & R & S).
  { exists this0. rewrite (init_file _ _ _ I). auto. }
  exists restarted. split; [exact R|]. split; [exact S|].
  intros prop v L K. unfold get, lookup.
  destruct S as [S|S]; rewrite S; [now rewrite L|].
  unfold stringify. rewrite lookup_omap, L. simpl. now rewrite K.
Qed.

(** X22: After [delete] the key reads as [undefined], or as the member
    of that name every object inherits; the other keys read as
    before. *)
Theorem delete_then_get (this : SettingsClass) (prop : string) :
  let this' := delete this prop in
  (is_undefined (get this' prop) = true \/ get this' prop = Member prop)
  /\ forall other, other <> prop -> get this' other = get this other.
Proof.
  intros this'. subst this'. unfold delete, get.
  destruct (is_undefined (lookup this prop)) eqn:U.
  - split; [now left|reflexivity].
  - split.
    + unfold lookup. simpl. rewrite lookup_delete_eq.
      destruct (prototype this && JSString.inherited prop); auto.
    + intros other O. apply (lookup_other _ _ prop); simpl; [reflexivity|].
      now rewrite lookup_delete_ne by congruence.
Qed.

(** X23: [update] of a key that was never set returns an error and
    changes nothing, unless the key is named like a member every
    object inherits: then the value is stored under it. *)
Theorem update_of_missing_key (this : SettingsClass) (prop : string)
    (v : value) (returnNewSettings : bool) :
  settings this !! prop = None ->
  prop <> "__proto__" ->
  if prototype this && JSString.inherited prop
  then get (fst (update this prop v returnNewSettings)) prop = Own v
  else update this prop v returnNewSettings
       = (this, ReturnsError (no_key prop)).
Proof.
  intros S N. unfold update, set, lookup. rewrite S.
  destruct (prototype this && JSString.inherited prop) eqn:P.
  - cbn [is_undefined negb truthy strictly_equal andb].
    destruct v; cbn [fst]; rewrite (assign_plain _ _ _ N);
      unfold get, lookup; simpl; now rewrite lookup_insert_eq.
  - reflexivity.
Qed.

End SettingsFacts.

Lemma set_then_get_witness :
  Settings.get
    (fst (Settings.set
            {| Settings.settings := ∅; Settings.prototype := true;
               Settings.file := Settings.NoFile |}
            "theme" (Settings.Text "dark") false))
    "theme"
  = Settings.Own (Settings.Text "dark").
Proof.
  destruct (set_then_get
              {| Settings.settings := ∅; Settings.prototype := true;
                 Settings.file := Settings.NoFile |}
              "theme" (Settings.Text "dark") false)
    as [[H|(_ & T & _)] _].
  - discriminate.
  - exact H.
  - discriminate T.
Defined.

Lemma settings_survive_restart_witness :
  exists restarted,
    Settings.init "saved-settings.json"
      (Settings.file
         (fold_left Settings.after
            [Settings.CallSet "zoom" (Settings.Number JSNumber.NaN) false;
             Settings.CallDelete "theme";
             Settings.CallSet "lang" (Settings.Text "fr") true]
            {| Settings.settings := <["theme" := Settings.Text "dark"]> ∅;
               Settings.prototype := true;
               Settings.file :=
                 Settings.HoldsJSON
                   (Settings.PObject
                      (<["theme" := Settings.PText "dark"]> ∅)) |}))
    = Returned (Settings.AnObject restarted)
    /\ Settings.get restarted "lang" = Settings.Own (Settings.Text "fr")
    /\ Settings.get restarted "zoom" = Settings.Own Settings.Null
    /\ Settings.get restarted "theme" = Settings.Absent.
Proof.
  destruct (settings_survive_restart "saved-settings.json"
              (Settings.HoldsJSON
                 (Settings.PObject (<["theme" := Settings.PText "dark"]> ∅)))
              {| Settings.settings := <["theme" := Settings.Text "dark"]> ∅;
                 Settings.prototype := true;
                 Settings.file :=
                   Settings.HoldsJSON
                     (Settings.PObject
                        (<["theme" := Settings.PText "dark"]> ∅)) |}
              [Settings.CallSet "zoom" (Settings.Number JSNumber.NaN) false;
               Settings.CallDelete "theme";
               Settings.CallSet "lang" (Settings.Text "fr") true])
    as (restarted & R & S & G).
  - vm_compute. reflexivity.
  - exists restarted. split; [exact R|].
    split; [apply G; vm_compute; reflexivity|].
    vm_compute in R. injection R as <-. split; vm_compute; reflexivity.
Defined.

Lemma update_of_missing_key_witness :
  Settings.update
    {| Settings.settings := ∅; Settings.prototype := true;
       Settings.file := Settings.NoFile |}
    "theme" (Settings.Text "dark") false
  = ({| Settings.settings := ∅; Settings.prototype := true;
        Settings.file := Settings.NoFile |},
     Settings.ReturnsError (Settings.no_key "theme"))
  /\ Settings.get
       (fst (Settings.update
               {| Settings.settings := ∅; Settings.prototype := true;
                  Settings.file := Settings.NoFile |}
               "valueOf" (Settings.Text "dark") false))
       "valueOf"
     = Settings.Own (Settings.Text "dark").
Proof.
  split.
  - apply (update_of_missing_key
             {| Settings.settings := ∅; Settings.prototype := true;
                Settings.file := Settings.NoFile |}
             "theme" (Settings.Text "dark") false); [reflexivity|discriminate].
  - apply (update_of_missing_key
             {| Settings.settings := ∅; Settings.prototype := true;
                Settings.file := Settings.NoFile |}
             "valueOf" (Settings.Text "dark") false);
      [reflexivity|discriminate].
Defined.

(** ** The padding *)

Section PaddingFacts.

Import JSNumber Desktop.

(** X24: the padding has no part in the result of [#getWindowPosition]:
    with the same width, height, x and y, whatever [padding] and the
    default padding are, a window gets the same size and the same
    position, or the same error. *)
Theorem padding_is_ignored this (specs : Specs.specs)
    (screenName : option string) (padding : specValue) (default_ : number) :
  getWindowPosition
    {| hasInit := hasInit this; screens := screens this;
       screensOrder := screensOrder this; primary := primary this;
       defaults_window_padding := default_ |}
    {| Specs.width := Specs.width specs; Specs.height := Specs.height specs;
       Specs.x := Specs.x specs; Specs.y := Specs.y specs;
       Specs.padding := padding |}
    screenName
  = getWindowPosition this specs screenName.
Proof.
  unfold getWindowPosition, failSafe, target, screen_named.
  cbn [hasInit screens primary Specs.width Specs.height Specs.x Specs.y].
  destruct (negb (hasInit this) && negb false); [reflexivity|].
  destruct (false && hasInit this); [reflexivity|].
  match goal with
  | |- match ?t with _ => _ end = _ => destruct t as [mainScreen|]
  end; [|reflexivity].
  destruct (applyProp (props_width mainScreen) (Specs.width specs))
    as [width|]; [|reflexivity].
  destruct (applyProp (props_height mainScreen) (Specs.height specs))
    as [height|]; [|reflexivity].
  destruct (applyProp (props_x mainScreen width) (Specs.x specs))
    as [x|]; [|reflexivity].
  destruct (applyProp (props_y mainScreen height) (Specs.y specs))
    as [y|]; [|reflexivity].
  now rewrite !limit_never_applies by auto.
Qed.

End PaddingFacts.
